(** * Scheduling and booking engine of the hospital assistant (server.py)

    A shallow embedding of the slot generator, the availability resolver,
    the booking transaction and the appointment lifecycle operations of
    [server.py], followed by the properties the specification states about
    them.

    Modelling conventions.
    - A [datetime] of the clinic's wall clock is an integer number of
      microseconds counted from midnight of day 0 of Python's proleptic
      Gregorian ordinal ([date.toordinal]).  The clinic time zone
      ([DEFAULT_TZ], Asia/Karachi unless configured) is taken to have a fixed
      offset, so the order of wall-clock readings is the order of instants
      and busy intervals reported by the calendar are given on the same axis.
    - Date and timestamp strings are represented by the outcome of
      [datetime.fromisoformat]; weekly-schedule windows are kept as the
      strings of the directory file and parsed as the code parses them.
    - Everything the code obtains from outside the process (the clock, the
      credentials, the calendar service, the mail relay) is an operation of
      an abstract world threaded through the code in call order.  A call
      that raises is an outcome of the operation; the busy intervals of a
      free/busy answer are taken well formed, so that reading them does not
      raise.
    - A loop that may run for ever takes a number of rounds it may use, and
      a computation that needs more does not come back.
    - Python's dates run from 0001-01-01 to 9999-12-31 and arithmetic that
      leaves them raises [OverflowError].  This is followed wherever the
      code computes with what a caller supplies: the slot loop (slot
      length and date), the day loop of a date range and the day loop of
      the weekly view.  An exception that nothing catches is an outcome of
      the function, as for the calls on the world; a list too long for the
      memory of the process is not modelled.  The clock is taken to read
      an ordinary instant and the configured lead time to be an ordinary
      one, so that now plus the lead time, the listing window of the list
      tool and the conversion of an instant to UTC are computed without
      leaving the calendar. *)

From stdpp Require Import gmap strings list pretty.
From Stdlib Require Import ZArith Lia Ascii String.

Open Scope Z_scope.

(** ** Strings *)

(** [str.split(sep)] for a one-character separator. *)
Fixpoint split (sep : ascii) (s : string) : list string :=
  match s with
  | EmptyString => [EmptyString]
  | String c s' =>
      if Ascii.eqb c sep then EmptyString :: split sep s'
      else match split sep s' with
           | [] => [String c EmptyString]
           | x :: xs => String c x :: xs
           end
  end.

(** [needle in hay] on strings. *)
Fixpoint str_in (needle hay : string) : bool :=
  if String.prefix needle hay then true
  else match hay with
       | EmptyString => false
       | String _ hay' => str_in needle hay'
       end.

(** [c in s] for a single character. *)
Fixpoint char_in (c : ascii) (s : string) : bool :=
  match s with
  | EmptyString => false
  | String c' s' => if Ascii.eqb c c' then true else char_in c s'
  end.

(** [str.lower] on ASCII letters; other bytes are left as they are. *)
Definition lower_char (c : ascii) : ascii :=
  let n := nat_of_ascii c in
  if ((65 <=? n)%nat && (n <=? 90)%nat)%bool then ascii_of_nat (n + 32) else c.

Fixpoint lower (s : string) : string :=
  match s with
  | EmptyString => EmptyString
  | String c s' => String (lower_char c) (lower s')
  end.

(** The ASCII characters [str.isspace] accepts: TAB..CR, FS..US and space. *)
Definition is_space (c : ascii) : bool :=
  let n := nat_of_ascii c in
  (((9 <=? n)%nat && (n <=? 13)%nat) || ((28 <=? n)%nat && (n <=? 32)%nat))%bool.

Fixpoint lstrip (s : string) : string :=
  match s with
  | EmptyString => EmptyString
  | String c s' => if is_space c then lstrip s' else s
  end.

(** Strips trailing white space: a character is dropped when it is white
    space and everything after it has been dropped. *)
Fixpoint rstrip (s : string) : string :=
  match s with
  | EmptyString => EmptyString
  | String c s' =>
      match rstrip s' with
      | EmptyString => if is_space c then EmptyString else String c EmptyString
      | r => String c r
      end
  end.

Definition strip (s : string) : string := rstrip (lstrip s).

(** [not s] for a string: true exactly for the empty one. *)
Definition str_falsy (s : string) : bool :=
  match s with EmptyString => true | _ => false end.

(** ** Calls that may raise *)

(** What a call that may raise gives back. *)
Inductive outcome (A : Type) :=
| Returned (a : A)
| Raised (msg : string).
Arguments Returned {A} a.
Arguments Raised {A} msg.

(** ** Wall-clock arithmetic *)

Definition MINUTE : Z := 60000000.
Definition HOUR : Z := 60 * MINUTE.
Definition DAY : Z := 24 * HOUR.

(** [timedelta(minutes=m)]. *)
Definition timedelta_minutes (m : Z) : Z := m * MINUTE.

(** [date.min] and [date.max] as ordinals, [datetime.min] and
    [datetime.max], and the number of days a [timedelta] can hold. *)
Definition DATE_MIN : Z := 1.
Definition DATE_MAX : Z := 3652059.
Definition DATETIME_MIN : Z := DATE_MIN * DAY.
Definition DATETIME_MAX : Z := (DATE_MAX + 1) * DAY - 1.
Definition TIMEDELTA_MAX_DAYS : Z := 999999999.

(** What arithmetic on dates raises when it leaves them. *)
Definition OverflowError : string := "OverflowError".

Definition date_fits (day : Z) : bool :=
  ((DATE_MIN <=? day) && (day <=? DATE_MAX))%bool.

Definition datetime_fits (dt : Z) : bool :=
  ((DATETIME_MIN <=? dt) && (dt <=? DATETIME_MAX))%bool.

Definition timedelta_fits (delta : Z) : bool :=
  ((- TIMEDELTA_MAX_DAYS * DAY <=? delta) && (delta <? (TIMEDELTA_MAX_DAYS + 1) * DAY))%bool.

(** [dt + timedelta(...)], the [timedelta] being built first. *)
Definition add_timedelta (dt delta : Z) : outcome Z :=
  if (timedelta_fits delta && datetime_fits (dt + delta))%bool
  then Returned (dt + delta) else Raised OverflowError.

(** [datetime.combine(day, t)], [t] being the microseconds since midnight. *)
Definition combine (day t : Z) : Z := day * DAY + t.

(** [dt.date()], as an ordinal. *)
Definition date_of (dt : Z) : Z := dt / DAY.

(** [date.weekday()]: [(toordinal() + 6) % 7], Monday being 0. *)
Definition weekday (day : Z) : Z := (day + 6) mod 7.

(** [strftime("%a")]. *)
Definition strftime_a (day : Z) : string :=
  match weekday day with
  | 0 => "Mon" | 1 => "Tue" | 2 => "Wed" | 3 => "Thu"
  | 4 => "Fri" | 5 => "Sat" | _ => "Sun"
  end.

Definition two_digits (n : Z) : string :=
  if n <? 10 then "0" +:+ pretty n else pretty n.

(** [strftime("%H:%M")]. *)
Definition strftime_HM (dt : Z) : string :=
  let t := dt mod DAY in
  two_digits (t / HOUR) +:+ ":" +:+ two_digits ((t mod HOUR) / MINUTE).

(** ** Parsing schedule windows *)

Definition digit_of (c : ascii) : option Z :=
  let n := nat_of_ascii c in
  if ((48 <=? n)%nat && (n <=? 57)%nat)%bool then Some (Z.of_nat n - 48) else None.

(** [_parse_time]: [time.fromisoformat] on the ["HH:MM"] form the directory
    uses; the result is the time of day in microseconds.  A string of any
    other shape is rejected here. *)
Definition _parse_time (t : string) : option Z :=
  match t with
  | String h1 (String h2 (String ":" (String m1 (String m2 EmptyString)))) =>
      a ← digit_of h1; b ← digit_of h2; c ← digit_of m1; d ← digit_of m2;
      let hh := 10 * a + b in
      let mm := 10 * c + d in
      if ((hh <? 24) && (mm <? 60))%bool then Some (hh * HOUR + mm * MINUTE) else None
  | _ => None
  end.

(** The body of the [try] around a window: [start_s, end_s = win.split("-")]
    and the two [_parse_time] calls; [None] stands for any exception. *)
Definition parse_window (win : string) : option (Z * Z) :=
  match split "-" win with
  | [start_s; end_s] =>
      start_t ← _parse_time start_s; end_t ← _parse_time end_s; Some (start_t, end_t)
  | _ => None
  end.

(** ** The doctor directory *)

Record Doctor := {
  doctor_id : string;
  d_name : string;
  d_email : option string;
  d_location : option string;
  calendar_id : string;
  weekly_schedule : gmap string (list string);
}.

Fixpoint _find_doctor (DB : list Doctor) (id : string) : option Doctor :=
  match DB with
  | [] => None
  | d :: rest => if String.eqb (doctor_id d) id then Some d else _find_doctor rest id
  end.

(** ** Slot generator *)

(** The inner [while] loop of [_compute_free_slots_for_date]:
    [while cursor + step <= end_local: append (cursor, cursor + step);
    cursor += step], [step] being [timedelta(minutes=slot_minutes)].  The
    sum of the loop test raises when the step is no [timedelta] or the sum
    no [datetime]; the two sums of the body are the same sum again.  [None]
    means the loop did not finish within [fuel] iterations. *)
Fixpoint tile (fuel : nat) (cursor step end_local : Z)
    : option (outcome (list (Z * Z))) :=
  match fuel with
  | O => None
  | S fuel' =>
      match add_timedelta cursor step with
      | Raised exc => Some (Raised exc)
      | Returned next =>
          if next <=? end_local
          then match tile fuel' next step end_local with
               | Some (Returned rest) => Some (Returned ((cursor, next) :: rest))
               | other => other
               end
          else Some (Returned [])
      end
  end.

(** What the [for win in windows] loop carries: [slot_ranges], [earliest],
    [latest]. *)
Definition ScanState : Type := list (Z * Z) * option Z * option Z.

Definition window_step (fuel : nat) (day slot_minutes : Z)
    (st : ScanState) (win : string) : option (outcome ScanState) :=
  let '(slot_ranges, earliest, latest) := st in
  match parse_window win with
  | None => Some (Returned st)
  | Some (start_t, end_t) =>
      let start_local := combine day start_t in
      let end_local := combine day end_t in
      let earliest' :=
        match earliest with
        | None => start_local
        | Some e => if start_local <? e then start_local else e
        end in
      let latest' :=
        match latest with
        | None => end_local
        | Some l => if l <? end_local then end_local else l
        end in
      match tile fuel start_local (timedelta_minutes slot_minutes) end_local with
      | None => None
      | Some (Raised exc) => Some (Raised exc)
      | Some (Returned new) =>
          Some (Returned (slot_ranges ++ new, Some earliest', Some latest'))
      end
  end.

Fixpoint scan_windows (fuel : nat) (day slot_minutes : Z)
    (windows : list string) (st : ScanState) : option (outcome ScanState) :=
  match windows with
  | [] => Some (Returned st)
  | win :: rest =>
      match window_step fuel day slot_minutes st win with
      | Some (Returned st') => scan_windows fuel day slot_minutes rest st'
      | other => other
      end
  end.

(** [_overlaps]: does the slot meet some busy interval. *)
Fixpoint _overlaps (slot_start slot_end : Z) (busy : list (Z * Z)) : bool :=
  match busy with
  | [] => false
  | (b_start, b_end) :: rest =>
      if ((slot_start <? b_end) && (b_start <? slot_end))%bool then true
      else _overlaps slot_start slot_end rest
  end.

(** ** Calendar events *)

Record Attendee := { a_email : option string }.

(** The [start] and [end] objects of an event: a [dateTime] or, for an
    all-day entry, a [date]. *)
Inductive EventTime :=
| DateTime (dt : Z)
| AllDay (day : Z).

Record Event := {
  ev_id : string;
  ev_htmlLink : option string;
  ev_summary : string;
  ev_description : option string;
  ev_start : EventTime;
  ev_end : EventTime;
  ev_attendees : list Attendee;
  ev_location : option string;
  ev_conferenceData : bool;
}.

(** The keyword arguments of [events().insert]. *)
Record InsertParams := {
  sendUpdates : bool;
  conferenceDataVersion : bool;
}.

(** ** The outside world *)

(** The operations the engine performs on its surroundings.  Each takes the
    world as it is and gives the world as it is afterwards, so that the
    clock advances and the calendar may change between two calls.
    - [datetime_now] is [datetime.now(ZoneInfo(DEFAULT_TZ))];
    - [_google_service] raises when the service-account file is missing;
    - [freebusy_query cal time_min time_max] is
      [service.freebusy().query(...).execute()] followed by the lookup of the
      calendar's [busy] list;
    - [events_*] are the calls on [service.events()];
    - [_send_plain_email recipients subject] is the mail helper, of which
      only the (ok, error) pair matters here. *)
Class World (W : Type) := {
  datetime_now : W → Z * W;
  _google_service : W → outcome unit * W;
  freebusy_query : string → Z → Z → W → outcome (list (Z * Z)) * W;
  events_insert : string → Event → InsertParams → W → outcome Event * W;
  events_get : string → string → W → outcome Event * W;
  events_update : string → string → Event → W → outcome Event * W;
  events_delete : string → string → bool → W → outcome unit * W;
  events_list : string → Z → Z → W → outcome (list Event) * W;
  _send_plain_email : list string → string → W → (bool * option string) * W;
}.

(** Computations over the world; [None] is a computation that does not
    come back. *)
Definition M (W A : Type) : Type := W → option (A * W).

Definition ret {W A : Type} (a : A) : M W A := λ w, Some (a, w).

Definition bind {W A B : Type} (m : M W A) (k : A → M W B) : M W B :=
  λ w, match m w with
       | None => None
       | Some (a, w') => k a w'
       end.

Definition call {W A : Type} (op : W → A * W) : M W A := λ w, Some (op w).

Definition diverge {W A : Type} : M W A := λ _, None.

Notation "'do' x <~ m ; k" := (bind m (λ x, k))
  (at level 10, x name, m at level 100, k at level 200,
   format "'[v' 'do'  x  <~  m ; '/' k ']'").
Notation "'do' ' p <~ m ; k" := (bind m (λ x, match x with p => k end))
  (at level 10, p pattern, m at level 100, k at level 200,
   format "'[v' 'do'  ' p  <~  m ; '/' k ']'").

(** ** Responses of the tools *)

(** The [code] of the second component of [_compute_free_slots_for_date]. *)
Inductive MetaCode :=
| invalid_date
| no_schedule
| freebusy_error
| no_future_slots
| fully_booked.

(** A date argument as [datetime.fromisoformat] sees it; the ordinal of a
    date that parses lies between [DATE_MIN] and [DATE_MAX]. *)
Inductive DateStr :=
| NoDate                (* None or the empty string *)
| Blank                 (* white space only *)
| Unparsable
| IsoDate (day : Z).

Definition fromisoformat_date (s : DateStr) : option Z :=
  match s with
  | IsoDate day => Some day
  | _ => None
  end.

(** The response of [availability_tool], without the fields that echo the
    request. *)
Inductive AvailabilityResponse :=
| AvError (msg : string)
| AvDay (date : DateStr) (slots : list string) (warning_code : option MetaCode)
| AvDates (dates : gmap Z (list string)).

Inductive BookResponse :=
| BookError (msg : string)
| Booked (message : string) (event_link : option string) (event_id : string)
         (smtp_sent : bool) (smtp_error : option string).

Inductive CancelResponse :=
| CancelError (msg : string)
| CancelOk.

Inductive RescheduleResponse :=
| RescheduleError (msg : string)
| RescheduleOk (event_link : option string).

Record AppointmentSummary := {
  as_doctor_id : string;
  as_doctor_name : string;
  as_event_id : string;
  as_htmlLink : option string;
  as_start : EventTime;
  as_end : EventTime;
  as_summary : string;
}.

Inductive ListResponse :=
| ListError (msg : string)
| ListEvents (events : list AppointmentSummary).

Record BookRequest := {
  b_doctor_id : string;
  b_start : option Z;          (* [datetime.fromisoformat(start)], None when it raises *)
  b_end : option Z;
  patient_name : string;
  patient_email : string;
  patient_phone : option string;
  patient_age : option Z;
  patient_sex : option string;
  visit_mode : option string;
  condition : option string;
  send_invitations : bool;
  create_meet : bool;
}.

Definition ERR_UNKNOWN_DOCTOR (id : string) : string := "Unknown doctor_id: " +:+ id.
Definition ERR_INVALID_RANGE : string := "Invalid date or end_date. Use YYYY-MM-DD".
Definition ERR_INVALID_FORMAT : string := "Invalid start/end format. Use YYYY-MM-DDTHH:MM".
Definition ERR_END_BEFORE_START : string := "End time must be after start time.".
Definition ERR_INVALID_EMAIL : string := "Invalid patient_email.".
Definition ERR_LEAD_TIME (verb : string) (minutes : Z) : string :=
  "Appointments must be " +:+ verb +:+ " at least " +:+ pretty minutes +:+ " minutes in advance.".
Definition ERR_OUTSIDE_HOURS : string := "Selected time is outside clinic hours for this doctor.".
Definition ERR_NO_LONGER_AVAILABLE : string :=
  "Requested time is no longer available. Please pick another slot.".
Definition ERR_NOT_A_SLOT : string :=
  "Requested time is not an available slot for this doctor/day. Please pick a listed slot from availability.".
Definition ERR_INSERT (e : string) : string := "Google Calendar insert error: " +:+ e.
Definition ERR_UNAUTHORIZED : string :=
  "Unauthorized: event does not belong to the requesting patient.".
Definition ERR_CANCEL (e : string) : string := "Cancel error: " +:+ e.
Definition ERR_RESCHEDULE (e : string) : string := "Reschedule error: " +:+ e.
Definition ERR_INVALID_NEW_FORMAT : string :=
  "Invalid new_start/new_end format. Use YYYY-MM-DDTHH:MM".
Definition ERR_EMAIL_REQUIRED : string := "patient_email is required".

(** ** Ownership of an event *)

(** The [for a in attendees] loop of [_event_contains_patient]. *)
Fixpoint attendee_matches (pe : string) (attendees : list Attendee) : bool :=
  match attendees with
  | [] => false
  | a :: rest =>
      let email := strip (lower (default EmptyString (a_email a))) in
      if String.eqb email pe then true else attendee_matches pe rest
  end.

Definition _event_contains_patient (ev : Event) (patient_email : string) : bool :=
  if str_falsy patient_email then false
  else
    let pe := strip (lower patient_email) in
    if attendee_matches pe (ev_attendees ev) then true
    else
      let desc := lower (default EmptyString (ev_description ev)) in
      str_in pe desc.

(** ** Schedule containment *)

(** The [for win in windows] loop of [_within_schedule]. *)
Fixpoint within_windows (day start_local end_local : Z) (windows : list string) : bool :=
  match windows with
  | [] => false
  | win :: rest =>
      match parse_window win with
      | None => within_windows day start_local end_local rest
      | Some (start_t, end_t) =>
          let w_start := combine day start_t in
          let w_end := combine day end_t in
          if ((w_start <=? start_local) && (end_local <=? w_end))%bool then true
          else within_windows day start_local end_local rest
      end
  end.

Definition _within_schedule (doctor : Doctor) (start_local end_local : Z) : bool :=
  let schedule := weekly_schedule doctor in
  let day_name := strftime_a (date_of start_local) in
  let windows := default [] (schedule !! day_name) in
  within_windows (date_of start_local) start_local end_local windows.

(** ** Availability *)

(** The [for s_start, s_end in slot_ranges] loop that fills [free_slots]. *)
Fixpoint free_slots_loop (is_today : bool) (cutoff : Z) (busy_list : list (Z * Z))
    (slot_ranges : list (Z * Z)) : list string :=
  match slot_ranges with
  | [] => []
  | (s_start, s_end) :: rest =>
      if (is_today && (s_start <? cutoff))%bool
      then free_slots_loop is_today cutoff busy_list rest
      else if negb (_overlaps s_start s_end busy_list)
      then strftime_HM s_start :: free_slots_loop is_today cutoff busy_list rest
      else free_slots_loop is_today cutoff busy_list rest
  end.

(** [any((not is_today or (rng[0] >= cutoff)) for rng in slot_ranges)]. *)
Definition any_future_candidates (is_today : bool) (cutoff : Z)
    (slot_ranges : list (Z * Z)) : bool :=
  existsb (λ rng, (negb is_today || (cutoff <=? rng.1))%bool) slot_ranges.

(** [(patient_email ...).split("@")[-1]]. *)
Definition after_last_at (s : string) : string := List.last (split "@" s) EmptyString.

Definition valid_email (e : string) : bool :=
  (char_in "@" e && char_in "." (after_last_at e))%bool.

(** [o or ""]. *)
Definition or_empty (o : option string) : string := default EmptyString o.

(** Truthiness of an optional string. *)
Definition truthy (o : option string) : bool := negb (str_falsy (or_empty o)).

Definition NEWLINE : string := String (ascii_of_nat 10) EmptyString.

Fixpoint join (sep : string) (l : list string) : string :=
  match l with
  | [] => EmptyString
  | [x] => x
  | x :: rest => x +:+ sep +:+ join sep rest
  end.

Section Engine.
Context {W : Type} `{World W}.
Variable MIN_LEAD_MINUTES : Z.
Variable DB : list Doctor.

(** The body of the [try] blocks that query free/busy: build the service,
    run the query over [time_min, time_max] and read the busy list. *)
Definition freebusy (doctor : Doctor) (time_min time_max : Z)
    : M W (outcome (list (Z * Z))) :=
  do s <~ call _google_service;
  match s with
  | Raised e => ret (Raised e)
  | Returned _ => call (freebusy_query (calendar_id doctor) time_min time_max)
  end.

(** [_compute_free_slots_for_date]; the exception of the slot loop is
    caught nowhere in it and is its outcome. *)
Definition _compute_free_slots_for_date (fuel : nat) (doctor : Doctor)
    (date : DateStr) (slot_minutes : Z)
    : M W (outcome (list string * option MetaCode)) :=
  let schedule := weekly_schedule doctor in
  match fromisoformat_date date with
  | None => ret (Returned ([], Some invalid_date))
  | Some day =>
      let day_name := strftime_a day in
      let windows := default [] (schedule !! day_name) in
      match windows with
      | [] => ret (Returned ([], Some no_schedule))
      | _ :: _ =>
          match scan_windows fuel day slot_minutes windows ([], None, None) with
          | None => diverge
          | Some (Raised exc) => ret (Raised exc)
          | Some (Returned (slot_ranges, Some earliest, Some latest)) =>
              do fb <~ freebusy doctor earliest latest;
              match fb with
              | Raised _ => ret (Returned ([], Some freebusy_error))
              | Returned busy_list =>
                  do now_local <~ call datetime_now;
                  let is_today := day =? date_of now_local in
                  let cutoff := now_local + timedelta_minutes MIN_LEAD_MINUTES in
                  let free_slots := free_slots_loop is_today cutoff busy_list slot_ranges in
                  match free_slots with
                  | [] =>
                      let code :=
                        if negb (any_future_candidates is_today cutoff slot_ranges)
                        then no_future_slots else fully_booked in
                      ret (Returned ([], Some code))
                  | _ :: _ => ret (Returned (free_slots, None))
                  end
              end
          | Some (Returned _) => ret (Returned ([], Some no_schedule))
          end
      end
  end.

(** The [while day <= end_d] loop of the date-range branch; [n] is the
    number of days from [day] to [end_d], both included.  Each round ends
    with [day += timedelta(days=1)], which raises after the last day of the
    calendar. *)
Fixpoint range_loop (fuel : nat) (doctor : Doctor) (slot_minutes : Z)
    (n : nat) (day : Z) (result_map : gmap Z (list string))
    : M W (outcome (gmap Z (list string))) :=
  match n with
  | O => ret (Returned result_map)
  | S n' =>
      do r <~ _compute_free_slots_for_date fuel doctor (IsoDate day) slot_minutes;
      match r with
      | Raised exc => ret (Raised exc)
      | Returned (slots, _meta_unused) =>
          if date_fits (day + 1)
          then range_loop fuel doctor slot_minutes n' (day + 1)
                 (<[day := slots]> result_map)
          else ret (Raised OverflowError)
      end
  end.

Definition availability_tool (fuel : nat) (doctor_id : string) (date : DateStr)
    (slot_minutes : Z) (end_date : DateStr) : M W (outcome AvailabilityResponse) :=
  match _find_doctor DB doctor_id with
  | None => ret (Returned (AvError (ERR_UNKNOWN_DOCTOR doctor_id)))
  | Some doctor =>
      do date <~
        match date with
        | NoDate | Blank =>
            do n <~ call datetime_now; ret (IsoDate (date_of n))
        | _ => ret date
        end;
      match end_date with
      | NoDate =>
          do r <~ _compute_free_slots_for_date fuel doctor date slot_minutes;
          match r with
          | Raised exc => ret (Raised exc)
          | Returned (slots, meta) => ret (Returned (AvDay date slots meta))
          end
      | _ =>
          match fromisoformat_date date, fromisoformat_date end_date with
          | Some d1, Some d2 =>
              let start_d := if d2 <? d1 then d2 else d1 in
              let end_d := if d2 <? d1 then d1 else d2 in
              do r <~
                range_loop fuel doctor slot_minutes
                  (Z.to_nat (end_d - start_d + 1)) start_d ∅;
              match r with
              | Raised exc => ret (Raised exc)
              | Returned result_map => ret (Returned (AvDates result_map))
              end
          | _, _ => ret (Returned (AvError ERR_INVALID_RANGE))
          end
      end
  end.

(** ** Booking *)

Definition _slot_conflicts_with_calendar (doctor : Doctor)
    (start_local end_local : Z) : M W bool :=
  do fb <~ freebusy doctor start_local end_local;
  match fb with
  | Raised _ => ret true
  | Returned busy_list => ret (_overlaps start_local end_local busy_list)
  end.

(** A message that makes [appointment_book_tool] retry the insert
    without the conference request. *)
Definition is_conference_error (msg : string) : bool :=
  (str_in "Invalid conference type" msg || str_in "conferenceData" msg)%bool.

(** What [str(e2)] is when the retry finds [service] unbound because
    [_google_service] itself raised. *)
Definition UNBOUND_SERVICE : string :=
  "cannot access local variable 'service' where it is not associated with a value".

Definition visit_mode_key (req : BookRequest) : string :=
  strip (lower (or_empty (visit_mode req))).

Definition or_unspecified (o : option string) : string :=
  if truthy o then or_empty o else "unspecified".

(** The [event] body and the [params] built by [appointment_book_tool]. *)
Definition build_event (doctor : Doctor) (req : BookRequest)
    (start_local end_local : Z) : Event * InsertParams :=
  let summary := "Consultation: " +:+ d_name doctor +:+ " ↔ " +:+ patient_name req in
  let description_lines :=
    [ "Visit mode: " +:+ or_unspecified (visit_mode req);
      "Condition: " +:+ or_unspecified (condition req);
      "Created via Hospital MCP assistant.";
      "Patient: " +:+ patient_name req +:+ " <" +:+ patient_email req +:+ ">" ]
    ++ (if truthy (patient_phone req)
        then ["Phone: " +:+ or_empty (patient_phone req)] else [])
    ++ (match patient_age req with
        | Some age => ["Age: " +:+ pretty age]
        | None => []
        end)
    ++ (if truthy (patient_sex req)
        then ["Sex: " +:+ or_empty (patient_sex req)] else []) in
  let vm := visit_mode_key req in
  let meet := (String.eqb vm "online" && create_meet req)%bool in
  ({| ev_id := EmptyString;
      ev_htmlLink := None;
      ev_summary := summary;
      ev_description := Some (join NEWLINE description_lines);
      ev_start := DateTime start_local;
      ev_end := DateTime end_local;
      ev_attendees :=
        if send_invitations req
        then [ {| a_email := d_email doctor |};
               {| a_email := Some (patient_email req) |} ]
        else [];
      ev_location :=
        if meet then None
        else if String.eqb vm "inperson"
        then (if truthy (d_location doctor) then d_location doctor else None)
        else None;
      ev_conferenceData := meet |},
   {| sendUpdates := send_invitations req;
      conferenceDataVersion := meet |}).

(** [event.pop("conferenceData", None)]. *)
Definition pop_conference (ev : Event) : Event :=
  {| ev_id := ev_id ev; ev_htmlLink := ev_htmlLink ev; ev_summary := ev_summary ev;
     ev_description := ev_description ev; ev_start := ev_start ev; ev_end := ev_end ev;
     ev_attendees := ev_attendees ev; ev_location := ev_location ev;
     ev_conferenceData := false |}.

(** The insert with its single retry. *)
Definition insert_event (doctor : Doctor) (event : Event) (params : InsertParams)
    : M W (outcome Event) :=
  do s <~ call _google_service;
  match s with
  | Raised e =>
      if is_conference_error e then ret (Raised UNBOUND_SERVICE) else ret (Raised e)
  | Returned _ =>
      do r <~ call (events_insert (calendar_id doctor) event params);
      match r with
      | Returned created => ret (Returned created)
      | Raised e =>
          if is_conference_error e
          then call (events_insert (calendar_id doctor) (pop_conference event)
                       {| sendUpdates := sendUpdates params;
                          conferenceDataVersion := false |})
          else ret (Raised e)
      end
  end.

Definition PATIENT_SUBJECT : string := "Appointment Confirmation – Unity Care Clinic".
Definition DOCTOR_SUBJECT : string := "New Appointment Scheduled – Unity Care Clinic".

(** Everything from the construction of the event on: insert, read the
    clock for the invitation stamp, mail the patient, mail the doctor. *)
Definition commit_booking (doctor : Doctor) (req : BookRequest)
    (start_local end_local : Z) : M W BookResponse :=
  let '(event, params) := build_event doctor req start_local end_local in
  do r <~ insert_event doctor event params;
  match r with
  | Raised e => ret (BookError (ERR_INSERT e))
  | Returned created =>
      do _dtstamp <~ call datetime_now;
      do ' (smtp_ok1, smtp_err1) <~
        call (_send_plain_email [patient_email req] PATIENT_SUBJECT);
      do ' (smtp_ok2, smtp_err2) <~
        (if truthy (d_email doctor)
         then call (_send_plain_email [or_empty (d_email doctor)] DOCTOR_SUBJECT)
         else ret (true, None));
      let smtp_ok := (smtp_ok1 && smtp_ok2)%bool in
      let smtp_err := if truthy smtp_err1 then smtp_err1 else smtp_err2 in
      ret (Booked ("Appointment booked successfully."
                     +:+ (if send_invitations req then " Google invites sent." else ""))
                  (ev_htmlLink created) (ev_id created) smtp_ok smtp_err)
  end.

(** The guard that follows the preflight check: whether the booking goes
    on.  It sits in a [try] whose handler is [except Exception: pass]: when
    the recomputation of the day's slots raises, the booking goes on as if
    the start were listed.  A slot loop that never ends is [diverge]. *)
Definition slot_guard (fuel : nat) (doctor : Doctor) (start_local end_local : Z)
    : M W bool :=
  let slot_minutes := (end_local - start_local) / MINUTE in
  do r <~
    _compute_free_slots_for_date fuel doctor
      (IsoDate (date_of start_local)) slot_minutes;
  match r with
  | Raised _ => ret true
  | Returned (slots_for_day, _meta) =>
      let requested_hm := strftime_HM start_local in
      ret (bool_decide (requested_hm ∈ slots_for_day))
  end.

Definition appointment_book_tool (fuel : nat) (req : BookRequest) : M W BookResponse :=
  match _find_doctor DB (b_doctor_id req) with
  | None => ret (BookError (ERR_UNKNOWN_DOCTOR (b_doctor_id req)))
  | Some doctor =>
      match b_start req, b_end req with
      | Some start_local, Some end_local =>
          if end_local <=? start_local then ret (BookError ERR_END_BEFORE_START)
          else if negb (valid_email (patient_email req))
          then ret (BookError ERR_INVALID_EMAIL)
          else
            do now_local <~ call datetime_now;
            let lead_cutoff := now_local + timedelta_minutes MIN_LEAD_MINUTES in
            if start_local <? lead_cutoff
            then ret (BookError (ERR_LEAD_TIME "booked" MIN_LEAD_MINUTES))
            else if negb (_within_schedule doctor start_local end_local)
            then ret (BookError ERR_OUTSIDE_HOURS)
            else
              do conflict <~ _slot_conflicts_with_calendar doctor start_local end_local;
              if conflict then ret (BookError ERR_NO_LONGER_AVAILABLE)
              else
                do listed <~ slot_guard fuel doctor start_local end_local;
                if negb listed then ret (BookError ERR_NOT_A_SLOT)
                else commit_booking doctor req start_local end_local
      | _, _ => ret (BookError ERR_INVALID_FORMAT)
      end
  end.

(** ** Lifecycle *)

Definition summarize (d : Doctor) (ev : Event) : AppointmentSummary :=
  {| as_doctor_id := doctor_id d; as_doctor_name := d_name d;
     as_event_id := ev_id ev; as_htmlLink := ev_htmlLink ev;
     as_start := ev_start ev; as_end := ev_end ev; as_summary := ev_summary ev |}.

(** The [for c in calendars] loop of [list_appointments_tool]. *)
Fixpoint list_calendars (patient_email : string) (time_min time_max : Z)
    (calendars : list Doctor) (results : list AppointmentSummary)
    : M W (list AppointmentSummary) :=
  match calendars with
  | [] => ret results
  | d :: rest =>
      do r <~ call (events_list (calendar_id d) time_min time_max);
      match r with
      | Raised _ => list_calendars patient_email time_min time_max rest results
      | Returned events =>
          let mine := filter (λ ev, _event_contains_patient ev patient_email = true) events in
          list_calendars patient_email time_min time_max rest
            (results ++ map (summarize d) mine)
      end
  end.

Definition list_appointments_tool (doctor_id : option string)
    (patient_email : option string) (window_days : Z) : M W ListResponse :=
  if negb (truthy patient_email) then ret (ListError ERR_EMAIL_REQUIRED)
  else
    do s <~ call _google_service;
    match s with
    | Raised e => ret (ListError e)
    | Returned _ =>
        let scoped :=
          if truthy doctor_id
          then match _find_doctor DB (or_empty doctor_id) with
               | None => None
               | Some d => Some [d]
               end
          else Some DB in
        match scoped with
        | None => ret (ListError (ERR_UNKNOWN_DOCTOR (or_empty doctor_id)))
        | Some calendars =>
            do now_local <~ call datetime_now;
            let time_min := now_local in
            let time_max := now_local + window_days * DAY in
            do results <~
              list_calendars (or_empty patient_email) time_min time_max calendars [];
            ret (ListEvents results)
        end
    end.

Definition cancel_appointment_tool (doctor_id event_id patient_email : string)
    (notify_attendees : bool) : M W CancelResponse :=
  match _find_doctor DB doctor_id with
  | None => ret (CancelError (ERR_UNKNOWN_DOCTOR doctor_id))
  | Some d =>
      do s <~ call _google_service;
      match s with
      | Raised e => ret (CancelError (ERR_CANCEL e))
      | Returned _ =>
          do g <~ call (events_get (calendar_id d) event_id);
          match g with
          | Raised e => ret (CancelError (ERR_CANCEL e))
          | Returned ev =>
              if negb (_event_contains_patient ev patient_email)
              then ret (CancelError ERR_UNAUTHORIZED)
              else
                do r <~ call (events_delete (calendar_id d) event_id notify_attendees);
                match r with
                | Raised e => ret (CancelError (ERR_CANCEL e))
                | Returned _ => ret CancelOk
                end
          end
      end
  end.

(** [ev["start"] = ...; ev["end"] = ...] on the fetched event. *)
Definition set_start_end (ev : Event) (start_local end_local : Z) : Event :=
  {| ev_id := ev_id ev; ev_htmlLink := ev_htmlLink ev; ev_summary := ev_summary ev;
     ev_description := ev_description ev;
     ev_start := DateTime start_local; ev_end := DateTime end_local;
     ev_attendees := ev_attendees ev; ev_location := ev_location ev;
     ev_conferenceData := ev_conferenceData ev |}.

(** The second [try] of [reschedule_tool]: fetch, check ownership, update. *)
Definition reschedule_commit (d : Doctor) (event_id patient_email : string)
    (start_local end_local : Z) : M W RescheduleResponse :=
  do s <~ call _google_service;
  match s with
  | Raised e => ret (RescheduleError (ERR_RESCHEDULE e))
  | Returned _ =>
      do g <~ call (events_get (calendar_id d) event_id);
      match g with
      | Raised e => ret (RescheduleError (ERR_RESCHEDULE e))
      | Returned ev =>
          if negb (_event_contains_patient ev patient_email)
          then ret (RescheduleError ERR_UNAUTHORIZED)
          else
            do u <~ call (events_update (calendar_id d) event_id
                            (set_start_end ev start_local end_local));
            match u with
            | Raised e => ret (RescheduleError (ERR_RESCHEDULE e))
            | Returned updated => ret (RescheduleOk (ev_htmlLink updated))
            end
      end
  end.

Definition reschedule_tool (doctor_id event_id : string)
    (new_start new_end : option Z) (patient_email : string) : M W RescheduleResponse :=
  match _find_doctor DB doctor_id with
  | None => ret (RescheduleError (ERR_UNKNOWN_DOCTOR doctor_id))
  | Some d =>
      match new_start, new_end with
      | Some start_local, Some end_local =>
          do now_local <~ call datetime_now;
          let lead_cutoff := now_local + timedelta_minutes MIN_LEAD_MINUTES in
          if start_local <? lead_cutoff
          then ret (RescheduleError (ERR_LEAD_TIME "rescheduled" MIN_LEAD_MINUTES))
          else if negb (_within_schedule d start_local end_local)
          then ret (RescheduleError ERR_OUTSIDE_HOURS)
          else
            do conflict <~ _slot_conflicts_with_calendar d start_local end_local;
            if conflict then ret (RescheduleError ERR_NO_LONGER_AVAILABLE)
            else reschedule_commit d event_id patient_email start_local end_local
      | _, _ => ret (RescheduleError ERR_INVALID_NEW_FORMAT)
      end
  end.
End Engine.

(** ** Closed forms and predicates used to state the properties *)

(** [n] consecutive slots of length [step] from [start] on. *)
Fixpoint tiles (n : nat) (start step : Z) : list (Z * Z) :=
  match n with
  | O => []
  | S n' => (start, start + step) :: tiles n' (start + step) step
  end.

(** The windows of a day that parse, in directory order, as times of day. *)
Definition parsed_windows (windows : list string) : list (Z * Z) :=
  omap parse_window windows.

(** The candidates of a day in closed form: window after window, each
    tiled from its start. *)
Definition candidates (day slot_minutes : Z) (windows : list string) : list (Z * Z) :=
  flat_map
    (λ w : Z * Z,
       let step := timedelta_minutes slot_minutes in
       tiles (Z.to_nat ((combine day w.2 - combine day w.1) / step)) (combine day w.1) step)
    (parsed_windows windows).

(** The slots of [day] can be laid out without leaving the calendar: [day]
    is a date, and a slot that starts before the midnight that ends it ends
    within the last year.  It holds of every date but the last for slots of
    up to a day. *)
Definition in_calendar (day slot_minutes : Z) : Prop :=
  DATE_MIN ≤ day ∧
  combine (day + 1) (timedelta_minutes slot_minutes) ≤ DATETIME_MAX + 1.

(** Half-open overlap of two intervals, as the specification writes it. *)
Definition overlap (a b : Z * Z) : Prop := a.1 < b.2 ∧ a.2 > b.1.

(** The invariant of a day's windows: each ends strictly after it starts
    and no two of them overlap. *)
Definition windows_ok (pw : list (Z * Z)) : Prop :=
  (∀ w, w ∈ pw → w.1 < w.2) ∧
  (∀ i j w1 w2, i ≠ j → pw !! i = Some w1 → pw !! j = Some w2 → ¬ overlap w1 w2).

(** A slot lies entirely within the window [w] of the day [day]. *)
Definition within (day : Z) (c w : Z * Z) : Prop :=
  combine day w.1 ≤ c.1 ∧ c.2 ≤ combine day w.2.

(** The candidate is dropped by the lead-time rule, which applies to today
    only. *)
Definition before_cutoff (is_today : bool) (cutoff : Z) (c : Z * Z) : Prop :=
  is_today = true ∧ c.1 < cutoff.


(** The ownership rule of the code: as above, the attendee's email being
    lower-cased and trimmed as well (an attendee without email counts as
    the empty string). *)
Definition owns (ev : Event) (patient_email : string) : Prop :=
  let pe := strip (lower patient_email) in
  patient_email ≠ EmptyString ∧
  ((∃ a, a ∈ ev_attendees ev ∧ strip (lower (or_empty (a_email a))) = pe) ∨
   (∃ before after,
      lower (or_empty (ev_description ev)) = before +:+ pe +:+ after)).

(** ** An in-memory world *)

(** A calendar kept in memory, with switches for the two ways the provider
    can fail. *)
Record Fake := {
  fk_now : Z;
  fk_credentials : bool;
  fk_freebusy_up : bool;
  fk_busy : list (Z * Z);
  fk_events : list Event;
}.

Definition fk_set_events (w : Fake) (evs : list Event) : Fake :=
  {| fk_now := fk_now w; fk_credentials := fk_credentials w;
     fk_freebusy_up := fk_freebusy_up w; fk_busy := fk_busy w; fk_events := evs |}.

Definition fk_find (id : string) (w : Fake) : option Event :=
  List.find (λ ev, String.eqb (ev_id ev) id) (fk_events w).

Definition fk_with_id (id : string) (ev : Event) : Event :=
  {| ev_id := id; ev_htmlLink := Some ("https://calendar.example/" +:+ id);
     ev_summary := ev_summary ev; ev_description := ev_description ev;
     ev_start := ev_start ev; ev_end := ev_end ev;
     ev_attendees := ev_attendees ev; ev_location := ev_location ev;
     ev_conferenceData := ev_conferenceData ev |}.

Definition NOT_CONFIGURED : string :=
  "Google service account credentials not configured. Set GOOGLE_SERVICE_ACCOUNT_FILE env to a JSON file path.".

#[global] Instance fake_world : World Fake := {|
  datetime_now w := (fk_now w, w);
  _google_service w :=
    (if fk_credentials w then Returned () else Raised NOT_CONFIGURED, w);
  freebusy_query _ time_min time_max w :=
    (if fk_freebusy_up w
     then Returned (filter (λ b : Z * Z, b.1 < time_max ∧ time_min < b.2) (fk_busy w))
     else Raised "HttpError 503", w);
  events_insert _ ev _ w :=
    let created := fk_with_id ("evt" +:+ pretty (List.length (fk_events w))) ev in
    (Returned created, fk_set_events w (fk_events w ++ [created]));
  events_get _ id w :=
    (match fk_find id w with
     | Some ev => Returned ev
     | None => Raised "HttpError 404"
     end, w);
  events_update _ id body w :=
    match fk_find id w with
    | Some _ =>
        let updated := fk_with_id id body in
        (Returned updated,
         fk_set_events w
           (map (λ ev, if String.eqb (ev_id ev) id then updated else ev) (fk_events w)))
    | None => (Raised "HttpError 404", w)
    end;
  events_delete _ id _ w :=
    match fk_find id w with
    | Some _ =>
        (Returned (),
         fk_set_events w (filter (λ ev, String.eqb (ev_id ev) id = false) (fk_events w)))
    | None => (Raised "HttpError 410", w)
    end;
  events_list _ _ _ w := (Returned (fk_events w), w);
  _send_plain_email _ _ w := ((true, None), w);
|}.

(** Doctor D of the specification's example: Tuesdays 11:00 to 13:00. *)
Definition doctor_D : Doctor :=
  {| doctor_id := "D"; d_name := "Dr D"; d_email := Some "d@clinic.example";
     d_location := None; calendar_id := "cal-D";
     weekly_schedule := {[ "Tue" := ["11:00-13:00"] ]} |}.

(** Tuesday 2025-01-07 as an ordinal, and a time of day on it. *)
Definition TUESDAY : Z := 739258.
Definition at_ (day hh mm : Z) : Z := combine day (hh * HOUR + mm * MINUTE).

(** A world on the day before, the calendar holding one busy interval,
    12:00 to 12:30 on the Tuesday. *)
Definition monday_noon : Fake :=
  {| fk_now := at_ (TUESDAY - 1) 12 0; fk_credentials := true; fk_freebusy_up := true;
     fk_busy := [(at_ TUESDAY 12 0, at_ TUESDAY 12 30)]; fk_events := [] |}.

Definition with_now (w : Fake) (now : Z) : Fake :=
  {| fk_now := now; fk_credentials := fk_credentials w;
     fk_freebusy_up := fk_freebusy_up w; fk_busy := fk_busy w; fk_events := fk_events w |}.

Definition with_busy (w : Fake) (busy : list (Z * Z)) : Fake :=
  {| fk_now := fk_now w; fk_credentials := fk_credentials w;
     fk_freebusy_up := fk_freebusy_up w; fk_busy := busy; fk_events := fk_events w |}.

Definition provider_down (w : Fake) : Fake :=
  {| fk_now := fk_now w; fk_credentials := fk_credentials w;
     fk_freebusy_up := false; fk_busy := fk_busy w; fk_events := fk_events w |}.

(** A request for doctor D by a patient with a well-formed email. *)
Definition request (start_local end_local : Z) : BookRequest :=
  {| b_doctor_id := "D"; b_start := Some start_local; b_end := Some end_local;
     patient_name := "Pat"; patient_email := "pat@example.org";
     patient_phone := None; patient_age := None; patient_sex := None;
     visit_mode := None; condition := None;
     send_invitations := false; create_meet := false |}.

#[global] Instance overlap_dec (a b : Z * Z) : Decision (overlap a b).
Proof. unfold overlap. destruct (Z_gt_dec a.2 b.1); [apply _|]. right. tauto. Defined.

#[global] Instance before_cutoff_dec is_today cutoff c :
  Decision (before_cutoff is_today cutoff c).
Proof. unfold before_cutoff. apply _. Defined.

(** No slot of the list overlaps a later one. *)
Fixpoint disjoint_list (l : list (Z * Z)) : Prop :=
  match l with
  | [] => True
  | c :: rest => Forall (λ c', ¬ overlap c c') rest ∧ disjoint_list rest
  end.

(** The slot passes both tests of the loop that fills [free_slots]. *)
Definition reported (is_today : bool) (cutoff : Z) (busy_list : list (Z * Z))
    (c : Z * Z) : Prop :=
  ¬ before_cutoff is_today cutoff c ∧ Forall (λ b, ¬ overlap c b) busy_list.

#[global] Instance reported_dec is_today cutoff busy_list c :
  Decision (reported is_today cutoff busy_list c).
Proof. unfold reported. apply _. Defined.

(** The same calendar read on the Tuesday itself at 11:45. *)
Definition tuesday_1145 : Fake := with_now monday_noon (at_ TUESDAY 11 45).

(** The Tuesday window of doctor D cut in half-hours. *)
Definition half_hours_D : list (Z * Z) :=
  [ (at_ TUESDAY 11 0, at_ TUESDAY 11 30); (at_ TUESDAY 11 30, at_ TUESDAY 12 0);
    (at_ TUESDAY 12 0, at_ TUESDAY 12 30); (at_ TUESDAY 12 30, at_ TUESDAY 13 0) ].

(** The provider failing on the Monday, and the Tuesday window fully taken. *)
Definition down_monday : Fake := provider_down monday_noon.
Definition booked_monday : Fake :=
  with_busy monday_noon [(at_ TUESDAY 11 0, at_ TUESDAY 13 0)].
Definition idle_down_monday : Fake := provider_down (with_busy monday_noon []).

(** A booking request that passes the checks made before the schedule
    check: known doctor, well-formed times with the end after the start, an
    acceptable email, and, the clock reading [now] (the world moving from
    [w] to [w1]), a start not before [now] plus the lead time. *)
Definition passes_early_checks {W : Type} `{!World W}
    (MIN_LEAD_MINUTES : Z) (DB : list Doctor)
    (req : BookRequest) (doctor : Doctor) (s e now : Z) (w w1 : W) : Prop :=
  _find_doctor DB (b_doctor_id req) = Some doctor ∧
  b_start req = Some s ∧ b_end req = Some e ∧ s < e ∧
  valid_email (patient_email req) = true ∧
  datetime_now w = (now, w1) ∧
  now + timedelta_minutes MIN_LEAD_MINUTES ≤ s.


(** The event a booking by the patient of [request] leaves in the calendar,
    and a world that holds it. *)
Definition patient_event : Event :=
  {| ev_id := "evt0"; ev_htmlLink := Some "https://calendar.example/evt0";
     ev_summary := "Consultation: Dr D ↔ Pat";
     ev_description := Some "Patient: Pat <pat@example.org>";
     ev_start := DateTime (at_ TUESDAY 11 0); ev_end := DateTime (at_ TUESDAY 11 30);
     ev_attendees := []; ev_location := None; ev_conferenceData := false |}.

Definition monday_with_event : Fake :=
  {| fk_now := at_ (TUESDAY - 1) 12 0; fk_credentials := true; fk_freebusy_up := true;
     fk_busy := [(at_ TUESDAY 11 0, at_ TUESDAY 11 30)]; fk_events := [patient_event] |}.







(** The fully taken Tuesday looked at from the Wednesday after. *)
Definition wednesday_after : Fake := with_now booked_monday (at_ (TUESDAY + 1) 12 0).




(** ** The rest of the directory tools *)

(** The test of [doctor_lookup_by_name] and [doctor_weekly_availability] on
    one directory entry: [name_lower in doc_name or doc_name in name_lower]. *)
Definition name_matches (name_lower : string) (d : Doctor) : bool :=
  let doc_name := strip (lower (d_name d)) in
  (str_in name_lower doc_name || str_in doc_name name_lower)%bool.

(** The [for d in DB.get("doctors", [])] loop both tools run: the first
    entry that passes the test. *)
Fixpoint first_by_name (DB : list Doctor) (name_lower : string) : option Doctor :=
  match DB with
  | [] => None
  | d :: rest => if name_matches name_lower d then Some d else first_by_name rest name_lower
  end.

(** [doctor_lookup_by_name]; the answer is the entry found, of which the
    tool returns the listed keys. *)
Definition doctor_lookup_by_name (DB : list Doctor) (doctor_name : string) : option Doctor :=
  let name_lower := strip (lower doctor_name) in
  first_by_name DB name_lower.

(** The [warning] text that goes with each code in
    [_compute_free_slots_for_date]. *)
Definition warning_text (code : MetaCode) : string :=
  match code with
  | invalid_date => "Invalid date format"
  | no_schedule => "No clinic hours for this day"
  | freebusy_error => "Calendar free/busy query failed"
  | no_future_slots | fully_booked => "No available slots for the selected day"
  end.

(** [strftime("%A")]. *)
Definition strftime_A (day : Z) : string :=
  match weekday day with
  | 0 => "Monday" | 1 => "Tuesday" | 2 => "Wednesday" | 3 => "Thursday"
  | 4 => "Friday" | 5 => "Saturday" | _ => "Sunday"
  end.

(** One day of the answer of [doctor_weekly_availability]. *)
Record DayAvailability := {
  da_day_name : string;
  da_slots : list string;
  da_routine_hours : list string;
  da_warning : option string;
}.

Inductive WeeklyResponse :=
| WeeklyError (msg : string)
| Weekly (doctor : Doctor) (days : gmap Z DayAvailability).

Definition ERR_DOCTOR_NOT_FOUND (doctor_name : string) : string :=
  "Doctor '" +:+ doctor_name +:+ "' not found".

Section Weekly.
Context {W : Type} `{!World W}.
Variable MIN_LEAD_MINUTES : Z.
Variable DB : list Doctor.

(** The [for i in range(days)] loop, [n] rounds being left and
    [check_date] the date [today + timedelta(days=i)] of the next one,
    which raises when it lies after the last day of the calendar. *)
Fixpoint weekly_loop (fuel : nat) (doctor : Doctor) (slot_minutes : Z)
    (n : nat) (check_date : Z) (result_map : gmap Z DayAvailability)
    : M W (outcome (gmap Z DayAvailability)) :=
  match n with
  | O => ret (Returned result_map)
  | S n' =>
      if negb (date_fits check_date) then ret (Raised OverflowError)
      else
        do r <~
          _compute_free_slots_for_date MIN_LEAD_MINUTES fuel doctor
            (IsoDate check_date) slot_minutes;
        match r with
        | Raised exc => ret (Raised exc)
        | Returned (slots, meta) =>
            let entry :=
              {| da_day_name := strftime_A check_date;
                 da_slots := slots;
                 da_routine_hours :=
                   default [] (weekly_schedule doctor !! strftime_a check_date);
                 da_warning := warning_text <$> meta |} in
            weekly_loop fuel doctor slot_minutes n' (check_date + 1)
              (<[check_date := entry]> result_map)
        end
  end.

Definition doctor_weekly_availability (fuel : nat) (doctor_name : string)
    (days slot_minutes : Z) : M W (outcome WeeklyResponse) :=
  let name_lower := strip (lower doctor_name) in
  match first_by_name DB name_lower with
  | None => ret (Returned (WeeklyError (ERR_DOCTOR_NOT_FOUND doctor_name)))
  | Some doctor =>
      do now_local <~ call datetime_now;
      let today := date_of now_local in
      do r <~ weekly_loop fuel doctor slot_minutes (Z.to_nat days) today ∅;
      match r with
      | Raised exc => ret (Raised exc)
      | Returned result_map => ret (Returned (Weekly doctor result_map))
      end
  end.
End Weekly.

(** ** The client's date phrases (client.py) *)



Section Client.
Context {W : Type} `{!World W}.
(** Whether [datetime.fromisoformat] accepts a text. *)
Variable fromisoformat_ok : string → bool.



End Client.

(** * Properties *)

(** ** Arithmetic of the clock *)

Lemma MINUTE_pos : 0 < MINUTE.
Proof. reflexivity. Qed.

Lemma DAY_minutes : DAY = 1440 * MINUTE.
Proof. reflexivity. Qed.

Lemma timedelta_minutes_pos m : 0 < m → MINUTE ≤ timedelta_minutes m.
Proof. unfold timedelta_minutes. pose proof MINUTE_pos. nia. Qed.

Lemma combine_diff day a b : combine day b - combine day a = b - a.
Proof. unfold combine. lia. Qed.

Lemma digit_of_range c d : digit_of c = Some d → 0 ≤ d ≤ 9.
Proof.
  unfold digit_of.
  destruct (_ && _)%bool eqn:E; [|discriminate].
  intros [= <-]. apply andb_true_iff in E as [E1 E2].
  apply Nat.leb_le in E1, E2. lia.
Qed.

Lemma _parse_time_range t v : _parse_time t = Some v → 0 ≤ v < DAY.
Proof.
  unfold _parse_time.
  destruct t as [|h1 [|h2 [|c3 t3]]]; try discriminate.
  destruct (Ascii.eqb_spec c3 ":") as [->|Hne].
  2:{ destruct c3 as [[] [] [] [] [] [] [] []]; try discriminate; congruence. }
  destruct t3 as [|m1 [|m2 [|]]]; try discriminate.
  destruct (digit_of h1) as [a|] eqn:Ea; [|discriminate].
  destruct (digit_of h2) as [b|] eqn:Eb; [|discriminate].
  destruct (digit_of m1) as [c|] eqn:Ec; [|discriminate].
  destruct (digit_of m2) as [d|] eqn:Ed; [|discriminate].
  cbn [mbind option_bind].
  destruct (_ && _)%bool eqn:E; [|discriminate].
  intros [= <-]. apply andb_true_iff in E as [E1 E2].
  apply Z.ltb_lt in E1, E2.
  apply digit_of_range in Ea, Eb, Ec, Ed.
  rewrite DAY_minutes. unfold HOUR. pose proof MINUTE_pos. nia.
Qed.

Lemma parse_window_range win s e :
  parse_window win = Some (s, e) → (0 ≤ s < DAY) ∧ (0 ≤ e < DAY).
Proof.
  unfold parse_window.
  destruct (split "-" win) as [|a [|b [|]]]; try discriminate.
  destruct (_parse_time a) as [x|] eqn:Ea; [|discriminate].
  destruct (_parse_time b) as [y|] eqn:Eb; [|discriminate].
  intros [= <- <-]. split; eapply _parse_time_range; eauto.
Qed.

(** ** The ends of the calendar *)

Ltac calendar_numbers :=
  unfold date_fits, datetime_fits, timedelta_fits, DATETIME_MIN, DATETIME_MAX,
    DATE_MIN, DATE_MAX, TIMEDELTA_MAX_DAYS, DAY, HOUR, MINUTE in *.

Lemma add_timedelta_returned dt delta next :
  add_timedelta dt delta = Returned next →
  next = dt + delta ∧ DATETIME_MIN ≤ dt + delta ≤ DATETIME_MAX.
Proof.
  unfold add_timedelta.
  destruct (timedelta_fits delta); cbn [andb]; [|discriminate].
  destruct (datetime_fits (dt + delta)) eqn:E; [|discriminate].
  intros [= <-]. split; [done|]. unfold datetime_fits in E.
  apply andb_true_iff in E as [E1 E2]. apply Z.leb_le in E1, E2. done.
Qed.

Lemma add_timedelta_raised dt delta exc :
  add_timedelta dt delta = Raised exc → exc = OverflowError.
Proof.
  unfold add_timedelta. destruct (_ && _)%bool; [discriminate|]. by intros [= <-].
Qed.

(** A step forward that stays in the calendar is made. *)
Lemma add_timedelta_forward dt delta :
  0 < delta → DATETIME_MIN ≤ dt → dt + delta ≤ DATETIME_MAX →
  add_timedelta dt delta = Returned (dt + delta).
Proof.
  intros Hpos Hmin Hmax. unfold add_timedelta.
  assert (timedelta_fits delta = true) as ->.
  { calendar_numbers. apply andb_true_iff. split; [apply Z.leb_le|apply Z.ltb_lt]; lia. }
  assert (datetime_fits (dt + delta) = true) as ->; [|done].
  unfold datetime_fits. apply andb_true_iff. split; apply Z.leb_le; lia.
Qed.

(** A step of no length stays where it is. *)
Lemma add_timedelta_zero dt :
  DATETIME_MIN ≤ dt ≤ DATETIME_MAX → add_timedelta dt 0 = Returned dt.
Proof.
  intros [Hmin Hmax]. unfold add_timedelta. rewrite Z.add_0_r.
  assert (datetime_fits dt = true) as ->; [|done].
  unfold datetime_fits. apply andb_true_iff. split; apply Z.leb_le; lia.
Qed.

(** A date in the calendar at a time of day is an instant in it. *)
Lemma combine_fits day t :
  DATE_MIN ≤ day ≤ DATE_MAX → 0 ≤ t < DAY → DATETIME_MIN ≤ combine day t ≤ DATETIME_MAX.
Proof. unfold combine. calendar_numbers. lia. Qed.

(** ** The tiling loop *)

Lemma tile_more_fuel fuel fuel' cursor step end_local r :
  (fuel ≤ fuel')%nat →
  tile fuel cursor step end_local = Some r →
  tile fuel' cursor step end_local = Some r.
Proof.
  revert fuel' cursor r.
  induction fuel as [|fuel IH]; intros fuel' cursor r Hle; [discriminate|].
  destruct fuel' as [|fuel']; [lia|]. cbn [tile].
  destruct (add_timedelta cursor step) as [next|exc]; [|done].
  destruct (next <=? end_local); [|done].
  destruct (tile fuel next step end_local) as [r0|] eqn:E; [|discriminate].
  rewrite (IH fuel' _ r0); [done|lia|done].
Qed.

Lemma tiles_count_step cursor step end_local :
  0 < step → cursor + step ≤ end_local →
  Z.to_nat ((end_local - cursor) / step)
  = S (Z.to_nat ((end_local - (cursor + step)) / step)).
Proof.
  intros Hstep Hle.
  assert (Hdiv : (end_local - cursor) / step = (end_local - (cursor + step)) / step + 1).
  { replace (end_local - cursor) with ((end_local - (cursor + step)) + 1 * step) by lia.
    rewrite Z.div_add by lia. lia. }
  assert (0 ≤ (end_local - (cursor + step)) / step) by (apply Z.div_pos; lia).
  rewrite Hdiv, Z2Nat.inj_add by lia. lia.
Qed.

Lemma tiles_count_zero cursor step end_local :
  0 < step → end_local < cursor + step →
  Z.to_nat ((end_local - cursor) / step) = O.
Proof.
  intros Hstep Hgt.
  assert ((end_local - cursor) / step ≤ 0); [|lia].
  destruct (Z.le_gt_cases 0 (end_local - cursor)).
  - rewrite Z.div_small; lia.
  - assert ((end_local - cursor) / step < 0) by (apply Z.div_lt_upper_bound; lia). lia.
Qed.

(** With a positive step, what the loop returns is the closed form, and it
    is returned whenever there is fuel for one round more than it has
    slots. *)
Lemma tile_returned step : 0 < step →
  ∀ (fuel : nat) cursor end_local l,
    tile fuel cursor step end_local = Some (Returned l) →
    l = tiles (Z.to_nat ((end_local - cursor) / step)) cursor step ∧
    ∀ fuel' : nat, (Z.to_nat ((end_local - cursor) / step) < fuel')%nat →
      tile fuel' cursor step end_local = Some (Returned l).
Proof.
  intros Hstep fuel.
  induction fuel as [|fuel IH]; intros cursor end_local l Hrun; [discriminate|].
  cbn [tile] in Hrun.
  destruct (add_timedelta cursor step) as [next|exc] eqn:Ea; [|discriminate].
  destruct (add_timedelta_returned _ _ _ Ea) as [-> _].
  destruct (Z.leb_spec (cursor + step) end_local) as [Hle|Hgt].
  - destruct (tile fuel (cursor + step) step end_local) as [[rest|exc]|] eqn:E;
      try discriminate.
    injection Hrun as <-. destruct (IH _ _ _ E) as [-> Hmore].
    rewrite (tiles_count_step cursor step end_local) by done.
    split; [reflexivity|]. intros [|fuel'] Hfuel; [lia|]. cbn [tile]. rewrite Ea.
    destruct (Z.leb_spec (cursor + step) end_local); [|lia].
    rewrite Hmore by lia. reflexivity.
  - injection Hrun as <-. rewrite tiles_count_zero by done.
    split; [reflexivity|]. intros [|fuel'] Hfuel; [lia|]. cbn [tile]. rewrite Ea.
    destruct (Z.leb_spec (cursor + step) end_local); [lia|done].
Qed.

(** With a positive step and a window whose end, a step later, is still in
    the calendar, the loop ends and returns the closed form. *)
Lemma tile_tiles step : 0 < step →
  ∀ (fuel : nat) cursor end_local,
    DATETIME_MIN ≤ cursor → cursor + step ≤ DATETIME_MAX →
    end_local + step ≤ DATETIME_MAX →
    (Z.to_nat ((end_local - cursor) / step) < fuel)%nat →
    tile fuel cursor step end_local
    = Some (Returned (tiles (Z.to_nat ((end_local - cursor) / step)) cursor step)).
Proof.
  intros Hstep fuel.
  induction fuel as [|fuel IH]; intros cursor end_local Hmin Hmax Hend Hfuel; [lia|].
  cbn [tile]. rewrite add_timedelta_forward by done.
  destruct (Z.leb_spec (cursor + step) end_local) as [Hle|Hgt].
  - rewrite (tiles_count_step cursor step end_local) in * by done.
    rewrite IH by lia. reflexivity.
  - rewrite tiles_count_zero by done. reflexivity.
Qed.

(** With a step that is not positive the loop never returns once entered. *)
Lemma tile_nonpositive_not_returned step : step ≤ 0 →
  ∀ (fuel : nat) cursor end_local l,
    cursor + step ≤ end_local →
    tile fuel cursor step end_local ≠ Some (Returned l).
Proof.
  intros Hstep fuel.
  induction fuel as [|fuel IH]; intros cursor end_local l Hle; [discriminate|].
  cbn [tile].
  destruct (add_timedelta cursor step) as [next|exc] eqn:Ea; [|discriminate].
  destruct (add_timedelta_returned _ _ _ Ea) as [-> _].
  destruct (Z.leb_spec (cursor + step) end_local); [|lia].
  destruct (tile fuel (cursor + step) step end_local) as [[rest|exc]|] eqn:E;
    [|discriminate|discriminate].
  exfalso. apply (IH (cursor + step) end_local rest); [lia|done].
Qed.

(** With a step of no length the loop never ends once entered. *)
Lemma tile_zero_diverges cursor end_local :
  DATETIME_MIN ≤ cursor ≤ DATETIME_MAX → cursor ≤ end_local →
  ∀ fuel, tile fuel cursor 0 end_local = None.
Proof.
  intros Hfits Hle fuel.
  induction fuel as [|fuel IH]; [reflexivity|].
  cbn [tile]. rewrite add_timedelta_zero by done.
  destruct (Z.leb_spec cursor end_local); [|lia]. by rewrite IH.
Qed.

Lemma tile_zero_never_raises cursor end_local (fuel : nat) exc :
  DATETIME_MIN ≤ cursor ≤ DATETIME_MAX →
  tile fuel cursor 0 end_local ≠ Some (Raised exc).
Proof.
  intros Hfits. destruct fuel as [|fuel]; [discriminate|].
  cbn [tile]. rewrite add_timedelta_zero by done.
  destruct (Z.leb_spec cursor end_local); [|discriminate].
  by rewrite tile_zero_diverges.
Qed.

(** With a step backwards the loop, once entered, walks back to the first
    year and raises there. *)
Lemma tile_negative_raises step : step < 0 →
  ∀ (fuel : nat) cursor end_local,
    cursor ≤ DATETIME_MAX → cursor + step ≤ end_local →
    (Z.to_nat (cursor - DATETIME_MIN) < fuel)%nat →
    tile fuel cursor step end_local = Some (Raised OverflowError).
Proof.
  intros Hstep fuel.
  induction fuel as [|fuel IH]; intros cursor end_local Hmax Hle Hfuel; [lia|].
  cbn [tile].
  destruct (add_timedelta cursor step) as [next|exc] eqn:Ea.
  - destruct (add_timedelta_returned _ _ _ Ea) as [-> [Hmin _]].
    destruct (Z.leb_spec (cursor + step) end_local); [|lia].
    rewrite IH; [done|lia|lia|lia].
  - by rewrite (add_timedelta_raised _ _ _ Ea).
Qed.

Lemma tile_negative_total step (fuel : nat) cursor end_local :
  step < 0 → cursor ≤ DATETIME_MAX →
  (Z.to_nat (cursor - DATETIME_MIN) < fuel)%nat →
  tile fuel cursor step end_local = Some (Raised OverflowError) ∨
  tile fuel cursor step end_local = Some (Returned []).
Proof.
  intros Hstep Hmax Hfuel.
  destruct (Z.le_gt_cases (cursor + step) end_local) as [Hle|Hgt].
  - left. by apply tile_negative_raises.
  - destruct fuel as [|fuel]; [lia|]. cbn [tile].
    destruct (add_timedelta cursor step) as [next|exc] eqn:Ea.
    + destruct (add_timedelta_returned _ _ _ Ea) as [-> _].
      destruct (Z.leb_spec (cursor + step) end_local); [lia|]. by right.
    + left. by rewrite (add_timedelta_raised _ _ _ Ea).
Qed.

Lemma elem_of_tiles n start step a b :
  (a, b) ∈ tiles n start step ↔
  ∃ k, 0 ≤ k < Z.of_nat n ∧ a = start + k * step ∧ b = a + step.
Proof.
  revert start. induction n as [|n IH]; intros start; cbn [tiles].
  - split; [intros H; inversion H | intros (k & ? & _); lia].
  - rewrite elem_of_cons, IH. split.
    + intros [[= -> ->] | (k & Hk & -> & ->)].
      * exists 0. lia.
      * exists (k + 1). lia.
    + intros (k & Hk & -> & ->).
      destruct (decide (k = 0)) as [->|Hne].
      * left. f_equal; lia.
      * right. exists (k - 1). lia.
Qed.

(** The number of slots of the closed form, read as a bound on the end. *)
Lemma tiles_count_bound start step end_local k :
  0 < step → 0 ≤ k →
  (k < Z.of_nat (Z.to_nat ((end_local - start) / step))
   ↔ start + k * step + step ≤ end_local).
Proof.
  intros Hstep Hk. split.
  - intros Hlt.
    assert (k + 1 ≤ (end_local - start) / step) by lia.
    assert (step * (k + 1) ≤ end_local - start).
    { etrans; [apply Z.mul_le_mono_nonneg_l; [lia|eassumption]|].
      apply Z.mul_div_le. lia. }
    lia.
  - intros Hle.
    assert (k + 1 ≤ (end_local - start) / step)
      by (apply Z.div_le_lower_bound; lia).
    lia.
Qed.

(** ** The window loop *)

Lemma candidates_cons day slot_minutes win rest :
  candidates day slot_minutes (win :: rest)
  = match parse_window win with
    | Some w =>
        tiles (Z.to_nat ((combine day w.2 - combine day w.1)
                         / timedelta_minutes slot_minutes))
              (combine day w.1) (timedelta_minutes slot_minutes)
        ++ candidates day slot_minutes rest
    | None => candidates day slot_minutes rest
    end.
Proof.
  unfold candidates, parsed_windows. cbn [omap list_omap].
  destruct (parse_window win); reflexivity.
Qed.

Lemma parsed_windows_cons win rest :
  parsed_windows (win :: rest)
  = match parse_window win with
    | Some w => w :: parsed_windows rest
    | None => parsed_windows rest
    end.
Proof. unfold parsed_windows. cbn [omap list_omap]. destruct (parse_window win); reflexivity. Qed.

(** A window of the directory holds fewer than 1440 slots of a minute or
    more, so 1441 rounds of the loop are always enough. *)
Lemma window_slots_bound day slot_minutes win s e :
  0 < slot_minutes → parse_window win = Some (s, e) →
  (Z.to_nat ((combine day e - combine day s) / timedelta_minutes slot_minutes) < 1441)%nat.
Proof.
  intros Hslot Hp. apply parse_window_range in Hp as [Hs He].
  rewrite combine_diff. pose proof (timedelta_minutes_pos _ Hslot) as Hstep.
  pose proof MINUTE_pos. rewrite DAY_minutes in *.
  assert ((e - s) / timedelta_minutes slot_minutes < 1441)
    by (apply Z.div_lt_upper_bound; nia).
  lia.
Qed.

Lemma window_step_more_fuel fuel fuel' day slot_minutes st win r :
  (fuel ≤ fuel')%nat →
  window_step fuel day slot_minutes st win = Some r →
  window_step fuel' day slot_minutes st win = Some r.
Proof.
  intros Hle. destruct st as [[acc e] l]. unfold window_step.
  destruct (parse_window win) as [[s t]|]; [|done].
  destruct (tile fuel _ _ _) as [new|] eqn:E; [|discriminate].
  by rewrite (tile_more_fuel fuel fuel' _ _ _ new Hle E).
Qed.

Lemma scan_windows_more_fuel fuel fuel' day slot_minutes windows st r :
  (fuel ≤ fuel')%nat →
  scan_windows fuel day slot_minutes windows st = Some r →
  scan_windows fuel' day slot_minutes windows st = Some r.
Proof.
  intros Hle. revert st. induction windows as [|win rest IH]; intros st; [done|].
  cbn [scan_windows].
  destruct (window_step fuel day slot_minutes st win) as [r1|] eqn:E; [|discriminate].
  rewrite (window_step_more_fuel fuel fuel' _ _ _ _ r1 Hle E).
  destruct r1 as [st1|exc]; [apply IH|done].
Qed.

(** For a positive slot length, whatever the window loop returns is the
    list of candidates in closed form, and it is returned with any fuel of
    1441 rounds or more. *)
Lemma scan_windows_returned day slot_minutes (fuel : nat) :
  0 < slot_minutes →
  ∀ windows acc earliest latest r earliest' latest',
    scan_windows fuel day slot_minutes windows (acc, earliest, latest)
    = Some (Returned (r, earliest', latest')) →
    r = acc ++ candidates day slot_minutes windows ∧
    (earliest' = None ↔ earliest = None ∧ parsed_windows windows = []) ∧
    (latest' = None ↔ latest = None ∧ parsed_windows windows = []) ∧
    ∀ fuel' : nat, (1441 ≤ fuel')%nat →
      scan_windows fuel' day slot_minutes windows (acc, earliest, latest)
      = Some (Returned (r, earliest', latest')).
Proof.
  intros Hslot windows.
  assert (Hstep : 0 < timedelta_minutes slot_minutes)
    by (pose proof (timedelta_minutes_pos _ Hslot); pose proof MINUTE_pos; lia).
  induction windows as [|win rest IH]; intros acc earliest latest r e' l' Hrun.
  - cbn in Hrun. injection Hrun as <- <- <-. cbn. rewrite app_nil_r.
    split; [done|]. split; [tauto|]. split; [tauto|done].
  - cbn [scan_windows window_step] in Hrun.
    rewrite candidates_cons, parsed_windows_cons.
    cbn [scan_windows window_step].
    destruct (parse_window win) as [[s e]|] eqn:Hp.
    + pose proof (window_slots_bound day slot_minutes win s e Hslot Hp) as Hb.
      destruct (tile fuel _ _ _) as [[new|exc]|] eqn:Et; try discriminate.
      destruct (tile_returned _ Hstep _ _ _ _ Et) as [-> Hmore].
      destruct (IH _ _ _ _ _ _ Hrun) as (-> & He & Hl & Hfuel).
      cbn [fst snd]. split; [by rewrite app_assoc|].
      split; [rewrite He; split; intros [? ?]; discriminate|].
      split; [rewrite Hl; split; intros [? ?]; discriminate|].
      intros fuel' Hfuel'. rewrite Hmore by lia. by apply Hfuel.
    + by apply IH.
Qed.

(** For a positive slot length on a date whose slots stay in the calendar
    the window loop ends and collects the candidates in closed form. *)
Lemma scan_windows_closed day slot_minutes (fuel : nat) :
  0 < slot_minutes → in_calendar day slot_minutes → (1441 ≤ fuel)%nat →
  ∀ windows acc earliest latest, ∃ earliest' latest',
    scan_windows fuel day slot_minutes windows (acc, earliest, latest)
    = Some (Returned (acc ++ candidates day slot_minutes windows, earliest', latest')) ∧
    (earliest' = None ↔ earliest = None ∧ parsed_windows windows = []) ∧
    (latest' = None ↔ latest = None ∧ parsed_windows windows = []).
Proof.
  intros Hslot [Hday Hcal] Hfuel windows.
  assert (Hstep : 0 < timedelta_minutes slot_minutes)
    by (pose proof (timedelta_minutes_pos _ Hslot); pose proof MINUTE_pos; lia).
  induction windows as [|win rest IH]; intros acc earliest latest.
  - exists earliest, latest. cbn. rewrite app_nil_r. tauto.
  - cbn [scan_windows window_step].
    rewrite candidates_cons, parsed_windows_cons.
    destruct (parse_window win) as [[s e]|] eqn:Hp.
    + pose proof (window_slots_bound day slot_minutes win s e Hslot Hp) as Hb.
      destruct (parse_window_range _ _ _ Hp) as [Hs He].
      cbn [fst snd].
      rewrite tile_tiles; [|done| | | |lia].
      * edestruct IH as (e' & l' & -> & He' & Hl').
        exists e', l'. rewrite app_assoc. split; [reflexivity|].
        split; [rewrite He' | rewrite Hl']; split; intros [? ?]; discriminate.
      * unfold combine in *. calendar_numbers. lia.
      * unfold combine in *. calendar_numbers. lia.
      * unfold combine in *. calendar_numbers. lia.
    + apply IH.
Qed.

(** With a slot length of zero or less the window loop does not return
    when some window parses and does not end before it starts. *)
Lemma scan_nonpositive_not_returned fuel day slot_minutes windows st win s t st' :
  slot_minutes ≤ 0 → win ∈ windows → parse_window win = Some (s, t) → s ≤ t →
  scan_windows fuel day slot_minutes windows st ≠ Some (Returned st').
Proof.
  intros Hslot Hin Hp Hst. revert st.
  assert (Hstep : timedelta_minutes slot_minutes ≤ 0)
    by (unfold timedelta_minutes; pose proof MINUTE_pos; nia).
  induction windows as [|win' rest IH]; intros st; [inversion Hin|].
  cbn [scan_windows]. apply elem_of_cons in Hin as [<-|Hin].
  - destruct st as [[acc e] l]. unfold window_step. rewrite Hp.
    destruct (tile fuel _ _ _) as [[new|exc]|] eqn:Et; [|discriminate|discriminate].
    exfalso. revert Et. apply tile_nonpositive_not_returned; [done|].
    unfold combine. lia.
  - destruct (window_step fuel day slot_minutes st win') as [[st1|exc]|];
      [by apply IH|discriminate|discriminate].
Qed.

(** With a slot length of zero the window loop never ends. *)
Lemma scan_windows_diverges fuel day windows st win s t :
  DATE_MIN ≤ day ≤ DATE_MAX →
  win ∈ windows → parse_window win = Some (s, t) → s ≤ t →
  scan_windows fuel day 0 windows st = None.
Proof.
  intros Hday Hin Hp Hst. revert st.
  induction windows as [|win' rest IH]; intros st; [inversion Hin|].
  cbn [scan_windows]. apply elem_of_cons in Hin as [<-|Hin].
  - destruct st as [[acc e] l]. unfold window_step. rewrite Hp.
    destruct (parse_window_range _ _ _ Hp) as [Hs Ht].
    change (timedelta_minutes 0) with 0.
    rewrite tile_zero_diverges; [done| |unfold combine; lia].
    by apply combine_fits.
  - destruct st as [[acc e] l]. unfold window_step.
    destruct (parse_window win') as [[s' t']|] eqn:Hp'; [|by apply IH].
    destruct (parse_window_range _ _ _ Hp') as [Hs' Ht'].
    change (timedelta_minutes 0) with 0.
    destruct (tile fuel _ 0 _) as [[new|exc]|] eqn:Et; [by apply IH| |done].
    exfalso. revert Et. apply tile_zero_never_raises. by apply combine_fits.
Qed.

(** With a negative slot length the window loop ends by raising, once
    there is fuel to walk from the date back to the first year. *)
Lemma scan_windows_negative_raises (fuel : nat) day slot_minutes windows st win s t :
  slot_minutes < 0 → DATE_MIN ≤ day ≤ DATE_MAX →
  win ∈ windows → parse_window win = Some (s, t) → s ≤ t →
  (Z.to_nat (DATETIME_MAX - DATETIME_MIN) < fuel)%nat →
  scan_windows fuel day slot_minutes windows st = Some (Raised OverflowError).
Proof.
  intros Hslot Hday Hin Hp Hst Hfuel. revert st.
  assert (Hstep : timedelta_minutes slot_minutes < 0)
    by (unfold timedelta_minutes; pose proof MINUTE_pos; nia).
  induction windows as [|win' rest IH]; intros st; [inversion Hin|].
  cbn [scan_windows]. apply elem_of_cons in Hin as [<-|Hin].
  - destruct st as [[acc e] l]. unfold window_step. rewrite Hp.
    destruct (parse_window_range _ _ _ Hp) as [Hs Ht].
    pose proof (combine_fits day s Hday Hs) as [Hmin Hmax].
    rewrite tile_negative_raises; [done|done|done|unfold combine; lia|lia].
  - destruct st as [[acc e] l]. unfold window_step.
    destruct (parse_window win') as [[s' t']|] eqn:Hp'; [|by apply IH].
    destruct (parse_window_range _ _ _ Hp') as [Hs' Ht'].
    pose proof (combine_fits day s' Hday Hs') as [Hmin Hmax].
    destruct (tile_negative_total (timedelta_minutes slot_minutes) fuel
                (combine day s') (combine day t') Hstep Hmax ltac:(lia)) as [->| ->];
      [done|by apply IH].
Qed.

Lemma elem_of_candidates day slot_minutes windows a b :
  0 < slot_minutes →
  (a, b) ∈ candidates day slot_minutes windows ↔
  ∃ w k, w ∈ parsed_windows windows ∧ 0 ≤ k ∧
         a = combine day w.1 + k * timedelta_minutes slot_minutes ∧
         b = a + timedelta_minutes slot_minutes ∧
         b ≤ combine day w.2.
Proof.
  intros Hslot. pose proof (timedelta_minutes_pos _ Hslot) as Hstep.
  pose proof MINUTE_pos as HM.
  induction windows as [|win rest IH].
  - cbn. split; [intros H; inversion H|intros (w & k & H & _); inversion H].
  - rewrite candidates_cons, parsed_windows_cons.
    destruct (parse_window win) as [w0|].
    + rewrite elem_of_app, elem_of_tiles, IH. split.
      * intros [(k & [Hk0 Hk] & -> & ->) | (w & k & Hw & Hrest)].
        -- exists w0, k. split; [left|].
           split; [lia|]. split; [done|]. split; [done|].
           apply tiles_count_bound in Hk; lia.
        -- exists w, k. split; [by right|done].
      * intros (w & k & Hw & Hk & -> & -> & Hle).
        apply elem_of_cons in Hw as [->|Hw].
        -- left. exists k. split; [|done]. split; [done|].
           apply tiles_count_bound; lia.
        -- right. exists w, k. done.
    + apply IH.
Qed.

Section EngineFacts.
Context {W : Type} `{!World W}.
Variable MIN_LEAD_MINUTES : Z.
Variable DB : list Doctor.

(** The free/busy helper always comes back, with a list or an error. *)
Lemma freebusy_returns (doctor : Doctor) (time_min time_max : Z) (w : W) :
  ∃ fb w1, freebusy doctor time_min time_max w = Some (fb, w1).
Proof.
  unfold freebusy, bind, call, ret.
  destruct (_google_service w) as [[[]|e] w0]; [|eauto].
  destruct (freebusy_query (calendar_id doctor) time_min time_max w0) as [fb w1].
  eauto.
Qed.

(** What [_compute_free_slots_for_date] does on a day without windows. *)
Lemma compute_no_windows fuel doctor day slot_minutes (w : W) :
  default [] (weekly_schedule doctor !! strftime_a day) = [] →
  _compute_free_slots_for_date MIN_LEAD_MINUTES fuel doctor (IsoDate day) slot_minutes w
  = Some (Returned ([], Some no_schedule), w).
Proof.
  intros Hw. unfold _compute_free_slots_for_date. cbn [fromisoformat_date].
  rewrite Hw. reflexivity.
Qed.

(** What it does when the window loop raises: nothing more. *)
Lemma compute_raises fuel doctor day slot_minutes exc (w : W) :
  scan_windows fuel day slot_minutes
    (default [] (weekly_schedule doctor !! strftime_a day)) ([], None, None)
  = Some (Raised exc) →
  _compute_free_slots_for_date MIN_LEAD_MINUTES fuel doctor (IsoDate day) slot_minutes w
  = Some (Raised exc, w).
Proof.
  intros Hscan. unfold _compute_free_slots_for_date. cbn [fromisoformat_date].
  destruct (default [] (weekly_schedule doctor !! strftime_a day)) as [|w0 ws];
    [discriminate Hscan|].
  rewrite Hscan. reflexivity.
Qed.

(** What it does when the window loop never ends: nothing, for ever. *)
Lemma compute_diverges fuel doctor day slot_minutes (w : W) :
  scan_windows fuel day slot_minutes
    (default [] (weekly_schedule doctor !! strftime_a day)) ([], None, None)
  = None →
  _compute_free_slots_for_date MIN_LEAD_MINUTES fuel doctor (IsoDate day) slot_minutes w
  = None.
Proof.
  intros Hscan. unfold _compute_free_slots_for_date. cbn [fromisoformat_date].
  destruct (default [] (weekly_schedule doctor !! strftime_a day)) as [|w0 ws];
    [discriminate Hscan|].
  rewrite Hscan. reflexivity.
Qed.

(** What it does once the window loop has produced candidates and an
    envelope: one free/busy query over the envelope, one reading of the
    clock, the filter. *)
Lemma compute_with_candidates fuel doctor day slot_minutes
    slot_ranges earliest latest (w : W) :
  scan_windows fuel day slot_minutes
    (default [] (weekly_schedule doctor !! strftime_a day)) ([], None, None)
  = Some (Returned (slot_ranges, Some earliest, Some latest)) →
  _compute_free_slots_for_date MIN_LEAD_MINUTES fuel doctor (IsoDate day) slot_minutes w
  = match freebusy doctor earliest latest w with
    | None => None
    | Some (Raised _, w1) => Some (Returned ([], Some freebusy_error), w1)
    | Some (Returned busy_list, w1) =>
        let now_local := (datetime_now w1).1 in
        let is_today := day =? date_of now_local in
        let cutoff := now_local + timedelta_minutes MIN_LEAD_MINUTES in
        let free_slots := free_slots_loop is_today cutoff busy_list slot_ranges in
        Some (Returned
                (free_slots,
                 match free_slots with
                 | [] => Some (if negb (any_future_candidates is_today cutoff slot_ranges)
                               then no_future_slots else fully_booked)
                 | _ :: _ => None
                 end), (datetime_now w1).2)
    end.
Proof.
  intros Hscan. unfold _compute_free_slots_for_date. cbn [fromisoformat_date].
  destruct (default [] (weekly_schedule doctor !! strftime_a day)) as [|w0 ws] eqn:Hw;
    [discriminate Hscan|].
  rewrite Hscan. unfold bind at 1.
  destruct (freebusy doctor earliest latest w) as [[[busy|e] w1]|]; [|done|done].
  unfold bind, call, ret. destruct (datetime_now w1) as [now w2]. cbn [fst snd].
  destruct (free_slots_loop _ _ _ _); reflexivity.
Qed.

(** What it does when windows are configured and none of them parses. *)
Lemma compute_no_envelope fuel doctor day slot_minutes slot_ranges (w : W) :
  scan_windows fuel day slot_minutes
    (default [] (weekly_schedule doctor !! strftime_a day)) ([], None, None)
  = Some (Returned (slot_ranges, None, None)) →
  _compute_free_slots_for_date MIN_LEAD_MINUTES fuel doctor (IsoDate day) slot_minutes w
  = Some (Returned ([], Some no_schedule), w).
Proof.
  intros Hscan. unfold _compute_free_slots_for_date. cbn [fromisoformat_date].
  destruct (default [] (weekly_schedule doctor !! strftime_a day)) as [|w0 ws] eqn:Hw;
    [done|].
  rewrite Hscan. reflexivity.
Qed.

(** The envelope of a returned window loop: both ends or none. *)
Lemma scan_envelope fuel day slot_minutes windows r earliest latest :
  0 < slot_minutes →
  scan_windows fuel day slot_minutes windows ([], None, None)
  = Some (Returned (r, earliest, latest)) →
  (parsed_windows windows = [] ∧ earliest = None ∧ latest = None) ∨
  (parsed_windows windows ≠ [] ∧ ∃ e l, earliest = Some e ∧ latest = Some l).
Proof.
  intros Hslot Hscan.
  destruct (scan_windows_returned day slot_minutes fuel Hslot _ _ _ _ _ _ _ Hscan)
    as (_ & He & Hl & _).
  destruct (decide (parsed_windows windows = [])) as [Hp|Hp].
  - left. split; [done|]. split; [by apply He|by apply Hl].
  - right. split; [done|].
    destruct earliest as [e|]; [|destruct He as [He _]; by destruct (He eq_refl)].
    destruct latest as [l|]; [|destruct Hl as [Hl _]; by destruct (Hl eq_refl)].
    eauto.
Qed.

(** With a positive slot length, a date whose slots stay in the calendar
    and fuel for a day's worth of minutes, the computation of a day's free
    slots always comes back with an answer. *)
Lemma compute_returns fuel doctor day slot_minutes (w : W) :
  0 < slot_minutes → in_calendar day slot_minutes → (1441 ≤ fuel)%nat →
  ∃ r w', _compute_free_slots_for_date MIN_LEAD_MINUTES fuel doctor (IsoDate day)
            slot_minutes w
          = Some (Returned r, w').
Proof.
  intros Hslot Hcal Hfuel.
  destruct (scan_windows_closed day slot_minutes fuel Hslot Hcal Hfuel
              (default [] (weekly_schedule doctor !! strftime_a day)) [] None None)
    as (e & l & Hscan & _).
  destruct (scan_envelope _ _ _ _ _ _ _ Hslot Hscan)
    as [(_ & -> & ->)|(_ & e0 & l0 & -> & ->)].
  - eexists _, _. by eapply compute_no_envelope.
  - erewrite compute_with_candidates by exact Hscan.
    destruct (freebusy_returns doctor e0 l0 w) as ([busy|msg] & w1 & ->); eauto.
Qed.
End EngineFacts.

(** ** Candidates stay inside their window and apart from each other *)

Lemma overlap_sym a b : overlap a b → overlap b a.
Proof. unfold overlap. lia. Qed.

Lemma disjoint_list_app l1 l2 :
  disjoint_list l1 → disjoint_list l2 →
  (∀ c1 c2, c1 ∈ l1 → c2 ∈ l2 → ¬ overlap c1 c2) →
  disjoint_list (l1 ++ l2).
Proof.
  induction l1 as [|c l1 IH]; intros H1 H2 H12; [done|].
  destruct H1 as [Hc H1]. cbn. split.
  - apply Forall_app. split; [done|].
    apply Forall_forall. intros c2 Hc2. apply H12; [left|done].
  - apply IH; [done|done|]. intros c1 c2 Hc1 Hc2. apply H12; [by right|done].
Qed.

Lemma disjoint_list_tiles n start step : 0 < step → disjoint_list (tiles n start step).
Proof.
  intros Hstep. revert start. induction n as [|n IH]; intros start; [done|].
  cbn. split; [|apply IH].
  apply Forall_forall. intros [a b] Hin.
  apply elem_of_tiles in Hin as (k & Hk & -> & ->).
  unfold overlap. cbn. nia.
Qed.

Lemma disjoint_list_lookup_lt l :
  disjoint_list l →
  ∀ (i j : nat) c1 c2, (i < j)%nat → l !! i = Some c1 → l !! j = Some c2 → ¬ overlap c1 c2.
Proof.
  induction l as [|c l IH]; intros Hd i j c1 c2 Hij Hi Hj; [done|].
  destruct Hd as [Hc Hd]. destruct j as [|j]; [lia|]. cbn in Hj.
  destruct i as [|i]; cbn in Hi.
  - injection Hi as ->. rewrite Forall_forall in Hc. apply Hc.
    by eapply list_elem_of_lookup_2.
  - eapply (IH Hd i j); [lia|done|done].
Qed.

Lemma disjoint_list_lookup l :
  disjoint_list l →
  ∀ (i j : nat) c1 c2, i ≠ j → l !! i = Some c1 → l !! j = Some c2 → ¬ overlap c1 c2.
Proof.
  intros Hd i j c1 c2 Hij Hi Hj.
  destruct (Nat.lt_total i j) as [Hlt|[->|Hlt]]; [|done|].
  - by eapply (disjoint_list_lookup_lt l Hd i j).
  - intros Ho. apply overlap_sym in Ho. revert Ho.
    by eapply (disjoint_list_lookup_lt l Hd j i).
Qed.

Lemma windows_ok_cons w pw :
  windows_ok (w :: pw) →
  w.1 < w.2 ∧ (∀ w', w' ∈ pw → ¬ overlap w w') ∧ windows_ok pw.
Proof.
  intros [Hpos Hdis]. split; [apply Hpos; left|]. split.
  - intros w' Hin. apply list_elem_of_lookup in Hin as [j Hj].
    by apply (Hdis O (S j) w w').
  - split.
    + intros w' Hin. apply Hpos. by right.
    + intros i j w1 w2 Hij Hi Hj. apply (Hdis (S i) (S j) w1 w2); [lia|done|done].
Qed.

(** A candidate lies inside the window it was cut from and is not empty. *)
Lemma candidate_within day slot_minutes windows c :
  0 < slot_minutes →
  c ∈ candidates day slot_minutes windows →
  c.1 < c.2 ∧ ∃ w, w ∈ parsed_windows windows ∧ within day c w.
Proof.
  intros Hslot Hin. destruct c as [a b].
  apply elem_of_candidates in Hin as (w & k & Hw & Hk & -> & -> & Hle); [|done].
  pose proof (timedelta_minutes_pos _ Hslot). pose proof MINUTE_pos.
  cbn [fst snd]. split; [lia|]. exists w. split; [done|].
  unfold within. cbn [fst snd]. nia.
Qed.

(** Two slots inside windows that do not overlap do not overlap either. *)
Lemma within_apart day c1 c2 w1 w2 :
  within day c1 w1 → within day c2 w2 → ¬ overlap w1 w2 → ¬ overlap c1 c2.
Proof. unfold within, overlap, combine. lia. Qed.

Lemma candidates_disjoint day slot_minutes windows :
  0 < slot_minutes → windows_ok (parsed_windows windows) →
  disjoint_list (candidates day slot_minutes windows).
Proof.
  intros Hslot. pose proof (timedelta_minutes_pos _ Hslot). pose proof MINUTE_pos.
  induction windows as [|win rest IH]; intros Hok; [done|].
  rewrite candidates_cons. rewrite parsed_windows_cons in Hok.
  destruct (parse_window win) as [w0|] eqn:Hp; [|by apply IH].
  apply windows_ok_cons in Hok as (Hpos & Hapart & Hok).
  apply disjoint_list_app; [apply disjoint_list_tiles; lia|by apply IH|].
  intros c1 c2 Hc1 Hc2.
  apply candidate_within in Hc2 as (_ & w2 & Hw2 & Hin2); [|done].
  assert (c1 ∈ candidates day slot_minutes [win]) as Hc1'.
  { rewrite candidates_cons, Hp. cbn. by rewrite app_nil_r. }
  apply candidate_within in Hc1' as (_ & w1 & Hw1 & Hin1); [|done].
  rewrite parsed_windows_cons, Hp in Hw1. cbn in Hw1.
  apply list_elem_of_singleton in Hw1 as ->.
  eapply within_apart; [done|done|]. by apply Hapart.
Qed.

(** ** Busy intervals and the free list *)

Lemma overlaps_spec s e busy :
  _overlaps s e busy = false ↔ Forall (λ b, ¬ overlap (s, e) b) busy.
Proof.
  induction busy as [|[bs be] busy IH]; cbn [_overlaps].
  - split; [constructor|done].
  - rewrite Forall_cons, <- IH. unfold overlap. cbn [fst snd].
    destruct (Z.ltb_spec s be), (Z.ltb_spec bs e); cbn [andb];
      (split; [intros; split; [lia|done] | intros [? ?]; try done; lia]).
Qed.

Lemma overlaps_true s e busy :
  _overlaps s e busy = true ↔ ∃ b, b ∈ busy ∧ overlap (s, e) b.
Proof.
  split.
  - intros Ht. destruct (decide (Forall (λ b, ¬ overlap (s, e) b) busy)) as [Hf|Hf].
    + apply overlaps_spec in Hf. congruence.
    + apply not_Forall_Exists in Hf; [|apply _].
      apply Exists_exists in Hf as (b & Hb & Hnn). exists b. split; [done|].
      cbn in Hnn. by apply dec_stable.
  - intros (b & Hb & Ho). destruct (_overlaps s e busy) eqn:E; [done|].
    apply overlaps_spec in E. rewrite Forall_forall in E. by destruct (E b Hb).
Qed.

(** The loop that fills the free list keeps, in order, the start times of
    the candidates that pass both tests. *)
Lemma free_slots_loop_filter is_today cutoff busy slot_ranges :
  free_slots_loop is_today cutoff busy slot_ranges
  = (λ c : Z * Z, strftime_HM c.1) <$> filter (reported is_today cutoff busy) slot_ranges.
Proof.
  induction slot_ranges as [|[a b] rest IH]; [done|].
  cbn [free_slots_loop]. rewrite filter_cons.
  destruct (decide (reported is_today cutoff busy (a, b))) as [[Hcut Hfree]|Hno].
  - apply overlaps_spec in Hfree. rewrite Hfree. cbn [negb].
    destruct (is_today && (a <? cutoff))%bool eqn:E.
    + exfalso. apply Hcut. apply andb_true_iff in E as [-> E].
      apply Z.ltb_lt in E. by split.
    + by rewrite fmap_cons, IH.
  - destruct (is_today && (a <? cutoff))%bool eqn:E; [done|].
    destruct (_overlaps a b busy) eqn:Eo; [done|].
    exfalso. apply Hno. split.
    + intros [-> Hlt]. cbn in Hlt. apply Z.ltb_lt in Hlt. cbn in E. congruence.
    + by apply overlaps_spec.
Qed.

Lemma any_future_candidates_spec is_today cutoff slot_ranges :
  any_future_candidates is_today cutoff slot_ranges = true ↔
  ∃ c, c ∈ slot_ranges ∧ ¬ before_cutoff is_today cutoff c.
Proof.
  unfold any_future_candidates. rewrite existsb_exists.
  split; intros (c & Hc & Hf); exists c; (split; [by apply list_elem_of_In|]).
  - intros [-> Hlt]. cbn in Hf. apply Z.leb_le in Hf. lia.
  - unfold before_cutoff in Hf. destruct is_today; [|done]. cbn.
    apply Z.leb_le. destruct (Z.le_gt_cases cutoff c.1); [done|].
    exfalso. apply Hf. split; [done|lia].
Qed.

(** C9. For a doctor whose windows on a weekday end strictly after they
    start and do not overlap one another, whatever the generator produces
    for a date on that weekday is such that every candidate lies entirely
    within exactly one configured window and no two candidates (at
    different positions of the list) overlap; and for a positive slot
    length the generator does produce its list. *)
Theorem C9_candidates_in_one_window_no_overlap
    (doctor : Doctor) (day slot_minutes : Z) (fuel : nat)
    (slot_ranges : list (Z * Z)) (earliest latest : option Z) :
  let windows := default [] (weekly_schedule doctor !! strftime_a day) in
  windows_ok (parsed_windows windows) →
  scan_windows fuel day slot_minutes windows ([], None, None)
  = Some (Returned (slot_ranges, earliest, latest)) →
  (∀ c, c ∈ slot_ranges →
     ∃ (i : nat) w,
       parsed_windows windows !! i = Some w ∧ within day c w ∧
       ∀ (j : nat) w', parsed_windows windows !! j = Some w' → within day c w' → j = i) ∧
  (∀ (i j : nat) c1 c2,
     i ≠ j → slot_ranges !! i = Some c1 → slot_ranges !! j = Some c2 →
     ¬ overlap c1 c2) ∧
  (0 < slot_minutes →
   ∀ fuel' : nat, (1441 ≤ fuel')%nat →
     scan_windows fuel' day slot_minutes windows ([], None, None)
     = Some (Returned (slot_ranges, earliest, latest))).
Proof.
  intros windows Hok Hscan.
  destruct (Z.le_gt_cases slot_minutes 0) as [Hle|Hslot].
  - (* nothing can have been produced *)
    assert (parsed_windows windows = []) as Hnone.
    { destruct (parsed_windows windows) as [|[s t] pw] eqn:Hpw; [done|]. exfalso.
      assert ((s, t) ∈ parsed_windows windows) as Hin by (rewrite Hpw; left).
      apply list_elem_of_omap in Hin as (win & Hwin & Hp).
      destruct Hok as [Hpos _].
      specialize (Hpos (s, t) ltac:(left)). cbn in Hpos.
      revert Hscan.
      apply (scan_nonpositive_not_returned fuel day slot_minutes windows _ win s t);
        [done|done|done|lia]. }
    assert (slot_ranges = []) as ->.
    { clear Hok. revert Hscan Hnone. generalize (@nil (Z * Z)) at 1 3.
      generalize (@None Z) at 1. generalize (@None Z) at 1.
      induction windows as [|win rest IH]; intros l e acc Hscan Hnone.
      - cbn in Hscan. congruence.
      - rewrite parsed_windows_cons in Hnone. cbn [scan_windows window_step] in Hscan.
        destruct (parse_window win); [discriminate|].
        by eapply IH. }
    split; [intros c Hc; inversion Hc|]. split; [intros i j c1 c2 _ Hi; by destruct i|lia].
  - destruct (scan_windows_returned day slot_minutes fuel Hslot _ _ _ _ _ _ _ Hscan)
      as (-> & _ & _ & Hfuel).
    cbn [app]. split; [|split].
    + intros c Hc. apply candidate_within in Hc as (Hlt & w & Hw & Hin); [|done].
      apply list_elem_of_lookup in Hw as [i Hi].
      exists i, w. split; [done|]. split; [done|].
      intros j w' Hj Hin'. destruct (decide (j = i)) as [|Hne]; [done|].
      exfalso. destruct Hok as [_ Hdis].
      apply (Hdis j i w' w Hne Hj Hi).
      revert Hin Hin' Hlt. unfold within, overlap, combine. lia.
    + apply disjoint_list_lookup. by apply candidates_disjoint.
    + intros _ fuel' Hfuel'. by apply Hfuel.
Qed.

Lemma free_slots_loop_uncut is_today cutoff busy slot_ranges :
  (∀ c, c ∈ slot_ranges → ¬ before_cutoff is_today cutoff c) →
  free_slots_loop is_today cutoff busy slot_ranges
  = free_slots_loop false cutoff busy slot_ranges.
Proof.
  induction slot_ranges as [|[a b] rest IH]; intros Hall; [done|].
  cbn [free_slots_loop].
  rewrite IH by (intros c Hc; apply Hall; by right).
  destruct (is_today && (a <? cutoff))%bool eqn:E; [|done].
  exfalso. apply (Hall (a, b)); [left|].
  apply andb_true_iff in E as [-> E]. apply Z.ltb_lt in E. by split.
Qed.

Lemma scan_half_hours_D (fuel : nat) :
  (5 ≤ fuel)%nat →
  scan_windows fuel TUESDAY 30 ["11:00-13:00"] ([], None, None)
  = Some (Returned (half_hours_D, Some (at_ TUESDAY 11 0), Some (at_ TUESDAY 13 0))).
Proof.
  intros Hfuel. apply (scan_windows_more_fuel 5); [done|]. vm_compute. reflexivity.
Qed.

Section AvailabilityFacts.
Context {W : Type} `{!World W}.
Variable MIN_LEAD_MINUTES : Z.

(** What the resolver answers once the window loop has returned, on a
    world whose calls are known: the candidates that the lead-time rule does
    not drop and that overlap no busy interval, in candidate order. *)
Lemma compute_filters fuel doctor day slot_minutes slot_ranges earliest latest
    busy now (w w0 w1 w2 : W) :
  scan_windows fuel day slot_minutes
    (default [] (weekly_schedule doctor !! strftime_a day)) ([], None, None)
  = Some (Returned (slot_ranges, Some earliest, Some latest)) →
  _google_service w = (Returned (), w0) →
  freebusy_query (calendar_id doctor) earliest latest w0 = (Returned busy, w1) →
  datetime_now w1 = (now, w2) →
  ∃ meta,
    _compute_free_slots_for_date MIN_LEAD_MINUTES fuel doctor (IsoDate day) slot_minutes w
    = Some (Returned
              ((λ c : Z * Z, strftime_HM c.1)
                 <$> filter (reported (day =? date_of now)
                               (now + timedelta_minutes MIN_LEAD_MINUTES) busy)
                       slot_ranges,
               meta), w2).
Proof.
  intros Hscan Hsvc Hfb Hnow.
  erewrite compute_with_candidates by exact Hscan.
  unfold freebusy, bind, call, ret. rewrite Hsvc, Hfb, Hnow. cbn [fst snd]. cbv zeta.
  rewrite free_slots_loop_filter. eauto.
Qed.

(** C1, as amended. For a doctor, a date and a positive slot length such
    that the slots of the date stay in the calendar, the slot generator
    tiles every configured window of the date's weekday: with enough fuel
    the window loop ends, and a pair (a, b) is a candidate exactly when,
    for some window and some k >= 0, a is the window's start plus k slot
    lengths, b is a plus the slot length, and b is not after the window's
    end.  The computation of the day's free slots then comes back on every
    world with slots that are start times of these candidates; its code is
    [no_schedule] exactly when the weekday has no window that parses, in
    which case the list is empty and nothing outside was consulted, and a
    [fully_booked] day is one that has windows.  A weekday without windows
    is answered with the empty list and [no_schedule] whatever the slot
    length. *)
Theorem C1_slot_generator_tiles_windows
    (doctor : Doctor) (day slot_minutes : Z) (fuel : nat) :
  0 < slot_minutes → in_calendar day slot_minutes → (1441 ≤ fuel)%nat →
  let windows := default [] (weekly_schedule doctor !! strftime_a day) in
  let step := timedelta_minutes slot_minutes in
  (∃ slot_ranges earliest latest,
     scan_windows fuel day slot_minutes windows ([], None, None)
     = Some (Returned (slot_ranges, earliest, latest)) ∧
     (∀ a b, (a, b) ∈ slot_ranges ↔
             ∃ w k, w ∈ parsed_windows windows ∧ 0 ≤ k ∧
                    a = combine day w.1 + k * step ∧ b = a + step ∧
                    b ≤ combine day w.2) ∧
     ∀ w : W, ∃ slots meta w',
       _compute_free_slots_for_date MIN_LEAD_MINUTES fuel doctor (IsoDate day)
         slot_minutes w
       = Some (Returned (slots, meta), w') ∧
       (meta = Some no_schedule ↔ parsed_windows windows = []) ∧
       (parsed_windows windows = [] → slots = [] ∧ w' = w) ∧
       (meta = Some fully_booked → slots = [] ∧ parsed_windows windows ≠ []) ∧
       (∀ hm, hm ∈ slots → ∃ c, c ∈ slot_ranges ∧ hm = strftime_HM c.1)) ∧
  (windows = [] →
   ∀ (fuel' : nat) slot_minutes' (w : W),
     _compute_free_slots_for_date MIN_LEAD_MINUTES fuel' doctor (IsoDate day)
       slot_minutes' w
     = Some (Returned ([], Some no_schedule), w)).
Proof.
  intros Hslot Hcal Hfuel windows step.
  split; [|intros Hw fuel' slot' w; by apply compute_no_windows].
  destruct (scan_windows_closed day slot_minutes fuel Hslot Hcal Hfuel windows [] None None)
    as (e & l & Hscan & _).
  exists (candidates day slot_minutes windows), e, l. split; [exact Hscan|].
  split; [intros a b; by apply elem_of_candidates|].
  intros w.
  destruct (scan_envelope _ _ _ _ _ _ _ Hslot Hscan)
    as [(Hnone & -> & ->)|(Hsome & e0 & l0 & -> & ->)].
  - exists [], (Some no_schedule), w.
    split; [by eapply compute_no_envelope|]. split; [done|]. split; [done|].
    split; [discriminate|]. intros hm Hhm. inversion Hhm.
  - erewrite compute_with_candidates by exact Hscan.
    destruct (freebusy_returns doctor e0 l0 w) as ([busy|msg] & w1 & ->).
    + cbv zeta. destruct (datetime_now w1) as [now w2]. cbn [fst snd].
      set (is_today := day =? date_of now).
      set (cutoff := now + timedelta_minutes MIN_LEAD_MINUTES).
      eexists _, _, _. split; [reflexivity|].
      assert (Hsub : ∀ hm,
                hm ∈ free_slots_loop is_today cutoff busy
                       (candidates day slot_minutes windows) →
                ∃ c, c ∈ candidates day slot_minutes windows ∧ hm = strftime_HM c.1).
      { intros hm Hhm. rewrite free_slots_loop_filter in Hhm.
        apply list_elem_of_fmap in Hhm as (c & -> & Hc).
        apply list_elem_of_filter in Hc as [_ Hc]. eauto. }
      destruct (free_slots_loop is_today cutoff busy _) as [|hm free].
      * split; [split; [destruct (negb _); discriminate|done]|].
        split; [done|]. split; [done|]. exact Hsub.
      * split; [split; [discriminate|done]|].
        split; [done|]. split; [discriminate|]. exact Hsub.
    + exists [], (Some freebusy_error), w1. split; [reflexivity|].
      split; [split; [discriminate|done]|]. split; [done|].
      split; [discriminate|]. intros hm Hhm. inversion Hhm.
Qed.

(** C2, as amended. A slot overlaps the busy list, for the code, exactly
    when it meets some busy interval in the half-open sense; and once the
    window loop has produced its candidates, the service has been built, the
    free/busy query over their envelope has returned a busy list and the
    clock has been read, the resolver answers with, in candidate order, the
    start time of every candidate that overlaps no busy interval and that
    the lead-time rule (today only: start before now plus the lead time)
    does not drop, and of no other.  For doctor D with the Tuesday window
    11:00-13:00, slots of 30 minutes and the busy interval 12:00-12:30, the
    free list is 11:00, 11:30, 12:30 whenever the lead-time rule drops
    nothing (another day, or a cut-off not after 11:00). *)
Theorem C2_free_iff_no_overlap_and_not_cut_off :
  (∀ s e busy,
     _overlaps s e busy = false ↔ ∀ b, b ∈ busy → ¬ (s < b.2 ∧ e > b.1)) ∧
  (∀ (fuel : nat) doctor day slot_minutes slot_ranges earliest latest busy now
     (w w0 w1 w2 : W),
     scan_windows fuel day slot_minutes
       (default [] (weekly_schedule doctor !! strftime_a day)) ([], None, None)
     = Some (Returned (slot_ranges, Some earliest, Some latest)) →
     _google_service w = (Returned (), w0) →
     freebusy_query (calendar_id doctor) earliest latest w0 = (Returned busy, w1) →
     datetime_now w1 = (now, w2) →
     let is_today := day =? date_of now in
     let cutoff := now + timedelta_minutes MIN_LEAD_MINUTES in
     ∃ slots meta,
       _compute_free_slots_for_date MIN_LEAD_MINUTES fuel doctor (IsoDate day)
         slot_minutes w
       = Some (Returned (slots, meta), w2) ∧
       slots = (λ c : Z * Z, strftime_HM c.1)
                 <$> filter (λ c, ¬ before_cutoff is_today cutoff c ∧
                                  Forall (λ b, ¬ overlap c b) busy) slot_ranges ∧
       (∀ c, c ∈ slot_ranges → ¬ before_cutoff is_today cutoff c →
             (∀ b, b ∈ busy → ¬ overlap c b) → strftime_HM c.1 ∈ slots) ∧
       (∀ hm, hm ∈ slots →
              ∃ c, c ∈ slot_ranges ∧ hm = strftime_HM c.1 ∧
                   ¬ before_cutoff is_today cutoff c ∧
                   ∀ b, b ∈ busy → ¬ overlap c b)) ∧
  (∀ (fuel : nat) (w w1 w2 w3 : W) now,
     (1441 ≤ fuel)%nat →
     _google_service w = (Returned (), w1) →
     freebusy_query "cal-D" (at_ TUESDAY 11 0) (at_ TUESDAY 13 0) w1
     = (Returned [(at_ TUESDAY 12 0, at_ TUESDAY 12 30)], w2) →
     datetime_now w2 = (now, w3) →
     (date_of now ≠ TUESDAY ∨
      now + timedelta_minutes MIN_LEAD_MINUTES ≤ at_ TUESDAY 11 0) →
     _compute_free_slots_for_date MIN_LEAD_MINUTES fuel doctor_D (IsoDate TUESDAY) 30 w
     = Some (Returned (["11:00"; "11:30"; "12:30"], None), w3)).
Proof.
  split; [|split].
  - intros s e busy. rewrite overlaps_spec, Forall_forall. reflexivity.
  - intros fuel doctor day slot_minutes slot_ranges earliest latest busy now
      w w0 w1 w2 Hscan Hsvc Hfb Hnow is_today cutoff.
    destruct (compute_filters fuel doctor day slot_minutes slot_ranges earliest latest
                busy now w w0 w1 w2 Hscan Hsvc Hfb Hnow) as [meta Hrun].
    eexists _, meta. split; [exact Hrun|]. split; [reflexivity|]. split.
    + intros c Hc Hcut Hfree. apply list_elem_of_fmap. exists c. split; [done|].
      apply list_elem_of_filter. split; [|done]. split; [done|].
      by apply Forall_forall.
    + intros hm Hhm. apply list_elem_of_fmap in Hhm as (c & -> & Hc).
      apply list_elem_of_filter in Hc as [[Hcut Hfree] Hc].
      exists c. split; [done|]. split; [done|]. split; [done|].
      by apply Forall_forall.
  - intros fuel w w1 w2 w3 now Hfuel Hsvc Hfb Hnow Hcut.
    assert (Hw : default [] (weekly_schedule doctor_D !! strftime_a TUESDAY)
                 = ["11:00-13:00"]) by (vm_compute; reflexivity).
    erewrite compute_with_candidates;
      [|rewrite Hw; apply scan_half_hours_D; lia].
    unfold freebusy, bind, call, ret. rewrite Hsvc.
    change (calendar_id doctor_D) with "cal-D". rewrite Hfb, Hnow.
    cbn [fst snd]. cbv zeta.
    rewrite free_slots_loop_uncut.
    + vm_compute. reflexivity.
    + intros c Hc [Htoday Hlt].
      apply Z.eqb_eq in Htoday.
      destruct Hcut as [Hday|Hcut]; [congruence|].
      assert (at_ TUESDAY 11 0 ≤ c.1); [|lia].
      unfold half_hours_D in Hc.
      repeat (apply elem_of_cons in Hc as [->|Hc]; [vm_compute; discriminate|]).
      inversion Hc.
Qed.

(** C7, as amended. When candidates were generated, the free/busy query
    succeeded and the free list came out empty, the result carries exactly
    one of the codes [no_future_slots] and [fully_booked]: the first when
    the date is today and every candidate starts before now plus the lead
    time, the second when some candidate is not dropped by that rule (the
    date is another day, a past one included, or the candidate starts at
    or after the cut-off), every such candidate then overlapping a busy
    interval. *)
Theorem C7_empty_free_list_has_one_of_two_signals
    (fuel : nat) (doctor : Doctor) (day slot_minutes : Z)
    (slot_ranges : list (Z * Z)) (earliest latest : Z)
    (busy : list (Z * Z)) (now : Z) (w w1 w2 : W) :
  let windows := default [] (weekly_schedule doctor !! strftime_a day) in
  let is_today := day =? date_of now in
  let cutoff := now + timedelta_minutes MIN_LEAD_MINUTES in
  scan_windows fuel day slot_minutes windows ([], None, None)
  = Some (Returned (slot_ranges, Some earliest, Some latest)) →
  slot_ranges ≠ [] →
  freebusy doctor earliest latest w = Some (Returned busy, w1) →
  datetime_now w1 = (now, w2) →
  free_slots_loop is_today cutoff busy slot_ranges = [] →
  ∃ code,
    _compute_free_slots_for_date MIN_LEAD_MINUTES fuel doctor (IsoDate day) slot_minutes w
    = Some (Returned ([], Some code), w2) ∧
    (code = no_future_slots ∨ code = fully_booked) ∧
    (code = no_future_slots ↔
     ∀ c, c ∈ slot_ranges → before_cutoff is_today cutoff c) ∧
    (code = fully_booked ↔
     ∃ c, c ∈ slot_ranges ∧ ¬ before_cutoff is_today cutoff c) ∧
    (∀ c, c ∈ slot_ranges → ¬ before_cutoff is_today cutoff c →
          ∃ b, b ∈ busy ∧ overlap c b).
Proof.
  intros windows is_today cutoff Hscan Hne Hfb Hnow Hempty.
  exists (if negb (any_future_candidates is_today cutoff slot_ranges)
          then no_future_slots else fully_booked).
  split; [|split; [|split; [|split]]].
  - erewrite compute_with_candidates by exact Hscan.
    rewrite Hfb, Hnow. cbn [fst snd]. cbv zeta.
    fold is_today cutoff. rewrite Hempty. reflexivity.
  - destruct (any_future_candidates _ _ _); cbn; auto.
  - destruct (any_future_candidates is_today cutoff slot_ranges) eqn:E; cbn [negb].
    + split; [discriminate|]. intros Hall. exfalso.
      apply any_future_candidates_spec in E as (c & Hc & Hn). auto.
    + split; [|done]. intros _ c Hc.
      destruct (decide (before_cutoff is_today cutoff c)) as [|Hn]; [done|].
      assert (any_future_candidates is_today cutoff slot_ranges = true)
        by (apply any_future_candidates_spec; eauto).
      congruence.
  - destruct (any_future_candidates is_today cutoff slot_ranges) eqn:E; cbn [negb].
    + split; [|done]. intros _. by apply any_future_candidates_spec.
    + split; [discriminate|]. intros Hex.
      apply any_future_candidates_spec in Hex. congruence.
  - intros [a b] Hc Hn.
    apply overlaps_true. destruct (_overlaps a b busy) eqn:Eo; [done|]. exfalso.
    assert ((a, b) ∈ filter (reported is_today cutoff busy) slot_ranges) as Hin.
    { apply list_elem_of_filter. split; [|done]. split; [done|].
      by apply overlaps_spec. }
    rewrite free_slots_loop_filter in Hempty.
    apply fmap_nil_inv in Hempty. rewrite Hempty in Hin. inversion Hin.
Qed.
End AvailabilityFacts.

(** C1, a case where the statement fails for a slot duration: with slots
    of 10000000000 minutes the first sum of the slot loop on doctor D's
    Tuesday lies after the year 9999, and the generator, and with it the
    computation of the free slots, ends in an [OverflowError] instead of a
    list, before anything outside is consulted. *)
Lemma C1_counterexample_slot_too_long_for_the_calendar :
  scan_windows 1441 TUESDAY 10000000000
    (default [] (weekly_schedule doctor_D !! strftime_a TUESDAY)) ([], None, None)
  = Some (Raised OverflowError) ∧
  _compute_free_slots_for_date 0 1441 doctor_D (IsoDate TUESDAY) 10000000000 monday_noon
  = Some (Raised OverflowError, monday_noon).
Proof. split; vm_compute; reflexivity. Qed.

(** C2, a case where the statement without the lead-time rule fails: read
    on the Tuesday itself at 11:45, the 11:00 slot of doctor D overlaps no
    busy interval, yet the free list is 12:30 alone. *)
Lemma C2_counterexample_slot_before_cutoff :
  _overlaps (at_ TUESDAY 11 0) (at_ TUESDAY 11 30) (fk_busy tuesday_1145) = false ∧
  fk_busy tuesday_1145 = [(at_ TUESDAY 12 0, at_ TUESDAY 12 30)] ∧
  _compute_free_slots_for_date 0 2000 doctor_D (IsoDate TUESDAY) 30 tuesday_1145
  = Some (Returned (["12:30"], None), tuesday_1145) ∧
  ["12:30"] ≠ ["11:00"; "11:30"; "12:30"].
Proof. repeat split; try (vm_compute; reflexivity). discriminate. Qed.

(** ** The booking transaction *)

Section BookingFacts.
Context {W : Type} `{!World W}.
Variable MIN_LEAD_MINUTES : Z.
Variable DB : list Doctor.

Lemma book_after_early_checks fuel req doctor s e now (w w1 : W) :
  passes_early_checks MIN_LEAD_MINUTES DB req doctor s e now w w1 →
  appointment_book_tool MIN_LEAD_MINUTES DB fuel req w
  = (if negb (_within_schedule doctor s e)
     then ret (BookError ERR_OUTSIDE_HOURS)
     else
       do conflict <~ _slot_conflicts_with_calendar doctor s e;
       if conflict then ret (BookError ERR_NO_LONGER_AVAILABLE)
       else
         do listed <~ slot_guard MIN_LEAD_MINUTES fuel doctor s e;
         if negb listed then ret (BookError ERR_NOT_A_SLOT)
         else commit_booking doctor req s e) w1.
Proof.
  intros (Hdoc & Hs & He & Hlt & Hemail & Hnow & Hlead).
  unfold appointment_book_tool. rewrite Hdoc, Hs, He.
  destruct (Z.leb_spec e s); [lia|]. rewrite Hemail. cbn [negb].
  unfold bind at 1, call. rewrite Hnow.
  destruct (Z.ltb_spec s (now + timedelta_minutes MIN_LEAD_MINUTES)); [lia|].
  reflexivity.
Qed.

Lemma slot_conflicts_spec doctor s e (w1 : W) fb w2 :
  freebusy doctor s e w1 = Some (fb, w2) →
  _slot_conflicts_with_calendar doctor s e w1
  = Some (match fb with
          | Raised _ => true
          | Returned busy_list => _overlaps s e busy_list
          end, w2).
Proof.
  intros Hfb. unfold _slot_conflicts_with_calendar, bind. rewrite Hfb.
  by destruct fb.
Qed.

(** The commit never answers with the two business-rule refusals. *)
Lemma commit_booking_response doctor req s e (w w' : W) r :
  commit_booking doctor req s e w = Some (r, w') →
  (∃ msg, r = BookError (ERR_INSERT msg)) ∨
  (∃ message link id ok err, r = Booked message link id ok err).
Proof.
  unfold commit_booking.
  destruct (build_event doctor req s e) as [event params].
  unfold bind at 1.
  destruct (insert_event doctor event params w) as [[[created|msg] w0]|];
    [|intros [= <- _]; left; eauto|discriminate].
  unfold bind, call, ret.
  destruct (datetime_now w0) as [? wa].
  destruct (_send_plain_email _ _ wa) as [[ok1 err1] wb].
  destruct (truthy (d_email doctor)).
  - destruct (_send_plain_email _ _ wb) as [[ok2 err2] wc].
    intros [= <- _]. right. eauto 10.
  - intros [= <- _]. right. eauto 10.
Qed.

(** C5, as amended. A booking request that passes the earlier checks
    (known doctor, well-formed times with end after start, acceptable
    email, lead time) and whose interval is not contained in a window of
    the start's weekday fails with the outside-clinic-hours error whatever
    the calendar holds: the only thing consulted is the clock. *)
Theorem C5_outside_hours_before_any_calendar_query
    (fuel : nat) (req : BookRequest) (doctor : Doctor) (s e now : Z) (w w1 : W) :
  passes_early_checks MIN_LEAD_MINUTES DB req doctor s e now w w1 →
  _within_schedule doctor s e = false →
  appointment_book_tool MIN_LEAD_MINUTES DB fuel req w
  = Some (BookError ERR_OUTSIDE_HOURS, w1).
Proof.
  intros Hearly Hout.
  rewrite (book_after_early_checks fuel req doctor s e now w w1 Hearly).
  rewrite Hout. reflexivity.
Qed.

(** C4, as amended. For a booking request that passes the checks before
    the preflight, the no-longer-available error is returned when the
    fresh free/busy query over the exact interval fails for any reason or
    shows an overlap, and in no other case: a failure of the provider is
    reported with the same error as a real conflict. *)
Theorem C4_preflight_failure_reported_as_conflict
    (fuel : nat) (req : BookRequest) (doctor : Doctor) (s e now : Z)
    (w w1 w2 : W) (fb : outcome (list (Z * Z))) :
  passes_early_checks MIN_LEAD_MINUTES DB req doctor s e now w w1 →
  _within_schedule doctor s e = true →
  freebusy doctor s e w1 = Some (fb, w2) →
  ((∃ msg, fb = Raised msg) ∨
   (∃ busy b, fb = Returned busy ∧ b ∈ busy ∧ overlap (s, e) b) →
   appointment_book_tool MIN_LEAD_MINUTES DB fuel req w
   = Some (BookError ERR_NO_LONGER_AVAILABLE, w2)) ∧
  (∀ busy, fb = Returned busy → (∀ b, b ∈ busy → ¬ overlap (s, e) b) →
   ∀ w', appointment_book_tool MIN_LEAD_MINUTES DB fuel req w
         ≠ Some (BookError ERR_NO_LONGER_AVAILABLE, w')).
Proof.
  intros Hearly Hin Hfb.
  assert (Hbook :
    appointment_book_tool MIN_LEAD_MINUTES DB fuel req w
    = if match fb with
         | Raised _ => true
         | Returned busy_list => _overlaps s e busy_list
         end
      then Some (BookError ERR_NO_LONGER_AVAILABLE, w2)
      else (do listed <~ slot_guard MIN_LEAD_MINUTES fuel doctor s e;
            if negb listed then ret (BookError ERR_NOT_A_SLOT)
            else commit_booking doctor req s e) w2).
  { rewrite (book_after_early_checks fuel req doctor s e now w w1 Hearly).
    rewrite Hin. cbn [negb]. unfold bind at 1.
    rewrite (slot_conflicts_spec doctor s e w1 fb w2 Hfb).
    by destruct (match fb with Raised _ => true | Returned l => _overlaps s e l end). }
  rewrite Hbook. clear Hbook. split.
  - intros [[msg ->] | (busy & b & -> & Hb & Ho)]; [reflexivity|].
    assert (_overlaps s e busy = true) as -> by (apply overlaps_true; eauto).
    reflexivity.
  - intros busy -> Hfree w'.
    assert (_overlaps s e busy = false) as ->
      by (apply overlaps_spec, Forall_forall; done).
    unfold bind at 1.
    destruct (slot_guard MIN_LEAD_MINUTES fuel doctor s e w2) as [[listed w3]|];
      [|discriminate].
    destruct listed; cbn [negb].
    + intros Hc. apply commit_booking_response in Hc
        as [[msg Hc] | (m & l & i & ok & err & Hc)]; [|discriminate].
      unfold ERR_INSERT, ERR_NO_LONGER_AVAILABLE in Hc. cbn in Hc. discriminate Hc.
    + unfold ret. intros Hc.
      unfold ERR_NOT_A_SLOT, ERR_NO_LONGER_AVAILABLE in Hc. discriminate Hc.
Qed.

(** What is left of the booking once the preflight has shown no conflict:
    the guard and, if it lets the booking go on, the commit. *)
Lemma book_after_preflight fuel req doctor s e now (w w1 w2 : W) :
  passes_early_checks MIN_LEAD_MINUTES DB req doctor s e now w w1 →
  _within_schedule doctor s e = true →
  _slot_conflicts_with_calendar doctor s e w1 = Some (false, w2) →
  appointment_book_tool MIN_LEAD_MINUTES DB fuel req w
  = match _compute_free_slots_for_date MIN_LEAD_MINUTES fuel doctor
            (IsoDate (date_of s)) ((e - s) / MINUTE) w2 with
    | None => None
    | Some (Raised _, w3) => commit_booking doctor req s e w3
    | Some (Returned (slots_for_day, _), w3) =>
        if bool_decide (strftime_HM s ∈ slots_for_day)
        then commit_booking doctor req s e w3
        else Some (BookError ERR_NOT_A_SLOT, w3)
    end.
Proof.
  intros Hearly Hin Hpre.
  rewrite (book_after_early_checks fuel req doctor s e now w w1 Hearly).
  rewrite Hin. cbn [negb]. unfold bind at 1. rewrite Hpre.
  unfold bind at 1, slot_guard. unfold bind at 1.
  destruct (_compute_free_slots_for_date _ _ _ _ _ w2) as [[[[slots meta]|exc] w3]|];
    [|reflexivity|reflexivity].
  unfold ret at 1. by destruct (bool_decide _).
Qed.

End BookingFacts.

(** C5, a case where the statement without the earlier checks fails: on
    Monday at noon, a request for 09:00-09:30 on the Tuesday of the week
    before lies outside doctor D's hours, and it is refused with the
    lead-time error, not with the outside-clinic-hours error. *)
Lemma C5_counterexample_past_request_outside_hours :
  _within_schedule doctor_D (at_ (TUESDAY - 7) 9 0) (at_ (TUESDAY - 7) 9 30) = false ∧
  appointment_book_tool 0 [doctor_D] 2000
    (request (at_ (TUESDAY - 7) 9 0) (at_ (TUESDAY - 7) 9 30)) monday_noon
  = Some (BookError (ERR_LEAD_TIME "booked" 0), monday_noon) ∧
  ERR_LEAD_TIME "booked" 0 ≠ ERR_OUTSIDE_HOURS.
Proof. repeat split; try (vm_compute; reflexivity). vm_compute. discriminate. Qed.

(** C4, a case where the statement fails: with the provider failing and a
    calendar that holds no busy interval at all, the 11:00-11:30 request is
    refused with the very error a real conflict gets. *)
Lemma C4_counterexample_provider_down_reads_as_conflict :
  fk_busy idle_down_monday = [] ∧
  freebusy doctor_D (at_ TUESDAY 11 0) (at_ TUESDAY 11 30) idle_down_monday
  = Some (Raised "HttpError 503", idle_down_monday) ∧
  appointment_book_tool 0 [doctor_D] 2000
    (request (at_ TUESDAY 11 0) (at_ TUESDAY 11 30)) idle_down_monday
  = Some (BookError ERR_NO_LONGER_AVAILABLE, idle_down_monday) ∧
  appointment_book_tool 0 [doctor_D] 2000
    (request (at_ TUESDAY 12 0) (at_ TUESDAY 12 30)) monday_noon
  = Some (BookError ERR_NO_LONGER_AVAILABLE, monday_noon).
Proof. repeat split; vm_compute; reflexivity. Qed.


(** ** Failure of the free/busy query in the read path *)

Section AvailabilityToolFacts.
Context {W : Type} `{!World W}.
Variable MIN_LEAD_MINUTES : Z.
Variable DB : list Doctor.

(** The code [freebusy_error] is produced by a failed query and by
    nothing else. *)
Lemma freebusy_error_only_on_failure fuel doctor date slot_minutes (w w' : W) slots :
  _compute_free_slots_for_date MIN_LEAD_MINUTES fuel doctor date slot_minutes w
  = Some (Returned (slots, Some freebusy_error), w') →
  slots = [] ∧ ∃ time_min time_max msg,
    freebusy doctor time_min time_max w = Some (Raised msg, w').
Proof.
  unfold _compute_free_slots_for_date.
  destruct (fromisoformat_date date) as [day|]; [|intros Hc; discriminate Hc].
  destruct (default [] (weekly_schedule doctor !! strftime_a day)) as [|w0 ws];
    [intros Hc; discriminate Hc|].
  destruct (scan_windows _ _ _ _ _) as [[[[ranges [e|]] [l|]]|exc]|];
    try (intros Hc; discriminate Hc).
  unfold bind at 1.
  destruct (freebusy doctor e l w) as [[[busy|msg] w1]|] eqn:Hfb;
    [|intros [= <- <-]; eauto 6|intros Hc; discriminate Hc].
  unfold bind, call, ret. destruct (datetime_now w1) as [now w2].
  destruct (free_slots_loop _ _ _ _); [|intros Hc; discriminate Hc].
  destruct (negb _); intros Hc; discriminate Hc.
Qed.

(** The day after a date whose slots stay in the calendar is a date. *)
Lemma in_calendar_next day slot_minutes :
  0 < slot_minutes → in_calendar day slot_minutes → date_fits (day + 1) = true.
Proof.
  intros Hslot [Hmin Hmax]. pose proof (timedelta_minutes_pos _ Hslot) as Hstep.
  unfold combine in Hmax. unfold date_fits. apply andb_true_iff.
  split; apply Z.leb_le; calendar_numbers; lia.
Qed.

Lemma in_calendar_fits day slot_minutes :
  0 < slot_minutes → in_calendar day slot_minutes → date_fits day = true.
Proof.
  intros Hslot [Hmin Hmax]. pose proof (timedelta_minutes_pos _ Hslot) as Hstep.
  unfold combine in Hmax. unfold date_fits. apply andb_true_iff.
  split; apply Z.leb_le; calendar_numbers; lia.
Qed.

(** The slots of the dates before one whose slots stay in the calendar stay
    in the calendar too. *)
Lemma in_calendar_before day day' slot_minutes :
  DATE_MIN ≤ day' ≤ day → in_calendar day slot_minutes → in_calendar day' slot_minutes.
Proof.
  intros [Hmin Hle] [_ Hmax]. split; [done|].
  unfold combine in *. calendar_numbers. lia.
Qed.

(** The range loop stores, for each day it goes through, the slot list of
    that day's computation and nothing of its code; other entries of the map
    are left as they were. *)
Lemma range_loop_entries fuel doctor slot_minutes (n : nat) :
  ∀ day result_map (w w' : W) dates,
    range_loop MIN_LEAD_MINUTES fuel doctor slot_minutes n day result_map w
    = Some (Returned dates, w') →
    (∀ d, ¬ (day ≤ d < day + Z.of_nat n) → dates !! d = result_map !! d) ∧
    (∀ d, day ≤ d < day + Z.of_nat n →
       ∃ slots meta (wa wb : W),
         _compute_free_slots_for_date MIN_LEAD_MINUTES fuel doctor (IsoDate d)
           slot_minutes wa = Some (Returned (slots, meta), wb) ∧
         dates !! d = Some slots).
Proof.
  induction n as [|n IH]; intros day result_map w w' dates Hrun.
  - cbn in Hrun. injection Hrun as <- <-. split; [done|]. intros d Hd. lia.
  - cbn [range_loop] in Hrun. unfold bind at 1 in Hrun.
    destruct (_compute_free_slots_for_date MIN_LEAD_MINUTES fuel doctor (IsoDate day)
                slot_minutes w) as [[[[slots meta]|exc] w1]|] eqn:Hday;
      [|discriminate|discriminate].
    destruct (date_fits (day + 1)); [|discriminate].
    apply IH in Hrun as [Hout Hin]. split.
    + intros d Hd. rewrite Hout by lia. apply lookup_insert_ne. lia.
    + intros d Hd. destruct (decide (d = day)) as [->|Hne].
      * exists slots, meta, w, w1. split; [done|].
        rewrite Hout by lia. apply lookup_insert_eq.
      * apply Hin. lia.
Qed.

(** C3, as amended. When the free/busy query fails, a single-date
    availability query answers with an empty slot list that carries the
    code [freebusy_error], a code no other situation produces; a
    date-range query answers, for each of its days, with the bare slot list
    of that day's computation, so that a day whose query failed is a plain
    empty list, the code being dropped. *)
Theorem C3_freebusy_failure_coded_for_single_date_only
    (fuel : nat) (doctor_id : string) (doctor : Doctor) (day slot_minutes : Z) (w : W) :
  0 < slot_minutes → in_calendar day slot_minutes → (1441 ≤ fuel)%nat →
  _find_doctor DB doctor_id = Some doctor →
  parsed_windows (default [] (weekly_schedule doctor !! strftime_a day)) ≠ [] →
  (∀ time_min time_max, ∃ msg w1,
      freebusy doctor time_min time_max w = Some (Raised msg, w1)) →
  (∃ w1,
     availability_tool MIN_LEAD_MINUTES DB fuel doctor_id (IsoDate day) slot_minutes NoDate w
     = Some (Returned (AvDay (IsoDate day) [] (Some freebusy_error)), w1) ∧
     availability_tool MIN_LEAD_MINUTES DB fuel doctor_id (IsoDate day) slot_minutes
       (IsoDate day) w
     = Some (Returned (AvDates (<[day := []]> ∅)), w1)) ∧
  (∀ date (w0 w' : W) slots,
     _compute_free_slots_for_date MIN_LEAD_MINUTES fuel doctor date slot_minutes w0
     = Some (Returned (slots, Some freebusy_error), w') →
     slots = [] ∧ ∃ time_min time_max msg,
       freebusy doctor time_min time_max w0 = Some (Raised msg, w')) ∧
  (∀ d1 d2 (w0 w' : W) dates,
     availability_tool MIN_LEAD_MINUTES DB fuel doctor_id (IsoDate d1) slot_minutes
       (IsoDate d2) w0 = Some (Returned (AvDates dates), w') →
     ∀ d, d1 `min` d2 ≤ d ≤ d1 `max` d2 →
       ∃ slots meta (wa wb : W),
         _compute_free_slots_for_date MIN_LEAD_MINUTES fuel doctor (IsoDate d)
           slot_minutes wa = Some (Returned (slots, meta), wb) ∧
         dates !! d = Some slots).
Proof.
  intros Hslot Hcal Hfuel Hdoc Hpw Hdown.
  split; [|split; [intros; by eapply freebusy_error_only_on_failure|]].
  2:{ intros d1 d2 w0 w' dates. unfold availability_tool. rewrite Hdoc.
      unfold bind at 1. unfold ret at 1. cbn [fromisoformat_date].
      unfold bind at 1.
      destruct (range_loop _ _ _ _ _ _ _ w0) as [[[m|exc] w1]|] eqn:Hloop;
        [|discriminate|discriminate].
      intros [= <- <-] d Hd.
      apply range_loop_entries in Hloop as [_ Hin]. apply Hin.
      destruct (Z.ltb_spec d2 d1); lia. }
  set (windows := default [] (weekly_schedule doctor !! strftime_a day)) in *.
  destruct (scan_windows_closed day slot_minutes fuel Hslot Hcal Hfuel windows [] None None)
    as (e & l & Hscan & He & Hl).
  destruct e as [e|]; [|exfalso; apply Hpw; by apply He].
  destruct l as [l|]; [|exfalso; apply Hpw; by apply Hl].
  destruct (Hdown e l) as (msg & w1 & Hfb).
  assert (Hrun :
    _compute_free_slots_for_date MIN_LEAD_MINUTES fuel doctor (IsoDate day) slot_minutes w
    = Some (Returned ([], Some freebusy_error), w1)).
  { erewrite compute_with_candidates by exact Hscan. by rewrite Hfb. }
  exists w1. unfold availability_tool. rewrite Hdoc.
  split.
  - unfold bind at 1. unfold ret at 1.
    unfold bind at 1. rewrite Hrun. reflexivity.
  - unfold bind at 1. unfold ret at 1. cbn [fromisoformat_date].
    unfold bind at 1. rewrite Z.ltb_irrefl.
    replace (Z.to_nat (day - day + 1)) with 1%nat by lia.
    cbn [range_loop]. unfold bind at 1. rewrite Hrun.
    rewrite (in_calendar_next day slot_minutes Hslot Hcal). reflexivity.
Qed.
End AvailabilityToolFacts.

(** C3, a case where the statement fails: over a date range, the answer
    when the provider is failing is the very answer given when the calendar
    works and the day is fully booked. *)
Lemma C3_counterexample_range_hides_failure :
  freebusy doctor_D (at_ TUESDAY 11 0) (at_ TUESDAY 13 0) down_monday
  = Some (Raised "HttpError 503", down_monday) ∧
  availability_tool 0 [doctor_D] 2000 "D" (IsoDate TUESDAY) 30 (IsoDate TUESDAY) down_monday
  = Some (Returned (AvDates (<[TUESDAY := []]> ∅)), down_monday) ∧
  freebusy doctor_D (at_ TUESDAY 11 0) (at_ TUESDAY 13 0) booked_monday
  = Some (Returned [(at_ TUESDAY 11 0, at_ TUESDAY 13 0)], booked_monday) ∧
  availability_tool 0 [doctor_D] 2000 "D" (IsoDate TUESDAY) 30 (IsoDate TUESDAY) booked_monday
  = Some (Returned (AvDates (<[TUESDAY := []]> ∅)), booked_monday).
Proof. repeat split; vm_compute; reflexivity. Qed.

(** ** Ownership and the lifecycle operations *)

Lemma append_cons c a b : String c a +:+ b = String c (a +:+ b).
Proof. reflexivity. Qed.

Lemma append_nil b : EmptyString +:+ b = b.
Proof. reflexivity. Qed.

Lemma prefix_spec p s : String.prefix p s = true ↔ ∃ rest, s = p +:+ rest.
Proof.
  revert s. induction p as [|a p IH]; intros s.
  - split; [intros _; by exists s|]. intros _. by destruct s.
  - destruct s as [|b s]; cbn [String.prefix].
    + split; [done|intros [rest Hr]; discriminate Hr].
    + destruct (ascii_dec a b) as [->|Hne].
      * rewrite IH. split; intros [rest Hr]; exists rest;
          rewrite append_cons in *; congruence.
      * split; [done|]. intros [rest Hr]. rewrite append_cons in Hr. congruence.
Qed.

Lemma str_in_spec needle hay :
  str_in needle hay = true ↔ ∃ before after, hay = before +:+ needle +:+ after.
Proof.
  induction hay as [|c hay IH]; cbn [str_in].
  - destruct (String.prefix needle "") eqn:E.
    + apply prefix_spec in E as [rest Hr]. split; [|done]. intros _.
      by exists EmptyString, rest.
    + split; [done|]. intros (before & after & Hh).
      destruct before; [|discriminate Hh]. rewrite append_nil in Hh.
      assert (String.prefix needle "" = true) by (apply prefix_spec; eauto).
      congruence.
  - destruct (String.prefix needle (String c hay)) eqn:E.
    + apply prefix_spec in E as [rest Hr]. split; [|done]. intros _.
      by exists EmptyString, rest.
    + rewrite IH. split.
      * intros (before & after & ->). by exists (String c before), after.
      * intros (before & after & Hh). destruct before as [|c' before].
        -- rewrite append_nil in Hh.
           assert (String.prefix needle (String c hay) = true)
             by (apply prefix_spec; eauto).
           congruence.
        -- rewrite append_cons in Hh. injection Hh as _ ->. eauto.
Qed.

Lemma attendee_matches_spec pe attendees :
  attendee_matches pe attendees = true ↔
  ∃ a, a ∈ attendees ∧ strip (lower (or_empty (a_email a))) = pe.
Proof.
  induction attendees as [|a rest IH]; cbn [attendee_matches].
  - split; [done|]. intros (a & Ha & _). inversion Ha.
  - fold (or_empty (a_email a)).
    destruct (String.eqb_spec (strip (lower (or_empty (a_email a)))) pe) as [Heq|Hne].
    + split; [|done]. intros _. exists a. split; [left|done].
    + rewrite IH. split.
      * intros (a' & Ha' & Hm). exists a'. split; [by right|done].
      * intros (a' & Ha' & Hm). apply elem_of_cons in Ha' as [->|Ha']; [done|eauto].
Qed.

Lemma event_contains_patient_spec ev patient_email :
  _event_contains_patient ev patient_email = true ↔ owns ev patient_email.
Proof.
  unfold _event_contains_patient, owns.
  destruct patient_email as [|c rest]; cbn [str_falsy].
  { split; [done|]. by intros [? _]. }
  set (pe := strip (lower (String c rest))).
  destruct (attendee_matches pe (ev_attendees ev)) eqn:Ea.
  - split; [|done]. intros _. split; [done|]. left. by apply attendee_matches_spec.
  - fold (or_empty (ev_description ev)). rewrite str_in_spec. split.
    + intros Hd. split; [done|]. by right.
    + intros [_ [Ha|Hd]]; [|done].
      apply attendee_matches_spec in Ha. congruence.
Qed.


Section LifecycleFacts.
Context {W : Type} `{!World W}.
Variable MIN_LEAD_MINUTES : Z.
Variable DB : list Doctor.






End LifecycleFacts.


(** ** The properties at work on the in-memory world *)

Ltac by_evaluation :=
  first [ reflexivity
        | vm_compute; reflexivity
        | vm_compute; discriminate
        | vm_compute; intros ?; discriminate ].

Lemma windows_ok_singleton w : w.1 < w.2 → windows_ok [w].
Proof.
  intros Hlt. split.
  - intros w' Hw'. by apply list_elem_of_singleton in Hw' as ->.
  - intros i j w1 w2 Hij Hi Hj. exfalso.
    destruct i as [|i]; [|by destruct i].
    destruct j as [|j]; [done|by destruct j].
Qed.

Lemma in_calendar_TUESDAY_30 : in_calendar TUESDAY 30.
Proof. split; by_evaluation. Qed.

Lemma C1_witness_doctor_D_half_hours :
  ∃ slot_ranges earliest latest,
    scan_windows 1441 TUESDAY 30
      (default [] (weekly_schedule doctor_D !! strftime_a TUESDAY)) ([], None, None)
    = Some (Returned (slot_ranges, earliest, latest)) ∧
    ((at_ TUESDAY 11 30, at_ TUESDAY 12 0) ∈ slot_ranges) ∧
    ∃ slots meta w',
      _compute_free_slots_for_date 0 1441 doctor_D (IsoDate TUESDAY) 30 monday_noon
      = Some (Returned (slots, meta), w') ∧
      (meta = Some no_schedule ↔
       parsed_windows (default [] (weekly_schedule doctor_D !! strftime_a TUESDAY)) = []) ∧
      (∀ hm, hm ∈ slots → ∃ c, c ∈ slot_ranges ∧ hm = strftime_HM c.1).
Proof.
  destruct (@C1_slot_generator_tiles_windows Fake fake_world 0 doctor_D TUESDAY 30 1441
              ltac:(lia) in_calendar_TUESDAY_30 ltac:(lia))
    as [(r & e & l & Hscan & Hmem & Hrun) _].
  exists r, e, l. split; [exact Hscan|]. split.
  - apply Hmem. exists (11 * HOUR, 13 * HOUR), 1.
    split; [vm_compute; left|]. repeat split; by_evaluation.
  - destruct (Hrun monday_noon) as (slots & meta & w' & Heq & Hcode & _ & _ & Hsub).
    exists slots, meta, w'. split; [exact Heq|]. split; [exact Hcode|exact Hsub].
Defined.

Lemma C9_witness_doctor_D_half_hours :
  windows_ok (parsed_windows (default [] (weekly_schedule doctor_D !! strftime_a TUESDAY))) ∧
  (∀ (i j : nat) c1 c2,
     i ≠ j → half_hours_D !! i = Some c1 → half_hours_D !! j = Some c2 →
     ¬ overlap c1 c2).
Proof.
  assert (Hok : windows_ok
            (parsed_windows (default [] (weekly_schedule doctor_D !! strftime_a TUESDAY)))).
  { change (windows_ok [(11 * HOUR, 13 * HOUR)]). apply windows_ok_singleton.
    by_evaluation. }
  split; [exact Hok|].
  exact (proj1 (proj2 (C9_candidates_in_one_window_no_overlap doctor_D TUESDAY 30 5
                         half_hours_D (Some (at_ TUESDAY 11 0)) (Some (at_ TUESDAY 13 0))
                         Hok ltac:(by_evaluation)))).
Defined.

Lemma C2_witness_example_read_on_monday :
  _compute_free_slots_for_date 0 1441 doctor_D (IsoDate TUESDAY) 30 monday_noon
  = Some (Returned (["11:00"; "11:30"; "12:30"], None), monday_noon).
Proof.
  apply (proj2 (proj2 (@C2_free_iff_no_overlap_and_not_cut_off Fake fake_world 0))
           1441%nat monday_noon monday_noon monday_noon monday_noon
           (at_ (TUESDAY - 1) 12 0));
    [lia|by_evaluation|by_evaluation|by_evaluation|].
  left. by_evaluation.
Defined.

Lemma C7_witness_fully_booked_tuesday :
  free_slots_loop (TUESDAY =? date_of (fk_now booked_monday))
    (fk_now booked_monday + timedelta_minutes 0)
    [(at_ TUESDAY 11 0, at_ TUESDAY 13 0)] half_hours_D = [] ∧
  ∃ code,
    _compute_free_slots_for_date 0 5 doctor_D (IsoDate TUESDAY) 30 booked_monday
    = Some (Returned ([], Some code), booked_monday) ∧
    (code = fully_booked ↔
     ∃ c, c ∈ half_hours_D ∧
          ¬ before_cutoff (TUESDAY =? date_of (fk_now booked_monday))
              (fk_now booked_monday + timedelta_minutes 0) c).
Proof.
  assert (Hempty : free_slots_loop (TUESDAY =? date_of (fk_now booked_monday))
            (fk_now booked_monday + timedelta_minutes 0)
            [(at_ TUESDAY 11 0, at_ TUESDAY 13 0)] half_hours_D = []) by by_evaluation.
  split; [exact Hempty|].
  destruct (@C7_empty_free_list_has_one_of_two_signals Fake fake_world 0 5 doctor_D
              TUESDAY 30 half_hours_D (at_ TUESDAY 11 0) (at_ TUESDAY 13 0)
              [(at_ TUESDAY 11 0, at_ TUESDAY 13 0)] (fk_now booked_monday)
              booked_monday booked_monday booked_monday)
    as (code & Hrun & _ & _ & Hfull & _);
    [by_evaluation|by_evaluation|by_evaluation|by_evaluation|exact Hempty|].
  exists code. split; [exact Hrun|exact Hfull].
Defined.

Lemma early_checks_on_monday (s e : Z) :
  s < e → fk_now monday_noon ≤ s →
  ∀ w : Fake, fk_now w = fk_now monday_noon →
  passes_early_checks 0 [doctor_D] (request s e) doctor_D s e (fk_now monday_noon) w w.
Proof.
  intros Hlt Hlead w Hnow. unfold passes_early_checks.
  repeat split; try by_evaluation; try done;
    try (cbn; by rewrite Hnow); unfold timedelta_minutes; lia.
Qed.

Lemma C5_witness_early_morning_request :
  _within_schedule doctor_D (at_ TUESDAY 9 0) (at_ TUESDAY 9 30) = false ∧
  appointment_book_tool 0 [doctor_D] 0 (request (at_ TUESDAY 9 0) (at_ TUESDAY 9 30))
    booked_monday
  = Some (BookError ERR_OUTSIDE_HOURS, booked_monday).
Proof.
  assert (Hout : _within_schedule doctor_D (at_ TUESDAY 9 0) (at_ TUESDAY 9 30) = false)
    by by_evaluation.
  split; [exact Hout|].
  apply (@C5_outside_hours_before_any_calendar_query Fake fake_world 0 [doctor_D] 0 _
           doctor_D (at_ TUESDAY 9 0) (at_ TUESDAY 9 30) (fk_now monday_noon));
    [|exact Hout].
  apply early_checks_on_monday; by_evaluation.
Defined.

Lemma C4_witness_provider_down :
  freebusy doctor_D (at_ TUESDAY 11 0) (at_ TUESDAY 11 30) idle_down_monday
  = Some (Raised "HttpError 503", idle_down_monday) ∧
  appointment_book_tool 0 [doctor_D] 0 (request (at_ TUESDAY 11 0) (at_ TUESDAY 11 30))
    idle_down_monday
  = Some (BookError ERR_NO_LONGER_AVAILABLE, idle_down_monday).
Proof.
  assert (Hfb : freebusy doctor_D (at_ TUESDAY 11 0) (at_ TUESDAY 11 30) idle_down_monday
                = Some (Raised "HttpError 503", idle_down_monday)) by by_evaluation.
  split; [exact Hfb|].
  apply (proj1 (@C4_preflight_failure_reported_as_conflict Fake fake_world 0 [doctor_D] 0
                  (request (at_ TUESDAY 11 0) (at_ TUESDAY 11 30)) doctor_D
                  (at_ TUESDAY 11 0) (at_ TUESDAY 11 30) (fk_now monday_noon)
                  idle_down_monday idle_down_monday idle_down_monday
                  (Raised "HttpError 503")
                  ltac:(apply early_checks_on_monday; by_evaluation)
                  ltac:(by_evaluation) Hfb)).
  left. by exists "HttpError 503".
Defined.


Lemma C3_witness_provider_down :
  ∃ w1,
    availability_tool 0 [doctor_D] 1441 "D" (IsoDate TUESDAY) 30 NoDate down_monday
    = Some (Returned (AvDay (IsoDate TUESDAY) [] (Some freebusy_error)), w1) ∧
    availability_tool 0 [doctor_D] 1441 "D" (IsoDate TUESDAY) 30 (IsoDate TUESDAY)
      down_monday
    = Some (Returned (AvDates (<[TUESDAY := []]> ∅)), w1).
Proof.
  apply (proj1 (@C3_freebusy_failure_coded_for_single_date_only Fake fake_world 0
                  [doctor_D] 1441 "D" doctor_D TUESDAY 30 down_monday
                  ltac:(lia) in_calendar_TUESDAY_30 ltac:(lia)
                  ltac:(by_evaluation) ltac:(by_evaluation)
                  ltac:(intros; eexists _, _; reflexivity))).
Defined.



(** C7, a case where the statement fails: asked on the Wednesday about the
    Tuesday before, every candidate starts before now plus the lead time and
    all are busy, and the code is [fully_booked], not [no_future_slots]. *)
Lemma C7_counterexample_past_day_reads_fully_booked :
  scan_windows 5 TUESDAY 30
    (default [] (weekly_schedule doctor_D !! strftime_a TUESDAY)) ([], None, None)
  = Some (Returned (half_hours_D, Some (at_ TUESDAY 11 0), Some (at_ TUESDAY 13 0))) ∧
  Forall (λ c : Z * Z, c.1 < fk_now wednesday_after + timedelta_minutes 0) half_hours_D ∧
  _compute_free_slots_for_date 0 5 doctor_D (IsoDate TUESDAY) 30 wednesday_after
  = Some (Returned ([], Some fully_booked), wednesday_after).
Proof.
  split; [by_evaluation|]. split; [|by_evaluation].
  repeat constructor; by_evaluation.
Qed.

(** ** Further properties of the code *)

Section Divergence.
Context {W : Type} `{!World W}.
Variable MIN_LEAD_MINUTES : Z.

(** X1. On a day that has a window that parses and does not end before
    it starts, the computation of the free slots never gives a list for a
    slot length of zero or less: with a slot length of zero it never comes
    back, and with a negative one the slot loop walks back to the first year
    and the computation ends, before anything outside is consulted, with an
    [OverflowError] that nothing in it catches. *)
Theorem X1_nonpositive_slot_length_loops_or_raises
    (doctor : Doctor) (day slot_minutes : Z) (win : string) (s t : Z) (w : W) :
  slot_minutes ≤ 0 → DATE_MIN ≤ day ≤ DATE_MAX →
  win ∈ default [] (weekly_schedule doctor !! strftime_a day) →
  parse_window win = Some (s, t) → s ≤ t →
  (slot_minutes = 0 →
   ∀ fuel,
     _compute_free_slots_for_date MIN_LEAD_MINUTES fuel doctor (IsoDate day) slot_minutes w
     = None) ∧
  (slot_minutes < 0 →
   ∃ enough : nat, ∀ fuel : nat, (enough ≤ fuel)%nat →
     _compute_free_slots_for_date MIN_LEAD_MINUTES fuel doctor (IsoDate day) slot_minutes w
     = Some (Raised OverflowError, w)) ∧
  (∀ fuel r w',
     _compute_free_slots_for_date MIN_LEAD_MINUTES fuel doctor (IsoDate day) slot_minutes w
     ≠ Some (Returned r, w')).
Proof.
  intros Hslot Hday Hin Hp Hst. split; [|split].
  - intros -> fuel. apply compute_diverges.
    by apply (scan_windows_diverges fuel day _ _ win s t).
  - intros Hneg. exists (S (Z.to_nat (DATETIME_MAX - DATETIME_MIN))).
    intros fuel Hfuel. apply compute_raises.
    apply (scan_windows_negative_raises fuel day slot_minutes _ _ win s t);
      [done|done|done|done|done|lia].
  - intros fuel r w'. unfold _compute_free_slots_for_date. cbn [fromisoformat_date].
    destruct (default [] (weekly_schedule doctor !! strftime_a day)) as [|w0 ws] eqn:Hw;
      [inversion Hin|].
    destruct (scan_windows fuel day slot_minutes (w0 :: ws) ([], None, None))
      as [[st|exc]|] eqn:Hscan; [|discriminate|discriminate].
    exfalso. revert Hscan.
    by apply (scan_nonpositive_not_returned fuel day slot_minutes _ _ win s t).
Qed.
End Divergence.

Lemma str_in_empty hay : str_in EmptyString hay = true.
Proof. by destruct hay. Qed.

(** X2. A patient email that is a single space is not empty, so the
    ownership test goes on with the empty string it trims to, which occurs
    in every description: the test holds on every event. *)
Theorem X2_blank_email_owns_every_event (ev : Event) :
  _event_contains_patient ev " " = true.
Proof.
  unfold _event_contains_patient. cbn [str_falsy].
  change (strip (lower " ")) with EmptyString.
  destruct (attendee_matches EmptyString (ev_attendees ev)); [done|].
  apply str_in_empty.
Qed.

Lemma X1_witness_zero_minutes :
  (∀ fuel, _compute_free_slots_for_date 0 fuel doctor_D (IsoDate TUESDAY) 0 monday_noon
           = None) ∧
  (∀ fuel r w',
     _compute_free_slots_for_date 0 fuel doctor_D (IsoDate TUESDAY) 0 monday_noon
     ≠ Some (Returned r, w')).
Proof.
  destruct (@X1_nonpositive_slot_length_loops_or_raises Fake fake_world 0 doctor_D
              TUESDAY 0 "11:00-13:00" (11 * HOUR) (13 * HOUR) monday_noon)
    as (Hzero & _ & Hnever);
    [lia|split; by_evaluation|vm_compute; left|by_evaluation|by_evaluation|].
  split; [by apply Hzero|exact Hnever].
Defined.

(** ** The directory *)

(** X3. [_find_doctor] returns the first entry of the directory that has
    the identifier asked for, and nothing exactly when no entry has it. *)
Theorem X3_find_doctor_first_entry_with_id (DB : list Doctor) (id : string) :
  match _find_doctor DB id with
  | Some d =>
      doctor_id d = id ∧
      ∃ before after,
        DB = before ++ d :: after ∧ ∀ d', d' ∈ before → doctor_id d' ≠ id
  | None => ∀ d, d ∈ DB → doctor_id d ≠ id
  end.
Proof.
  induction DB as [|d0 rest IH]; cbn [_find_doctor].
  - intros d Hd. inversion Hd.
  - destruct (String.eqb_spec (doctor_id d0) id) as [Heq|Hne].
    + split; [done|]. exists [], rest. split; [done|]. intros d' Hd'. inversion Hd'.
    + destruct (_find_doctor rest id) as [d|].
      * destruct IH as (Hid & before & after & -> & Hbefore).
        split; [done|]. exists (d0 :: before), after. split; [done|].
        intros d' Hd'. apply elem_of_cons in Hd' as [->|Hd']; [done|by apply Hbefore].
      * intros d' Hd'. apply elem_of_cons in Hd' as [->|Hd']; [done|by apply IH].
Qed.

Lemma first_by_name_spec DB name_lower :
  match first_by_name DB name_lower with
  | Some d =>
      name_matches name_lower d = true ∧
      ∃ before after,
        DB = before ++ d :: after ∧
        ∀ d', d' ∈ before → name_matches name_lower d' = false
  | None => ∀ d, d ∈ DB → name_matches name_lower d = false
  end.
Proof.
  induction DB as [|d0 rest IH]; cbn [first_by_name].
  - intros d Hd. inversion Hd.
  - destruct (name_matches name_lower d0) eqn:E.
    + split; [done|]. exists [], rest. split; [done|]. intros d' Hd'. inversion Hd'.
    + destruct (first_by_name rest name_lower) as [d|].
      * destruct IH as (Hm & before & after & -> & Hbefore).
        split; [done|]. exists (d0 :: before), after. split; [done|].
        intros d' Hd'. apply elem_of_cons in Hd' as [->|Hd']; [done|by apply Hbefore].
      * intros d' Hd'. apply elem_of_cons in Hd' as [->|Hd']; [done|by apply IH].
Qed.

(** X4. [doctor_lookup_by_name] matches by containment either way on
    lower-cased, trimmed names and takes the first match in directory order.
    Hence a query that is empty or blank returns the first doctor of the
    directory, a doctor whose stored name is blank answers every query that
    no earlier entry answers, and a query equal to a stored name always
    finds some doctor, though an earlier entry that merely contains or is
    contained in it wins. *)
Theorem X4_lookup_by_name_first_partial_match :
  (∀ d rest q, strip (lower q) = EmptyString →
     doctor_lookup_by_name (d :: rest) q = Some d) ∧
  (∀ DB q d, d ∈ DB → strip (lower (d_name d)) = EmptyString →
     ∃ d', doctor_lookup_by_name DB q = Some d') ∧
  (∀ DB q d, d ∈ DB → strip (lower (d_name d)) = strip (lower q) →
     ∃ d' before after,
       doctor_lookup_by_name DB q = Some d' ∧
       DB = before ++ d' :: after ∧ (d ∉ before) ∧
       name_matches (strip (lower q)) d' = true) ∧
  (∀ DB q, doctor_lookup_by_name DB q = None ↔
           ∀ d, d ∈ DB → name_matches (strip (lower q)) d = false).
Proof.
  assert (Hself : ∀ x d, strip (lower (d_name d)) = x → name_matches x d = true).
  { intros x d <-. unfold name_matches.
    assert (str_in (strip (lower (d_name d))) (strip (lower (d_name d))) = true) as ->; [|done].
    apply str_in_spec. exists EmptyString, EmptyString.
    rewrite append_nil. induction (strip _) as [|c s' IHs]; [done|].
    by rewrite append_cons, <- IHs. }
  assert (Hblankq : ∀ d, name_matches EmptyString d = true).
  { intros d. unfold name_matches. by rewrite str_in_empty. }
  assert (Hblankd : ∀ x d, strip (lower (d_name d)) = EmptyString → name_matches x d = true).
  { intros x d Hd. unfold name_matches. rewrite Hd, str_in_empty. apply orb_true_r. }
  split; [|split; [|split]].
  - intros d rest q Hq. unfold doctor_lookup_by_name. rewrite Hq. cbn [first_by_name].
    by rewrite Hblankq.
  - intros DB q d Hd Hname. unfold doctor_lookup_by_name.
    pose proof (first_by_name_spec DB (strip (lower q))) as Hspec.
    destruct (first_by_name DB (strip (lower q))) as [d'|]; [eauto|].
    specialize (Hspec d Hd). rewrite (Hblankd _ d Hname) in Hspec.
    discriminate Hspec.
  - intros DB q d Hd Hname. unfold doctor_lookup_by_name.
    pose proof (first_by_name_spec DB (strip (lower q))) as Hspec.
    destruct (first_by_name DB (strip (lower q))) as [d'|].
    + destruct Hspec as (Hm & before & after & HDB & Hbefore).
      exists d', before, after. repeat split; try done.
      intros Hin. specialize (Hbefore d Hin). rewrite (Hself _ d Hname) in Hbefore.
      discriminate Hbefore.
    + specialize (Hspec d Hd). rewrite (Hself _ d Hname) in Hspec. discriminate Hspec.
  - intros DB q. unfold doctor_lookup_by_name.
    pose proof (first_by_name_spec DB (strip (lower q))) as Hspec.
    destruct (first_by_name DB (strip (lower q))) as [d'|].
    + destruct Hspec as (Hm & before & after & -> & _). split; [done|].
      intros Hall. rewrite Hall in Hm; [done|]. apply elem_of_app. right. left.
    + done.
Qed.

(** ** The client's date phrases *)

Section ClientFacts.
Context {W : Type} `{!World W}.
Variable fromisoformat_ok : string → bool.




End ClientFacts.

(** ** More on the booking transaction *)

Section BookingMore.
Context {W : Type} `{!World W}.
Variable MIN_LEAD_MINUTES : Z.
Variable DB : list Doctor.

(** X7. A start before now plus the lead time is refused with the
    lead-time error and nothing but the clock is consulted: by the booking
    tool once the doctor, the times (end after start) and the email have
    been accepted, by the reschedule tool whatever the end, the event and
    the email are. *)
Theorem X7_start_inside_lead_time_is_refused
    (doctor : Doctor) (s now : Z) (w w1 : W) :
  datetime_now w = (now, w1) →
  s < now + timedelta_minutes MIN_LEAD_MINUTES →
  (∀ fuel req e,
     _find_doctor DB (b_doctor_id req) = Some doctor →
     b_start req = Some s → b_end req = Some e → s < e →
     valid_email (patient_email req) = true →
     appointment_book_tool MIN_LEAD_MINUTES DB fuel req w
     = Some (BookError (ERR_LEAD_TIME "booked" MIN_LEAD_MINUTES), w1)) ∧
  (∀ doctor_id event_id e patient_email,
     _find_doctor DB doctor_id = Some doctor →
     reschedule_tool MIN_LEAD_MINUTES DB doctor_id event_id (Some s) (Some e)
       patient_email w
     = Some (RescheduleError (ERR_LEAD_TIME "rescheduled" MIN_LEAD_MINUTES), w1)).
Proof.
  intros Hnow Hlead. split.
  - intros fuel req e Hdoc Hs He Hlt Hemail.
    unfold appointment_book_tool. rewrite Hdoc, Hs, He.
    destruct (Z.leb_spec e s); [lia|]. rewrite Hemail. cbn [negb].
    unfold bind at 1, call. rewrite Hnow.
    destruct (Z.ltb_spec s (now + timedelta_minutes MIN_LEAD_MINUTES)); [done|lia].
  - intros doctor_id event_id e patient_email Hdoc.
    unfold reschedule_tool. rewrite Hdoc. unfold bind at 1, call. rewrite Hnow.
    destruct (Z.ltb_spec s (now + timedelta_minutes MIN_LEAD_MINUTES)); [done|lia].
Qed.

(** A busy list comes from the credentials being found and the query
    being answered. *)
Lemma freebusy_returned doctor time_min time_max busy (w w2 : W) :
  freebusy doctor time_min time_max w = Some (Returned busy, w2) →
  ∃ w1, _google_service w = (Returned (), w1) ∧
        freebusy_query (calendar_id doctor) time_min time_max w1 = (Returned busy, w2).
Proof.
  unfold freebusy, bind, call, ret.
  destruct (_google_service w) as [[[]|msg] w1]; [|discriminate].
  intros [= Hq]. eauto.
Qed.

(** X8. A booking that succeeds has passed every check in order: known
    doctor, end after start, acceptable email, lead time, containment in a
    schedule window, a fresh free/busy query of the doctor's calendar over
    the requested interval answered without overlap, and the guard: either
    the recomputed free list of the day holds the start, or the
    recomputation raised and the guard was skipped.  The answer is the one
    of the commit that follows. *)
Theorem X8_booked_only_after_every_check
    (fuel : nat) (req : BookRequest) (w w' : W)
    (message : string) (link : option string) (id : string)
    (ok : bool) (err : option string) :
  appointment_book_tool MIN_LEAD_MINUTES DB fuel req w
  = Some (Booked message link id ok err, w') →
  ∃ doctor s e now w1 w1' busy w2 w3,
    passes_early_checks MIN_LEAD_MINUTES DB req doctor s e now w w1 ∧
    _within_schedule doctor s e = true ∧
    _google_service w1 = (Returned (), w1') ∧
    freebusy_query (calendar_id doctor) s e w1' = (Returned busy, w2) ∧
    (∀ b, b ∈ busy → ¬ overlap (s, e) b) ∧
    ((∃ slots meta,
        _compute_free_slots_for_date MIN_LEAD_MINUTES fuel doctor
          (IsoDate (date_of s)) ((e - s) / MINUTE) w2
        = Some (Returned (slots, meta), w3) ∧
        strftime_HM s ∈ slots) ∨
     (∃ exc,
        _compute_free_slots_for_date MIN_LEAD_MINUTES fuel doctor
          (IsoDate (date_of s)) ((e - s) / MINUTE) w2
        = Some (Raised exc, w3))) ∧
    commit_booking doctor req s e w3 = Some (Booked message link id ok err, w').
Proof.
  intros H. pose proof H as H0. unfold appointment_book_tool in H0.
  destruct (_find_doctor DB (b_doctor_id req)) as [doctor|] eqn:Hdoc; [|discriminate].
  destruct (b_start req) as [s|] eqn:Hs; [|discriminate].
  destruct (b_end req) as [e|] eqn:He; [|discriminate].
  destruct (Z.leb_spec e s) as [|Hlt]; [discriminate|].
  destruct (valid_email (patient_email req)) eqn:Hemail; cbn [negb] in H0; [|discriminate].
  unfold bind at 1, call in H0.
  destruct (datetime_now w) as [now w1] eqn:Hnow.
  destruct (Z.ltb_spec s (now + timedelta_minutes MIN_LEAD_MINUTES)) as [|Hlead];
    [discriminate|].
  clear H0.
  assert (Hearly : passes_early_checks MIN_LEAD_MINUTES DB req doctor s e now w w1)
    by (repeat split; done).
  pose proof H as H1.
  rewrite (book_after_early_checks MIN_LEAD_MINUTES DB fuel req doctor s e now w w1 Hearly)
    in H1.
  destruct (_within_schedule doctor s e) eqn:Hin; cbn [negb] in H1; [|discriminate].
  unfold bind at 1 in H1.
  destruct (freebusy_returns doctor s e w1) as (fb & w2 & Hfb).
  pose proof (slot_conflicts_spec doctor s e w1 fb w2 Hfb) as Hpre.
  rewrite Hpre in H1.
  destruct fb as [busy|msg]; [|discriminate].
  destruct (_overlaps s e busy) eqn:Hfree; [discriminate|].
  clear H1.
  rewrite (book_after_preflight MIN_LEAD_MINUTES DB fuel req doctor s e now w w1 w2
             Hearly Hin Hpre) in H.
  apply freebusy_returned in Hfb as (w1' & Hsvc & Hq).
  destruct (_compute_free_slots_for_date MIN_LEAD_MINUTES fuel doctor
              (IsoDate (date_of s)) ((e - s) / MINUTE) w2)
    as [[[[slots meta]|exc] w3]|] eqn:Hrun; [| |discriminate].
  - destruct (bool_decide_reflect (strftime_HM s ∈ slots)) as [Hlisted|]; [|discriminate].
    exists doctor, s, e, now, w1, w1', busy, w2, w3.
    split; [exact Hearly|]. split; [done|]. split; [done|]. split; [done|].
    split; [apply overlaps_spec in Hfree; by rewrite Forall_forall in Hfree|].
    split; [left; eauto|exact H].
  - exists doctor, s, e, now, w1, w1', busy, w2, w3.
    split; [exact Hearly|]. split; [done|]. split; [done|]. split; [done|].
    split; [apply overlaps_spec in Hfree; by rewrite Forall_forall in Hfree|].
    split; [right; eauto|exact H].
Qed.

(** X9. Once the event is in the calendar the answer is a success that
    carries its id and link, whatever becomes of the mails: their failure
    only shows in the mail status.  The answer of the commit is an error
    exactly when the insert, its one retry included, has failed, and then
    nothing was mailed. *)
Theorem X9_mail_failure_never_fails_a_booking
    (doctor : Doctor) (req : BookRequest) (s e : Z) (w : W) :
  (∀ created w0,
     insert_event doctor (build_event doctor req s e).1 (build_event doctor req s e).2 w
     = Some (Returned created, w0) →
     ∃ message ok err w',
       commit_booking doctor req s e w
       = Some (Booked message (ev_htmlLink created) (ev_id created) ok err, w')) ∧
  (∀ msg w',
     commit_booking doctor req s e w = Some (BookError msg, w') →
     ∃ e0,
       msg = ERR_INSERT e0 ∧
       insert_event doctor (build_event doctor req s e).1 (build_event doctor req s e).2 w
       = Some (Raised e0, w')).
Proof.
  unfold commit_booking.
  destruct (build_event doctor req s e) as [event params]. cbn [fst snd]. split.
  - intros created w0 Hins. unfold bind at 1. rewrite Hins.
    unfold bind, call, ret.
    destruct (datetime_now w0) as [? wa].
    destruct (_send_plain_email _ _ wa) as [[ok1 err1] wb].
    destruct (truthy (d_email doctor)).
    + destruct (_send_plain_email _ _ wb) as [[ok2 err2] wc]. eauto 10.
    + eauto 10.
  - intros msg w'. unfold bind at 1.
    destruct (insert_event doctor event params w) as [[[created|e0] w0]|];
      [|intros [= <- <-]; eauto|discriminate].
    unfold bind, call, ret.
    destruct (datetime_now w0) as [? wa].
    destruct (_send_plain_email _ _ wa) as [[ok1 err1] wb].
    destruct (truthy (d_email doctor)).
    + destruct (_send_plain_email _ _ wb) as [[ok2 err2] wc]. discriminate.
    + discriminate.
Qed.
End BookingMore.

(** ** Strings: concatenation, trimming, splitting *)

Lemma append_assoc a b c : (a +:+ b) +:+ c = a +:+ (b +:+ c).
Proof.
  induction a as [|x a IH]; [by rewrite !append_nil|].
  by rewrite !append_cons, IH.
Qed.

Lemma append_nil_r a : a +:+ EmptyString = a.
Proof. induction a as [|x a IH]; [done|]. by rewrite append_cons, IH. Qed.

Lemma lower_append a b : lower (a +:+ b) = lower a +:+ lower b.
Proof.
  induction a as [|x a IH]; [by rewrite !append_nil|].
  rewrite append_cons. cbn [lower]. by rewrite append_cons, IH.
Qed.

Lemma lstrip_suffix s : ∃ p, s = p +:+ lstrip s.
Proof.
  induction s as [|c s [p IH]]; [by exists EmptyString|].
  cbn [lstrip]. destruct (is_space c).
  - exists (String c p). by rewrite append_cons, <- IH.
  - by exists EmptyString.
Qed.

Lemma rstrip_prefix s : ∃ q, s = rstrip s +:+ q.
Proof.
  induction s as [|c s [q IH]]; [by exists EmptyString|].
  cbn [rstrip]. destruct (rstrip s) as [|c' r].
  - destruct (is_space c).
    + exists (String c s). by rewrite append_nil.
    + exists s. by rewrite append_cons, append_nil.
  - exists q. by rewrite append_cons, <- IH.
Qed.

Lemma strip_inside s : ∃ p q, s = p +:+ strip s +:+ q.
Proof.
  destruct (lstrip_suffix s) as [p Hp].
  destruct (rstrip_prefix (lstrip s)) as [q Hq].
  exists p, q. unfold strip. by rewrite <- Hq.
Qed.

Lemma join_inside sep x l : x ∈ l → ∃ p q, join sep l = p +:+ x +:+ q.
Proof.
  induction l as [|y l IH]; intros Hin; [inversion Hin|].
  apply elem_of_cons in Hin as [->|Hin].
  - destruct l as [|z l].
    + exists EmptyString, EmptyString. cbn [join]. by rewrite append_nil, append_nil_r.
    + exists EmptyString, (sep +:+ join sep (z :: l)). by rewrite append_nil.
  - destruct (IH Hin) as (p & q & Hj). destruct l as [|z l]; [inversion Hin|].
    exists (y +:+ sep +:+ p), q.
    change (join sep (y :: z :: l)) with (y +:+ sep +:+ join sep (z :: l)).
    by rewrite Hj, !append_assoc.
Qed.

(** An event whose description holds the patient's email as it was typed
    is the patient's for the ownership test. *)
Lemma description_makes_owner ev patient_email P Q :
  patient_email ≠ EmptyString →
  or_empty (ev_description ev) = P +:+ patient_email +:+ Q →
  _event_contains_patient ev patient_email = true.
Proof.
  intros Hne Hdesc. apply event_contains_patient_spec. split; [done|]. right.
  destruct (strip_inside (lower patient_email)) as (p & q & Hs).
  exists (lower P +:+ p), (q +:+ lower Q).
  rewrite Hdesc, !lower_append. rewrite Hs at 1. by rewrite !append_assoc.
Qed.

(** X10. The event a booking writes is the booking patient's for the
    ownership test used by list, cancel and reschedule, through the
    "Patient:" line of its description and whether or not invitations were
    asked for; and the test gives the same answer on an event after its
    start and end have been replaced by a reschedule or its conference
    request removed by the insert retry. *)
Theorem X10_booked_event_is_owned_by_its_patient
    (doctor : Doctor) (req : BookRequest) (s e : Z) :
  patient_email req ≠ EmptyString →
  _event_contains_patient (build_event doctor req s e).1 (patient_email req) = true ∧
  (∀ ev p s' e',
     _event_contains_patient (set_start_end ev s' e') p = _event_contains_patient ev p) ∧
  (∀ ev p, _event_contains_patient (pop_conference ev) p = _event_contains_patient ev p).
Proof.
  intros Hne. split; [|split; reflexivity].
  set (line := "Patient: " +:+ patient_name req +:+ " <" +:+ patient_email req +:+ ">").
  assert (∃ p q, or_empty (ev_description (build_event doctor req s e).1)
                 = p +:+ line +:+ q) as (p & q & Hdesc).
  { cbn [build_event fst ev_description or_empty default].
    apply join_inside. rewrite !elem_of_app. left.
    do 3 right. left. }
  eapply (description_makes_owner _ _ (p +:+ "Patient: " +:+ patient_name req +:+ " <")
            (">" +:+ q)); [done|].
  rewrite Hdesc. unfold line. by rewrite !append_assoc.
Qed.

Lemma request_email_not_empty s e : patient_email (request s e) ≠ EmptyString.
Proof. discriminate. Qed.

Lemma X10_witness_pat :
  _event_contains_patient
    (build_event doctor_D (request (at_ TUESDAY 11 0) (at_ TUESDAY 11 30))
       (at_ TUESDAY 11 0) (at_ TUESDAY 11 30)).1
    "pat@example.org" = true.
Proof.
  exact (proj1 (X10_booked_event_is_owned_by_its_patient doctor_D
                  (request (at_ TUESDAY 11 0) (at_ TUESDAY 11 30))
                  (at_ TUESDAY 11 0) (at_ TUESDAY 11 30)
                  (request_email_not_empty _ _))).
Defined.

Lemma char_in_append c a b : char_in c (a +:+ b) = (char_in c a || char_in c b)%bool.
Proof.
  induction a as [|x a IH]; [by rewrite append_nil|].
  rewrite append_cons. cbn [char_in]. rewrite IH. by destruct (Ascii.eqb c x).
Qed.

Lemma split_no_sep sep b : char_in sep b = false → split sep b = [b].
Proof.
  induction b as [|c b IH]; [done|]. cbn [char_in split].
  destruct (Ascii.eqb_spec sep c) as [->|Hne]; [discriminate|].
  intros Hb. rewrite (IH Hb).
  destruct (Ascii.eqb_spec c sep) as [->|_]; [done|done].
Qed.

Lemma split_not_nil sep s : split sep s ≠ [].
Proof.
  induction s as [|c s IH]; [done|]. cbn [split].
  destruct (Ascii.eqb c sep); [done|]. by destruct (split sep s).
Qed.

Lemma split_append_sep sep a b :
  split sep (a +:+ String sep b) = split sep a ++ split sep b.
Proof.
  induction a as [|c a IH].
  - rewrite append_nil. cbn [split]. by rewrite Ascii.eqb_refl.
  - rewrite append_cons. cbn [split]. rewrite IH.
    destruct (Ascii.eqb c sep); [done|].
    pose proof (split_not_nil sep a). by destruct (split sep a).
Qed.

Lemma last_sep_exists sep s :
  char_in sep s = true → ∃ a b, s = a +:+ String sep b ∧ char_in sep b = false.
Proof.
  induction s as [|c s IH]; [done|]. cbn [char_in]. intros Hc.
  destruct (char_in sep s) eqn:Hs.
  - destruct (IH eq_refl) as (a & b & -> & Hb). exists (String c a), b.
    by rewrite append_cons.
  - destruct (Ascii.eqb_spec sep c) as [->|]; [|done].
    exists EmptyString, s. by rewrite append_nil.
Qed.

Lemma after_last_at_spec a b :
  char_in "@" b = false → after_last_at (a +:+ String "@" b) = b.
Proof.
  intros Hb. unfold after_last_at.
  rewrite split_append_sep, (split_no_sep _ b Hb). apply last_last.
Qed.

(** X11. The email check of the booking tool accepts exactly the texts
    that have a dot somewhere after their last "@": nothing is asked of what
    stands before the "@", nor of the dot's position, so "@." passes. *)
Theorem X11_email_check_is_dot_after_last_at (e : string) :
  valid_email e = true ↔
  ∃ a b, e = a +:+ "@" +:+ b ∧ char_in "@" b = false ∧ char_in "." b = true.
Proof.
  unfold valid_email. rewrite andb_true_iff. split.
  - intros [Hat Hdot]. apply last_sep_exists in Hat as (a & b & -> & Hb).
    exists a, b. rewrite after_last_at_spec in Hdot by done. done.
  - intros (a & b & -> & Hb & Hdot).
    change ("@" +:+ b) with (String "@" b).
    rewrite after_last_at_spec by done. split; [|done].
    rewrite char_in_append. cbn [char_in]. rewrite Ascii.eqb_refl. apply orb_true_r.
Qed.

(** ** Schedule containment *)

Lemma within_windows_spec day s e windows :
  within_windows day s e windows = true ↔
  ∃ w, w ∈ parsed_windows windows ∧ within day (s, e) w.
Proof.
  unfold within. cbn [fst snd].
  induction windows as [|win rest IH].
  - cbn. split; [discriminate|]. intros (w & Hw & _). inversion Hw.
  - cbn [within_windows]. rewrite parsed_windows_cons.
    destruct (parse_window win) as [[a b]|]; [|exact IH].
    destruct (Z.leb_spec (combine day a) s) as [Ha|Ha];
      [destruct (Z.leb_spec e (combine day b)) as [Hb|Hb]|]; cbn [andb].
    + split; [|done]. intros _. exists (a, b). split; [left|done].
    + rewrite IH. split.
      * intros (w & Hw & Hin). exists w. split; [by right|done].
      * intros (w & Hw & Hin). apply elem_of_cons in Hw as [->|Hw]; [cbn in Hin; lia|eauto].
    + rewrite IH. split.
      * intros (w & Hw & Hin). exists w. split; [by right|done].
      * intros (w & Hw & Hin). apply elem_of_cons in Hw as [->|Hw]; [cbn in Hin; lia|eauto].
Qed.

Lemma parsed_windows_range windows w :
  w ∈ parsed_windows windows → (0 ≤ w.1 < DAY) ∧ (0 ≤ w.2 < DAY).
Proof.
  induction windows as [|win rest IH]; [intros Hw; inversion Hw|].
  rewrite parsed_windows_cons.
  destruct (parse_window win) as [[a b]|] eqn:Hp; [|exact IH].
  intros [->|Hw]%elem_of_cons; [|by apply IH].
  by apply parse_window_range in Hp.
Qed.

(** A time between a window's start and end on [day] is a time of [day]. *)
Lemma date_of_in_window day w x :
  (0 ≤ w.1 < DAY) → (0 ≤ w.2 < DAY) →
  combine day w.1 ≤ x ≤ combine day w.2 → date_of x = day.
Proof.
  unfold combine, date_of, DAY, HOUR, MINUTE. intros ? ? ?.
  symmetry. apply (Z.div_unique x _ day (x - day * 86400000000)); lia.
Qed.

(** X12. Every slot range the slot generator produces for a day passes
    the schedule check of the booking and reschedule tools, whatever the slot
    length: no slot offered by the availability tools can be refused as
    lying outside clinic hours. *)
Theorem X12_every_generated_slot_is_within_schedule
    (doctor : Doctor) (fuel : nat) (day slot_minutes : Z)
    (slot_ranges : list (Z * Z)) (earliest latest : option Z) (c : Z * Z) :
  0 < slot_minutes →
  scan_windows fuel day slot_minutes
    (default [] (weekly_schedule doctor !! strftime_a day)) ([], None, None)
  = Some (Returned (slot_ranges, earliest, latest)) →
  c ∈ slot_ranges →
  _within_schedule doctor c.1 c.2 = true.
Proof.
  intros Hslot Hscan Hc.
  destruct (scan_windows_returned day slot_minutes fuel Hslot _ _ _ _ _ _ _ Hscan)
    as (-> & _). cbn [app] in Hc.
  destruct (candidate_within _ _ _ _ Hslot Hc) as [Hlt (w & Hw & Hin)].
  destruct (parsed_windows_range _ _ Hw) as [Hw1 Hw2].
  assert (date_of c.1 = day) as Hday.
  { apply (date_of_in_window day w); [done|done|]. unfold within in Hin. lia. }
  unfold _within_schedule. rewrite Hday.
  apply within_windows_spec. exists w. split; [done|]. by destruct c.
Qed.

Lemma X12_witness_doctor_D_first_half_hour :
  _within_schedule doctor_D (at_ TUESDAY 11 0) (at_ TUESDAY 11 30) = true.
Proof.
  apply (X12_every_generated_slot_is_within_schedule doctor_D 5 TUESDAY 30
           half_hours_D (Some (at_ TUESDAY 11 0)) (Some (at_ TUESDAY 13 0))
           (at_ TUESDAY 11 0, at_ TUESDAY 11 30)).
  - lia.
  - vm_compute. reflexivity.
  - left.
Defined.

(** X13. The schedule check accepts an interval exactly when one single
    window of the weekday of its start, taken on the start's date, holds both
    its start and its end: an interval that runs across two adjoining
    windows is refused, and so is any interval that ends at or after the
    midnight following its start. *)
Theorem X13_within_schedule_means_one_window_of_the_start_day
    (doctor : Doctor) (start_local end_local : Z) :
  (_within_schedule doctor start_local end_local = true ↔
   ∃ w, w ∈ parsed_windows
              (default [] (weekly_schedule doctor !! strftime_a (date_of start_local))) ∧
        within (date_of start_local) (start_local, end_local) w) ∧
  (_within_schedule doctor start_local end_local = true →
   end_local < (date_of start_local + 1) * DAY).
Proof.
  assert (Hiff : _within_schedule doctor start_local end_local = true ↔
   ∃ w, w ∈ parsed_windows
              (default [] (weekly_schedule doctor !! strftime_a (date_of start_local))) ∧
        within (date_of start_local) (start_local, end_local) w).
  { unfold _within_schedule. apply within_windows_spec. }
  split; [exact Hiff|]. intros Hin. apply Hiff in Hin as (w & Hw & _ & He).
  destruct (parsed_windows_range _ _ Hw) as [_ Hw2].
  cbn [snd] in He. unfold combine in He. lia.
Qed.

(** ** The clock, read to the minute *)

Lemma date_of_minutes x : date_of x = (x / MINUTE) / 1440.
Proof. unfold date_of, DAY, HOUR, MINUTE. Z.div_mod_to_equations. lia. Qed.

Lemma strftime_HM_minutes x :
  strftime_HM x
  = two_digits (((x / MINUTE) mod 1440) / 60) +:+ ":" +:+ two_digits ((x / MINUTE) mod 60).
Proof.
  unfold strftime_HM. cbv zeta. f_equal; [f_equal|f_equal; f_equal];
    unfold DAY, HOUR, MINUTE; Z.div_mod_to_equations; lia.
Qed.

Section GuardFacts.
Context {W : Type} `{!World W}.
Variable MIN_LEAD_MINUTES : Z.

(** X14. The guard that looks the requested start up in the recomputed
    free list reads the request to the minute only: two requests whose starts
    fall in the same minute and whose lengths have the same number of whole
    minutes get the same verdict from the same computation, so a start of
    11:00:30 is looked up as the slot 11:00. *)
Theorem X14_slot_guard_reads_the_request_to_the_minute
    (fuel : nat) (doctor : Doctor) (s e s' e' : Z) :
  s / MINUTE = s' / MINUTE →
  (e - s) / MINUTE = (e' - s') / MINUTE →
  slot_guard (W:=W) MIN_LEAD_MINUTES fuel doctor s e
  = slot_guard MIN_LEAD_MINUTES fuel doctor s' e'.
Proof.
  intros Hs Hlen. unfold slot_guard. cbv zeta.
  rewrite !strftime_HM_minutes, !date_of_minutes, Hs, Hlen. reflexivity.
Qed.
End GuardFacts.

Lemma X14_witness_half_a_minute_late :
  slot_guard 0 1441 doctor_D
    (at_ TUESDAY 11 0 + 30000000) (at_ TUESDAY 11 30 + 30000000)
  = slot_guard (W:=Fake) 0 1441 doctor_D (at_ TUESDAY 11 0) (at_ TUESDAY 11 30).
Proof.
  apply (@X14_slot_guard_reads_the_request_to_the_minute Fake fake_world 0 1441 doctor_D);
    by_evaluation.
Defined.

(** ** Listing and cancelling *)

Lemma find_doctor_some DB id d :
  _find_doctor DB id = Some d → d ∈ DB ∧ doctor_id d = id.
Proof.
  induction DB as [|d0 rest IH]; cbn [_find_doctor]; [discriminate|].
  destruct (String.eqb_spec (doctor_id d0) id) as [Heq|Hne].
  - intros [= <-]. split; [left|done].
  - intros Hf. destruct (IH Hf). split; [by right|done].
Qed.

Section LifecycleMore.
Context {W : Type} `{!World W}.
Variable DB : list Doctor.

(** What the calendar loop adds to [results]: summaries of events that a
    listing of one of the calendars returned and that pass the ownership
    test. *)
Lemma list_calendars_sound patient_email time_min time_max calendars :
  ∀ results (w w' : W) res,
    list_calendars patient_email time_min time_max calendars results w = Some (res, w') →
    ∃ more, res = results ++ more ∧
      ∀ a, a ∈ more →
        ∃ d ev evs (wa wb : W),
          d ∈ calendars ∧
          events_list (calendar_id d) time_min time_max wa = (Returned evs, wb) ∧
          ev ∈ evs ∧ _event_contains_patient ev patient_email = true ∧
          a = summarize d ev.
Proof.
  induction calendars as [|d rest IH]; intros results w w' res.
  - cbn. intros [= <- <-]. exists []. rewrite app_nil_r. split; [done|].
    intros a Ha. inversion Ha.
  - cbn [list_calendars]. unfold bind at 1, call.
    destruct (events_list (calendar_id d) time_min time_max w) as [[evs|msg] w1] eqn:Hl.
    + intros Hrun. apply IH in Hrun as (more & -> & Hmore).
      exists (map (summarize d)
                (filter (λ ev, _event_contains_patient ev patient_email = true) evs)
              ++ more).
      split; [by rewrite app_assoc|]. intros a Ha.
      apply elem_of_app in Ha as [Ha|Ha].
      * apply list_elem_of_fmap in Ha as (ev & -> & Hev).
        apply list_elem_of_filter in Hev as [Hown Hev].
        exists d, ev, evs, w, w1. split; [left|done].
      * destruct (Hmore a Ha) as (d' & ev & evs' & wa & wb & Hd & Hrest).
        exists d', ev, evs', wa, wb. split; [by right|done].
    + intros Hrun. apply IH in Hrun as (more & -> & Hmore).
      exists more. split; [done|]. intros a Ha.
      destruct (Hmore a Ha) as (d' & ev & evs' & wa & wb & Hd & Hrest).
      exists d', ev, evs', wa, wb. split; [by right|done].
Qed.

(** X15. Whatever the list tool returns as events was asked for with a
    patient email, and each entry summarises an event that a listing of a
    directory calendar returned for the window from now to now plus
    [window_days] days and that passes the ownership test for that email;
    when a doctor is named, the calendar is that doctor's. *)
Theorem X15_listed_appointments_are_the_patients_own
    (for_doctor patient_email : option string) (window_days : Z)
    (w w' : W) (res : list AppointmentSummary) :
  list_appointments_tool DB for_doctor patient_email window_days w
  = Some (ListEvents res, w') →
  truthy patient_email = true ∧
  ∃ w1 now w2,
    _google_service w = (Returned (), w1) ∧ datetime_now w1 = (now, w2) ∧
    ∀ a, a ∈ res →
      ∃ d ev evs (wa wb : W),
        d ∈ DB ∧
        (truthy for_doctor = true → doctor_id d = or_empty for_doctor) ∧
        events_list (calendar_id d) now (now + window_days * DAY) wa
        = (Returned evs, wb) ∧
        ev ∈ evs ∧ _event_contains_patient ev (or_empty patient_email) = true ∧
        a = summarize d ev.
Proof.
  unfold list_appointments_tool.
  destruct (truthy patient_email); cbn [negb]; [|discriminate].
  unfold bind at 1, call.
  destruct (_google_service w) as [[[]|msg] w1] eqn:Hsvc; [|discriminate].
  intros Hrun. split; [done|].
  destruct (truthy for_doctor) eqn:Hdoc.
  - destruct (_find_doctor DB (or_empty for_doctor)) as [d|] eqn:Hfind; [|discriminate].
    apply find_doctor_some in Hfind as [Hin Hid].
    unfold bind at 1, call in Hrun. destruct (datetime_now w1) as [now w2] eqn:Hnow.
    unfold bind at 1 in Hrun.
    destruct (list_calendars _ _ _ _ _ w2) as [[results w3]|] eqn:Hloop; [|discriminate].
    injection Hrun as <- <-. exists w1, now, w2. split; [done|]. split; [done|].
    apply list_calendars_sound in Hloop as (more & -> & Hmore). cbn [app].
    intros a Ha. destruct (Hmore a Ha) as (d' & ev & evs & wa & wb & Hd & Hrest).
    apply list_elem_of_singleton in Hd as ->.
    exists d, ev, evs, wa, wb. split; [done|]. split; [done|]. exact Hrest.
  - unfold bind at 1, call in Hrun. destruct (datetime_now w1) as [now w2] eqn:Hnow.
    unfold bind at 1 in Hrun.
    destruct (list_calendars _ _ _ _ _ w2) as [[results w3]|] eqn:Hloop; [|discriminate].
    injection Hrun as <- <-. exists w1, now, w2. split; [done|]. split; [done|].
    apply list_calendars_sound in Hloop as (more & -> & Hmore). cbn [app].
    intros a Ha. destruct (Hmore a Ha) as (d' & ev & evs & wa & wb & Hd & Hrest).
    exists d', ev, evs, wa, wb. split; [done|]. split; [discriminate|]. exact Hrest.
Qed.

(** X16. A cancel that succeeds has found the doctor, fetched the event
    with that id from the doctor's calendar, found the patient to own it and
    made one delete of that same id; when the fetched event is not the
    patient's, the answer is the unauthorized error and the world is the one
    right after the fetch, no delete having been made. *)
Theorem X16_cancel_deletes_only_an_owned_event
    (doctor_id event_id patient_email : string) (notify : bool)
    (w w' : W) (r : CancelResponse) :
  cancel_appointment_tool DB doctor_id event_id patient_email notify w = Some (r, w') →
  (r = CancelOk →
   ∃ d w1 ev w2,
     _find_doctor DB doctor_id = Some d ∧
     _google_service w = (Returned (), w1) ∧
     events_get (calendar_id d) event_id w1 = (Returned ev, w2) ∧
     _event_contains_patient ev patient_email = true ∧
     events_delete (calendar_id d) event_id notify w2 = (Returned (), w')) ∧
  (∀ d w1 ev w2,
     _find_doctor DB doctor_id = Some d →
     _google_service w = (Returned (), w1) →
     events_get (calendar_id d) event_id w1 = (Returned ev, w2) →
     _event_contains_patient ev patient_email = false →
     r = CancelError ERR_UNAUTHORIZED ∧ w' = w2).
Proof.
  unfold cancel_appointment_tool.
  destruct (_find_doctor DB doctor_id) as [d|] eqn:Hdoc.
  2:{ intros [= <- <-]. split; [discriminate|]. intros; congruence. }
  unfold bind, call, ret.
  destruct (_google_service w) as [[[]|msg] w1] eqn:Hsvc.
  2:{ intros [= <- <-]. split; [discriminate|]. intros; congruence. }
  destruct (events_get (calendar_id d) event_id w1) as [[ev|msg] w2] eqn:Hget.
  2:{ intros [= <- <-]. split; [discriminate|]. intros; congruence. }
  destruct (_event_contains_patient ev patient_email) eqn:Hown; cbn [negb].
  2:{ intros [= <- <-]. split; [discriminate|].
      intros d' w1' ev' w2' [= <-] [= <-] Hget' _. split; [done|]. congruence. }
  destruct (events_delete (calendar_id d) event_id notify w2) as [[[]|msg] w3] eqn:Hdel.
  2:{ intros [= <- <-]. split; [discriminate|].
      intros d' w1' ev' w2' [= <-] [= <-] Hget'. congruence. }
  intros [= <- <-]. split.
  - intros _. exists d, w1, ev, w2. done.
  - intros d' w1' ev' w2' [= <-] [= <-] Hget'. congruence.
Qed.
End LifecycleMore.

Lemma X7_witness_one_hour_ahead :
  appointment_book_tool 120 [doctor_D] 1441
    (request (at_ (TUESDAY - 1) 13 0) (at_ (TUESDAY - 1) 13 30)) monday_noon
  = Some (BookError (ERR_LEAD_TIME "booked" 120), monday_noon).
Proof.
  apply (proj1 (@X7_start_inside_lead_time_is_refused Fake fake_world 120 [doctor_D]
                  doctor_D (at_ (TUESDAY - 1) 13 0) (fk_now monday_noon)
                  monday_noon monday_noon eq_refl ltac:(by_evaluation))
           1441%nat (request (at_ (TUESDAY - 1) 13 0) (at_ (TUESDAY - 1) 13 30))
           (at_ (TUESDAY - 1) 13 30));
    by_evaluation.
Defined.

Lemma X8_witness_first_half_hour_booked :
  ∃ w' doctor s e now w1 w1' busy w2 w3,
    passes_early_checks 0 [doctor_D]
      (request (at_ TUESDAY 11 0) (at_ TUESDAY 11 30)) doctor s e now monday_noon w1 ∧
    _within_schedule doctor s e = true ∧
    _google_service w1 = (Returned (), w1') ∧
    freebusy_query (calendar_id doctor) s e w1' = (Returned busy, w2) ∧
    (∀ b, b ∈ busy → ¬ overlap (s, e) b) ∧
    ((∃ slots meta,
        _compute_free_slots_for_date 0 1441 doctor
          (IsoDate (date_of s)) ((e - s) / MINUTE) w2
        = Some (Returned (slots, meta), w3) ∧
        strftime_HM s ∈ slots) ∨
     (∃ exc,
        _compute_free_slots_for_date 0 1441 doctor
          (IsoDate (date_of s)) ((e - s) / MINUTE) w2
        = Some (Raised exc, w3))) ∧
    commit_booking doctor (request (at_ TUESDAY 11 0) (at_ TUESDAY 11 30)) s e w3
    = Some (Booked "Appointment booked successfully."
              (Some "https://calendar.example/evt0") "evt0" true None, w').
Proof.
  assert (∃ w',
            appointment_book_tool 0 [doctor_D] 1441
              (request (at_ TUESDAY 11 0) (at_ TUESDAY 11 30)) monday_noon
            = Some (Booked "Appointment booked successfully."
                      (Some "https://calendar.example/evt0") "evt0" true None, w'))
    as [w' Hrun] by (eexists; vm_compute; reflexivity).
  exists w'.
  exact (@X8_booked_only_after_every_check Fake fake_world 0 [doctor_D] 1441
           (request (at_ TUESDAY 11 0) (at_ TUESDAY 11 30)) monday_noon w'
           _ _ _ _ _ Hrun).
Defined.

Lemma X15_witness_pat_lists_one_event :
  truthy (Some "pat@example.org") = true ∧
  ∃ w1 now w2,
    _google_service monday_with_event = (Returned (), w1) ∧ datetime_now w1 = (now, w2) ∧
    ∀ a, a ∈ [summarize doctor_D patient_event] →
      ∃ d ev evs (wa wb : Fake),
        d ∈ [doctor_D] ∧
        (truthy (Some "D") = true → doctor_id d = or_empty (Some "D")) ∧
        events_list (calendar_id d) now (now + 30 * DAY) wa = (Returned evs, wb) ∧
        ev ∈ evs ∧ _event_contains_patient ev (or_empty (Some "pat@example.org")) = true ∧
        a = summarize d ev.
Proof.
  apply (@X15_listed_appointments_are_the_patients_own Fake fake_world [doctor_D]
           (Some "D") (Some "pat@example.org") 30 monday_with_event monday_with_event).
  by_evaluation.
Defined.

Lemma X16_witness_pat_cancels_own_event :
  ∃ d w1 ev w2,
    _find_doctor [doctor_D] "D" = Some d ∧
    _google_service monday_with_event = (Returned (), w1) ∧
    events_get (calendar_id d) "evt0" w1 = (Returned ev, w2) ∧
    _event_contains_patient ev "pat@example.org" = true ∧
    events_delete (calendar_id d) "evt0" true w2
    = (Returned (), fk_set_events monday_with_event []).
Proof.
  apply (proj1 (@X16_cancel_deletes_only_an_owned_event Fake fake_world [doctor_D]
                  "D" "evt0" "pat@example.org" true monday_with_event
                  (fk_set_events monday_with_event []) CancelOk
                  ltac:(by_evaluation))).
  reflexivity.
Defined.

(** ** Availability over several days *)

Section AvailabilityMore.
Context {W : Type} `{!World W}.
Variable MIN_LEAD_MINUTES : Z.
Variable DB : list Doctor.

(** A code comes with the empty lists and with them only. *)
Lemma compute_code_iff_empty fuel doctor date slot_minutes (w w' : W) slots meta :
  _compute_free_slots_for_date MIN_LEAD_MINUTES fuel doctor date slot_minutes w
  = Some (Returned (slots, meta), w') →
  (slots = [] ↔ is_Some meta).
Proof.
  assert (Hempty : ∀ c : MetaCode, ([] : list string) = [] ↔ is_Some (Some c))
    by (intros c; split; eauto).
  unfold _compute_free_slots_for_date.
  destruct (fromisoformat_date date) as [day|]; [|intros [= <- <- <-]; apply Hempty].
  destruct (default [] (weekly_schedule doctor !! strftime_a day)) as [|w0 ws];
    [intros [= <- <- <-]; apply Hempty|].
  destruct (scan_windows _ _ _ _ _) as [[[[ranges [e|]] [l|]]|exc]|];
    try (intros [= <- <- <-]; apply Hempty); try (intros Hc; discriminate Hc).
  unfold bind at 1.
  destruct (freebusy doctor e l w) as [[[busy|msg] w1]|];
    [|intros [= <- <- <-]; apply Hempty|intros Hc; discriminate Hc].
  unfold bind, call, ret. destruct (datetime_now w1) as [now w2].
  destruct (free_slots_loop _ _ _ _) as [|x free].
  - intros [= <- <- <-]. apply Hempty.
  - intros [= <- <- <-]. split; [discriminate|]. intros [c Hc]. discriminate Hc.
Qed.

Lemma range_loop_returns fuel doctor slot_minutes :
  0 < slot_minutes → (1441 ≤ fuel)%nat →
  ∀ (n : nat) day result_map (w : W),
    (∀ d, day ≤ d < day + Z.of_nat n → in_calendar d slot_minutes) →
    ∃ dates w',
      range_loop MIN_LEAD_MINUTES fuel doctor slot_minutes n day result_map w
      = Some (Returned dates, w').
Proof.
  intros Hslot Hfuel. induction n as [|n IH]; intros day result_map w Hcal.
  - eexists _, _. reflexivity.
  - cbn [range_loop]. unfold bind at 1.
    assert (Hday : in_calendar day slot_minutes) by (apply Hcal; lia).
    destruct (compute_returns MIN_LEAD_MINUTES fuel doctor day slot_minutes w
                Hslot Hday Hfuel) as ([slots meta] & w1 & ->).
    rewrite (in_calendar_next day slot_minutes Hslot Hday).
    apply IH. intros d Hd. apply Hcal. lia.
Qed.

Lemma availability_range_runs fuel doctor_id doctor d1 d2 slot_minutes (w : W) :
  _find_doctor DB doctor_id = Some doctor →
  availability_tool MIN_LEAD_MINUTES DB fuel doctor_id (IsoDate d1) slot_minutes
    (IsoDate d2) w
  = match range_loop MIN_LEAD_MINUTES fuel doctor slot_minutes
            (Z.to_nat (d1 `max` d2 - d1 `min` d2 + 1)) (d1 `min` d2) ∅ w with
    | Some (Returned dates, w') => Some (Returned (AvDates dates), w')
    | Some (Raised exc, w') => Some (Raised exc, w')
    | None => None
    end.
Proof.
  intros Hdoc. unfold availability_tool. rewrite Hdoc.
  unfold bind at 1. unfold ret at 1. cbn [fromisoformat_date]. unfold bind at 1.
  destruct (Z.ltb_spec d2 d1).
  - rewrite Z.max_l, Z.min_r by lia.
    by destruct (range_loop _ _ _ _ _ _ _ w) as [[[]]|].
  - rewrite Z.max_r, Z.min_l by lia.
    by destruct (range_loop _ _ _ _ _ _ _ w) as [[[]]|].
Qed.

(** X17. For a known doctor, a positive slot length and two dates such
    that the slots of the later one stay in the calendar, the date-range
    form of the availability tool returns a map whose dates are exactly the
    days from the earlier to the later of the two dates, both included, and
    the answer is the same whichever of the two is given first. *)
Theorem X17_date_range_covers_the_days_between_in_either_order
    (fuel : nat) (doctor_id : string) (doctor : Doctor) (d1 d2 slot_minutes : Z) (w : W) :
  0 < slot_minutes → (1441 ≤ fuel)%nat →
  _find_doctor DB doctor_id = Some doctor →
  DATE_MIN ≤ d1 `min` d2 → in_calendar (d1 `max` d2) slot_minutes →
  ∃ dates w',
    availability_tool MIN_LEAD_MINUTES DB fuel doctor_id (IsoDate d1) slot_minutes
      (IsoDate d2) w = Some (Returned (AvDates dates), w') ∧
    availability_tool MIN_LEAD_MINUTES DB fuel doctor_id (IsoDate d2) slot_minutes
      (IsoDate d1) w = Some (Returned (AvDates dates), w') ∧
    ∀ d, is_Some (dates !! d) ↔ d1 `min` d2 ≤ d ≤ d1 `max` d2.
Proof.
  intros Hslot Hfuel Hdoc Hmin Hcal.
  rewrite !(availability_range_runs _ _ doctor) by done.
  rewrite (Z.max_comm d2 d1), (Z.min_comm d2 d1).
  destruct (range_loop_returns fuel doctor slot_minutes Hslot Hfuel
              (Z.to_nat (d1 `max` d2 - d1 `min` d2 + 1)) (d1 `min` d2) ∅ w)
    as (dates & w' & Hloop).
  { intros d Hd. apply (in_calendar_before (d1 `max` d2)); [lia|done]. }
  rewrite Hloop. exists dates, w'. split; [done|]. split; [done|].
  apply range_loop_entries in Hloop as [Hout Hin]. intros d.
  destruct (decide (d1 `min` d2 ≤ d ≤ d1 `max` d2)) as [Hd|Hd].
  - split; [done|]. intros _.
    destruct (Hin d) as (slots & meta & wa & wb & _ & ->); [lia|done].
  - rewrite Hout by lia. rewrite lookup_empty. split; [intros [? ?]; done|done].
Qed.

(** X18. In the single-date form of the availability tool an empty slot
    list always comes with a code and a list with slots never does; the date
    answered for is the one asked for, or today's when none or a blank one
    was given. *)
Theorem X18_single_date_answer_has_a_code_iff_no_slots
    (fuel : nat) (doctor_id : string) (date date' : DateStr) (slot_minutes : Z)
    (slots : list string) (meta : option MetaCode) (w w' : W) :
  availability_tool MIN_LEAD_MINUTES DB fuel doctor_id date slot_minutes NoDate w
  = Some (Returned (AvDay date' slots meta), w') →
  (slots = [] ↔ is_Some meta) ∧
  match date with
  | NoDate | Blank => ∃ now w1, datetime_now w = (now, w1) ∧ date' = IsoDate (date_of now)
  | _ => date' = date
  end.
Proof.
  unfold availability_tool.
  destruct (_find_doctor DB doctor_id) as [doctor|]; [|discriminate].
  destruct date as [| | |day]; unfold bind at 1.
  - unfold bind at 1, call. destruct (datetime_now w) as [now w1] eqn:Hnow.
    unfold ret at 1. unfold bind at 1.
    destruct (_compute_free_slots_for_date _ _ _ _ _ w1) as [[[[s m]|exc] w2]|] eqn:Hrun;
      [|discriminate|discriminate].
    intros [= <- <- <- <-]. split; [by eapply compute_code_iff_empty|eauto].
  - unfold bind at 1, call. destruct (datetime_now w) as [now w1] eqn:Hnow.
    unfold ret at 1. unfold bind at 1.
    destruct (_compute_free_slots_for_date _ _ _ _ _ w1) as [[[[s m]|exc] w2]|] eqn:Hrun;
      [|discriminate|discriminate].
    intros [= <- <- <- <-]. split; [by eapply compute_code_iff_empty|eauto].
  - unfold ret at 1. unfold bind at 1.
    destruct (_compute_free_slots_for_date _ _ _ _ _ w) as [[[[s m]|exc] w2]|] eqn:Hrun;
      [|discriminate|discriminate].
    intros [= <- <- <- <-]. split; [by eapply compute_code_iff_empty|done].
  - unfold ret at 1. unfold bind at 1.
    destruct (_compute_free_slots_for_date _ _ _ _ _ w) as [[[[s m]|exc] w2]|] eqn:Hrun;
      [|discriminate|discriminate].
    intros [= <- <- <- <-]. split; [by eapply compute_code_iff_empty|done].
Qed.
End AvailabilityMore.

Lemma in_calendar_WEDNESDAY_30 : in_calendar (TUESDAY + 1) 30.
Proof. split; by_evaluation. Qed.

Lemma X17_witness_wednesday_back_to_tuesday :
  ∃ dates w',
    availability_tool 0 [doctor_D] 1441 "D" (IsoDate (TUESDAY + 1)) 30
      (IsoDate TUESDAY) monday_noon = Some (Returned (AvDates dates), w') ∧
    availability_tool 0 [doctor_D] 1441 "D" (IsoDate TUESDAY) 30
      (IsoDate (TUESDAY + 1)) monday_noon = Some (Returned (AvDates dates), w') ∧
    ∀ d, is_Some (dates !! d) ↔ (TUESDAY + 1) `min` TUESDAY ≤ d ≤ (TUESDAY + 1) `max` TUESDAY.
Proof.
  apply (@X17_date_range_covers_the_days_between_in_either_order Fake fake_world 0
           [doctor_D] 1441 "D" doctor_D (TUESDAY + 1) TUESDAY 30 monday_noon);
    [lia|lia|reflexivity|by_evaluation|exact in_calendar_WEDNESDAY_30].
Defined.

Lemma X18_witness_blank_date_on_a_monday :
  (([] : list string) = [] ↔ is_Some (Some no_schedule)) ∧
  ∃ now w1, datetime_now monday_noon = (now, w1) ∧
            IsoDate (TUESDAY - 1) = IsoDate (date_of now).
Proof.
  apply (@X18_single_date_answer_has_a_code_iff_no_slots Fake fake_world 0 [doctor_D]
           1441 "D" Blank (IsoDate (TUESDAY - 1)) 30 [] (Some no_schedule)
           monday_noon monday_noon).
  by_evaluation.
Defined.

(** ** The weekly view *)

Section WeeklyFacts.
Context {W : Type} `{!World W}.
Variable MIN_LEAD_MINUTES : Z.
Variable DB : list Doctor.

Lemma weekly_loop_returns fuel doctor slot_minutes :
  0 < slot_minutes → (1441 ≤ fuel)%nat →
  ∀ (n : nat) check_date result_map (w : W),
    (∀ d, check_date ≤ d < check_date + Z.of_nat n → in_calendar d slot_minutes) →
    ∃ days w',
      weekly_loop MIN_LEAD_MINUTES fuel doctor slot_minutes n check_date result_map w
      = Some (Returned days, w').
Proof.
  intros Hslot Hfuel. induction n as [|n IH]; intros check_date result_map w Hcal.
  - eexists _, _. reflexivity.
  - cbn [weekly_loop].
    assert (Hday : in_calendar check_date slot_minutes) by (apply Hcal; lia).
    rewrite (in_calendar_fits check_date slot_minutes Hslot Hday). cbn [negb].
    unfold bind at 1.
    destruct (compute_returns MIN_LEAD_MINUTES fuel doctor check_date
                slot_minutes w Hslot Hday Hfuel) as ([slots meta] & w1 & ->).
    apply IH. intros d Hd. apply Hcal. lia.
Qed.

(** The loop leaves the dates outside its rounds as they were and writes,
    for each date of a round, the entry of that date's computation. *)
Lemma weekly_loop_entries fuel doctor slot_minutes (n : nat) :
  ∀ check_date result_map (w w' : W) days,
    weekly_loop MIN_LEAD_MINUTES fuel doctor slot_minutes n check_date result_map w
    = Some (Returned days, w') →
    (∀ d, ¬ (check_date ≤ d < check_date + Z.of_nat n) → days !! d = result_map !! d) ∧
    (∀ d, check_date ≤ d < check_date + Z.of_nat n →
       ∃ slots meta (wa wb : W),
         _compute_free_slots_for_date MIN_LEAD_MINUTES fuel doctor (IsoDate d)
           slot_minutes wa = Some (Returned (slots, meta), wb) ∧
         days !! d
         = Some {| da_day_name := strftime_A d;
                   da_slots := slots;
                   da_routine_hours := default [] (weekly_schedule doctor !! strftime_a d);
                   da_warning := warning_text <$> meta |}).
Proof.
  induction n as [|n IH]; intros check_date result_map w w' days Hrun.
  - cbn in Hrun. injection Hrun as <- <-. split; [done|]. intros d Hd. lia.
  - cbn [weekly_loop] in Hrun.
    destruct (date_fits check_date); cbn [negb] in Hrun; [|discriminate].
    unfold bind at 1 in Hrun.
    destruct (_compute_free_slots_for_date MIN_LEAD_MINUTES fuel doctor
                (IsoDate check_date) slot_minutes w) as [[[[slots meta]|exc] w1]|] eqn:Hday;
      [|discriminate|discriminate].
    apply IH in Hrun as [Hout Hin]. split.
    + intros d Hd. rewrite Hout by lia. apply lookup_insert_ne. lia.
    + intros d Hd. destruct (decide (d = check_date)) as [->|Hne].
      * exists slots, meta, w, w1. split; [done|].
        rewrite Hout by lia. apply lookup_insert_eq.
      * apply Hin. lia.
Qed.

(** X19. For a doctor found by name, a positive slot length and a number
    of days such that the slots of the last day asked for stay in the
    calendar, the weekly view returns one entry for each of the [days] dates
    from today on and for no other date (none at all when [days] is zero or
    negative).  The entry of a date holds the name of its weekday, the slots
    of that date's computation, the routine hours of its weekday and the
    warning text of the computation's code: a day without slots always
    carries a warning, a day with slots never does, and a failed free/busy
    query shows on its day as the warning that the query failed. *)
Theorem X19_weekly_view_has_one_entry_per_day_and_keeps_warnings
    (fuel : nat) (doctor_name : string) (doctor : Doctor) (days slot_minutes now : Z)
    (w w1 : W) :
  0 < slot_minutes → (1441 ≤ fuel)%nat →
  first_by_name DB (strip (lower doctor_name)) = Some doctor →
  datetime_now w = (now, w1) →
  DATE_MIN ≤ date_of now →
  (0 < days → in_calendar (date_of now + days - 1) slot_minutes) →
  ∃ days_map w',
    doctor_weekly_availability MIN_LEAD_MINUTES DB fuel doctor_name days slot_minutes w
    = Some (Returned (Weekly doctor days_map), w') ∧
    (∀ d, is_Some (days_map !! d) ↔ date_of now ≤ d < date_of now + days) ∧
    (∀ d entry, days_map !! d = Some entry →
       da_day_name entry = strftime_A d ∧
       da_routine_hours entry = default [] (weekly_schedule doctor !! strftime_a d) ∧
       (da_slots entry = [] ↔ is_Some (da_warning entry)) ∧
       ∃ meta (wa wb : W),
         _compute_free_slots_for_date MIN_LEAD_MINUTES fuel doctor (IsoDate d)
           slot_minutes wa = Some (Returned (da_slots entry, meta), wb) ∧
         da_warning entry = warning_text <$> meta ∧
         (meta = Some freebusy_error ↔
          da_warning entry = Some "Calendar free/busy query failed")).
Proof.
  intros Hslot Hfuel Hdoc Hnow Hmin Hcal.
  unfold doctor_weekly_availability. cbv zeta. rewrite Hdoc.
  unfold bind at 1, call. rewrite Hnow. unfold bind at 1.
  destruct (weekly_loop_returns fuel doctor slot_minutes Hslot Hfuel
              (Z.to_nat days) (date_of now) ∅ w1) as (days_map & w' & Hloop).
  { intros d Hd. apply (in_calendar_before (date_of now + days - 1)); [lia|].
    apply Hcal. lia. }
  rewrite Hloop. exists days_map, w'. split; [done|].
  apply weekly_loop_entries in Hloop as [Hout Hin]. split.
  - intros d. destruct (decide (date_of now ≤ d < date_of now + days)) as [Hd|Hd].
    + split; [done|]. intros _.
      destruct (Hin d) as (slots & meta & wa & wb & _ & ->); [lia|done].
    + rewrite Hout by lia. rewrite lookup_empty. split; [intros [? ?]; done|done].
  - intros d entry Hentry.
    destruct (decide (date_of now ≤ d < date_of now + Z.of_nat (Z.to_nat days)))
      as [Hd|Hd].
    2:{ rewrite Hout, lookup_empty in Hentry by done. discriminate Hentry. }
    destruct (Hin d Hd) as (slots & meta & wa & wb & Hrun & Hd').
    rewrite Hd' in Hentry. injection Hentry as <-.
    cbn [da_day_name da_routine_hours da_slots da_warning].
    split; [done|]. split; [done|]. split.
    + rewrite (compute_code_iff_empty MIN_LEAD_MINUTES _ _ _ _ _ _ _ _ Hrun).
      by rewrite fmap_is_Some.
    + exists meta, wa, wb. split; [done|]. split; [done|].
      destruct meta as [[]|]; cbn; split; intros Hc; try done; discriminate Hc.
Qed.
End WeeklyFacts.

Lemma X19_witness_two_days_from_monday :
  ∃ days_map w',
    doctor_weekly_availability 0 [doctor_D] 1441 "dr d" 2 30 monday_noon
    = Some (Returned (Weekly doctor_D days_map), w') ∧
    (∀ d, is_Some (days_map !! d) ↔
          date_of (fk_now monday_noon) ≤ d < date_of (fk_now monday_noon) + 2) ∧
    (∀ d entry, days_map !! d = Some entry →
       da_day_name entry = strftime_A d ∧
       da_routine_hours entry = default [] (weekly_schedule doctor_D !! strftime_a d) ∧
       (da_slots entry = [] ↔ is_Some (da_warning entry)) ∧
       ∃ meta (wa wb : Fake),
         _compute_free_slots_for_date 0 1441 doctor_D (IsoDate d) 30 wa
         = Some (Returned (da_slots entry, meta), wb) ∧
         da_warning entry = warning_text <$> meta ∧
         (meta = Some freebusy_error ↔
          da_warning entry = Some "Calendar free/busy query failed")).
Proof.
  apply (@X19_weekly_view_has_one_entry_per_day_and_keeps_warnings Fake fake_world 0
           [doctor_D] 1441 "dr d" doctor_D 2 30 (fk_now monday_noon)
           monday_noon monday_noon);
    [lia|lia|by_evaluation|reflexivity|by_evaluation|].
  intros _. split; by_evaluation.
Defined.
